(** * The Forward Horizon request cache and execution layer

    A shallow embedding of the TypeScript code of the repository around
    its in-memory cache:

    - [PerformanceOptimizer] (the performance utilities): the TTL cache
      ([setCache], [getCache], [clearCache], [cleanupCache],
      [evictOldest]), [createLazyLoader] and [recordMetric];
    - [ApiClient] (the API client built on it): [request] with its cache
      lookup and its queue of in-flight promises, and [executeRequest] with
      its retry loop;
    - the optimizers that [PerformanceOptimizer] hands out: [memoize] and
      [createVirtualScroller], [retryRequest] and [deduplicateRequest],
      [debounceQuery] and [throttleQuery], and the exported [debounce] and
      [throttle];
    - the callers of the cache on the server and the page that shares the
      file of the optimizer: the pagination of the payments route, the
      analytics route, and the adding and deleting of residents.

    JavaScript values are modelled by an inductive type, [Map] objects by
    association lists in insertion order, numbers by [Z] (the integers are
    the only numbers the cache, the retry loops and the pagination compute
    with), and the asynchronous functions by a step function on a state of
    the event loop, one step per synchronous stretch between two [await]s
    or callbacks.  A synchronous stretch takes no time: the clock moves
    between stretches only, so the readings of [Date.now()] within one call
    are one value.  The performance timer of [request] writes the metrics
    only and is left out. *)

From Stdlib Require Import ZArith String Ascii List Bool Lia DecimalString DecimalZ.
Import ListNotations.

Local Open Scope string_scope.
Local Open Scope Z_scope.

(* ================================================================== *)
(** ** JavaScript values and the built-ins the two classes call *)

Module JS.

(** A JavaScript value as far as a JSON request body and a cached payload
    go.  The properties of an object are listed in the order in which
    [JSON.stringify] enumerates them, which for keys that are not array
    indices is the order of insertion. *)
#[local] Unset Elimination Schemes.
Inductive JSValue : Type :=
| JUndefined
| JNull
| JBool (b : bool)
| JNum (n : Z)
| JStr (s : string)
| JArr (items : list JSValue)
| JObj (props : list (string * JSValue)).
#[local] Set Elimination Schemes.

(** [ToBoolean]: what [if (v)], [!v] and [v || d] test. *)
Definition isTruthy (v : JSValue) : bool :=
  match v with
  | JUndefined | JNull => false
  | JBool b => b
  | JNum n => negb (n =? 0)
  | JStr s => negb (String.eqb s EmptyString)
  | JArr _ | JObj _ => true
  end.

(** [v || d]. *)
Definition orElse (v d : JSValue) : JSValue := if isTruthy v then v else d.

(** [Number.prototype.toString] on an integer (of the size JavaScript
    prints in plain decimal). *)
Definition numberToString (n : Z) : string := NilZero.string_of_int (Z.to_int n).

Definition dquote : ascii := "034"%char.
Definition backslash : ascii := "092"%char.

Definition hexDigit (n : nat) : ascii :=
  match n with
  | 0 => "0" | 1 => "1" | 2 => "2" | 3 => "3" | 4 => "4" | 5 => "5" | 6 => "6"
  | 7 => "7" | 8 => "8" | 9 => "9" | 10 => "a" | 11 => "b" | 12 => "c"
  | 13 => "d" | 14 => "e" | _ => "f"
  end%nat%char.

(** One code unit of [QuoteJSONString]. *)
Definition escapeChar (c : ascii) : string :=
  let n := nat_of_ascii c in
  if Nat.eqb n 8 then String backslash "b"
  else if Nat.eqb n 9 then String backslash "t"
  else if Nat.eqb n 10 then String backslash "n"
  else if Nat.eqb n 12 then String backslash "f"
  else if Nat.eqb n 13 then String backslash "r"
  else if Nat.eqb n 34 then String backslash (String dquote EmptyString)
  else if Nat.eqb n 92 then String backslash (String backslash EmptyString)
  else if Nat.ltb n 32 then
    String backslash
      (String "u" (String "0" (String "0"
        (String (hexDigit (Nat.div n 16)) (String (hexDigit (Nat.modulo n 16)) EmptyString)))))
  else String c EmptyString.

Fixpoint escapeString (s : string) : string :=
  match s with
  | EmptyString => EmptyString
  | String c rest => escapeChar c ++ escapeString rest
  end.

Definition quoteJSONString (s : string) : string :=
  String dquote (escapeString s ++ String dquote EmptyString).

(** [Array.prototype.join]. *)
Fixpoint join (sep : string) (parts : list string) : string :=
  match parts with
  | [] => EmptyString
  | [p] => p
  | p :: rest => p ++ sep ++ join sep rest
  end.

(** [JSON.stringify(v)]; [None] is the result [undefined].  Inside an array
    a value without serialization is written [null]; inside an object the
    property is left out. *)
Fixpoint stringify (v : JSValue) : option string :=
  match v with
  | JUndefined => None
  | JNull => Some "null"
  | JBool true => Some "true"
  | JBool false => Some "false"
  | JNum n => Some (numberToString n)
  | JStr s => Some (quoteJSONString s)
  | JArr items =>
      Some ("[" ++ join ","
              (map (fun x => match stringify x with
                             | Some s => s
                             | None => "null"
                             end) items) ++ "]")
  | JObj props =>
      let fix members (ps : list (string * JSValue)) : list string :=
        match ps with
        | [] => []
        | (k, x) :: rest =>
            match stringify x with
            | Some s => (quoteJSONString k ++ ":" ++ s) :: members rest
            | None => members rest
            end
        end in
      Some ("{" ++ join "," (members props) ++ "}")
  end.

(** The members of an object, as a function of its own. *)
Fixpoint members (ps : list (string * JSValue)) : list string :=
  match ps with
  | [] => []
  | (k, x) :: rest =>
      match stringify x with
      | Some s => (quoteJSONString k ++ ":" ++ s) :: members rest
      | None => members rest
      end
  end.

(** A value inside a template literal: [`${x}`]. *)
Definition templateString (x : option string) : string :=
  match x with
  | Some s => s
  | None => "undefined"
  end.

(** [hay.includes(needle)]. *)
Fixpoint includes (needle hay : string) : bool :=
  if String.prefix needle hay then true
  else match hay with
       | EmptyString => false
       | String _ rest => includes needle rest
       end.







Definition isDigit (c : ascii) : bool :=
  Nat.leb 48 (nat_of_ascii c) && Nat.leb (nat_of_ascii c) 57.

(** A text that does not go on with a digit. *)
Definition digitFree (r : string) : bool :=
  match r with
  | EmptyString => true
  | String c _ => negb (isDigit c)
  end.






(** [Math.floor(a / b)] and [Math.ceil(a / b)] for integers [a] and [b],
    [b] not zero.  The quotient of two integers below 2^53 in absolute
    value, rounded to a double, lies between the same two integers as the
    exact quotient, so that the integer division gives the value. *)
Definition floorDiv (a b : Z) : Z := a / b.
Definition ceilDiv (a b : Z) : Z := - ((- a) / b).

(** A relative index of [Array.prototype.slice]: a negative one counts
    from the end. *)
Definition sliceIndex (len rel : Z) : Z :=
  if rel <? 0 then Z.max (len + rel) 0 else Z.min rel len.

(** [l.slice(start, stop)]; [stop] is [None] for [l.slice(start)]. *)
Definition slice {A : Type} (start : Z) (stop : option Z) (l : list A) : list A :=
  let len := Z.of_nat (length l) in
  let k := sliceIndex len start in
  let final :=
    match stop with
    | Some e => sliceIndex len e
    | None => len
    end in
  firstn (Z.to_nat (final - k)) (skipn (Z.to_nat k) l).

(** A thrown value.  Everything the request path throws or receives as a
    rejection is an [Error] instance with a message ([new Error], the
    [TypeError] of a failed [fetch], the [AbortError] of an aborted one, the
    [SyntaxError] of [response.json()]), except the unassigned [lastError]
    of a loop that never ran, which is [undefined]. *)
Inductive Thrown : Type :=
| ThrownUndefined
| ThrownError (message : string).

(** The settled state of a promise. *)
Inductive Outcome : Type :=
| Resolved (v : JSValue)
| Rejected (e : Thrown).

End JS.

(* ================================================================== *)
(** ** [Map]: keys in insertion order *)

Module JSMap.
Section Ops.
Context {V : Type}.

Definition t := list (string * V).

Fixpoint get (k : string) (m : t) : option V :=
  match m with
  | [] => None
  | (k', v) :: rest => if String.eqb k' k then Some v else get k rest
  end.

Definition has (k : string) (m : t) : bool :=
  match get k m with
  | Some _ => true
  | None => false
  end.

(** [Map.prototype.set]: an existing key keeps its place. *)
Fixpoint set (k : string) (v : V) (m : t) : t :=
  match m with
  | [] => [(k, v)]
  | (k', v') :: rest =>
      if String.eqb k' k then (k', v) :: rest else (k', v') :: set k v rest
  end.

(** [Map.prototype.delete]; a key occurs at most once in a [Map], and no
    entry under [k] is left. *)
Definition delete (k : string) (m : t) : t :=
  filter (fun kv => negb (String.eqb (fst kv) k)) m.

Definition size (m : t) : Z := Z.of_nat (length m).

Definition keys (m : t) : list string := map fst m.

End Ops.
Arguments t : clear implicits.
End JSMap.

(* ================================================================== *)
(** ** Timers: [setTimeout] and [clearTimeout] *)

Module Timers.
Section Ops.
Context {A : Type}.

(** A timer: the clock value from which it may fire, what its callback
    closes over, and whether it is still to fire. *)
Record Timer : Type := {
  due : Z;
  payload : A;
  live : bool
}.

(** The timers ever set, by identifier. *)
Definition t := list Timer.

(** [setTimeout(callback, delay)] at clock value [now]; the identifier
    returned is the number of timers set before.  A negative delay counts
    as zero. *)
Definition setTimeout (delay now : Z) (x : A) (ts : t) : t :=
  (ts ++ [{| due := now + Z.max 0 delay; payload := x; live := true |}])%list.

Fixpoint retire (id : nat) (ts : t) : t :=
  match ts, id with
  | [], _ => []
  | tm :: rest, O => {| due := due tm; payload := payload tm; live := false |} :: rest
  | tm :: rest, S id' => tm :: retire id' rest
  end.

(** [clearTimeout(id)]; [None] is the identifier [undefined]. *)
Definition clearTimeout (id : option nat) (ts : t) : t :=
  match id with
  | Some i => retire i ts
  | None => ts
  end.

(** The callback data of timer [id] if the timer may fire at [now]. *)
Definition ready (id : nat) (now : Z) (ts : t) : option A :=
  match nth_error ts id with
  | Some tm => if live tm && (due tm <=? now) then Some (payload tm) else None
  | None => None
  end.

End Ops.
Arguments Timer : clear implicits.
Arguments t : clear implicits.
End Timers.

(* ================================================================== *)
(** ** [PerformanceOptimizer]: the TTL cache *)

Module PerformanceOptimizer.
Import JS.

Record CacheConfig : Type := {
  maxSize : Z;
  ttl : Z;              (* time to live in milliseconds *)
  keyPrefix : string
}.

(** The value of the private field [config]; the class has no setter. *)
Definition config : CacheConfig :=
  {| maxSize := 100; ttl := 5 * 60 * 1000; keyPrefix := "fh_" |}.

(** An entry of the private field [cache]. *)
Record CacheItem : Type := {
  data : JSValue;
  timestamp : Z;
  itemTtl : Z
}.

Definition Cache := JSMap.t CacheItem.

Section WithConfig.
Variable cfg : CacheConfig.

Definition expired (now : Z) (item : CacheItem) : bool :=
  now - timestamp item >? itemTtl item.

(** [cleanupCache]: deletes, while iterating, every entry past its TTL. *)
Definition cleanupCache (now : Z) (c : Cache) : Cache :=
  filter (fun kv => negb (expired now (snd kv))) c.

(** The loop of [evictOldest]: [oldestKey] and [oldestTime] after the
    entries of [c] have been visited. *)
Fixpoint scanOldest (c : Cache) (oldestKey : option string) (oldestTime : Z)
  : option string * Z :=
  match c with
  | [] => (oldestKey, oldestTime)
  | (key, item) :: rest =>
      if timestamp item <? oldestTime
      then scanOldest rest (Some key) (timestamp item)
      else scanOldest rest oldestKey oldestTime
  end.

(** [evictOldest]: [oldestTime] starts at [Date.now()]; the final
    [if (oldestKey)] also rejects the empty string. *)
Definition evictOldest (now : Z) (c : Cache) : Cache :=
  match fst (scanOldest c None now) with
  | Some key => if String.eqb key EmptyString then c else JSMap.delete key c
  | None => c
  end.

(** [setCache(key, data, ttl?)] at clock value [now]; [ttl || config.ttl]
    takes the default for a missing and for a zero [ttl]. *)
Definition setCache (key : string) (d : JSValue) (ttl' : option Z) (now : Z)
           (c : Cache) : Cache :=
  let cacheKey := keyPrefix cfg ++ key in
  let timestamp := now in
  let cacheTTL :=
    match ttl' with
    | Some t => if t =? 0 then ttl cfg else t
    | None => ttl cfg
    end in
  let c1 := cleanupCache now c in
  let c2 := if JSMap.size c1 >=? maxSize cfg then evictOldest now c1 else c1 in
  JSMap.set cacheKey {| data := d; timestamp := timestamp; itemTtl := cacheTTL |} c2.

(** [getCache(key)] at clock value [now]: the value returned ([null] for
    a miss) and the cache afterwards. *)
Definition getCache (key : string) (now : Z) (c : Cache) : JSValue * Cache :=
  let cacheKey := keyPrefix cfg ++ key in
  match JSMap.get cacheKey c with
  | None => (JNull, c)
  | Some item =>
      if now - timestamp item >? itemTtl item
      then (JNull, JSMap.delete cacheKey c)
      else (data item, c)
  end.

Definition clearCache (c : Cache) : Cache := [].

(** No entry under [key] is both live at [now] and truthy: the cases in
    which the [if (cached)] after a [getCache(key)] fails. *)
Definition noLiveTruthy (key : string) (now : Z) (c : Cache) : Prop :=
  forall item,
    In (keyPrefix cfg ++ key, item) c ->
    isTruthy (data item) = false \/ itemTtl item < now - timestamp item.

(** [ttl || this.config.ttl]: the time to live that [setCache] writes. *)
Definition cacheTTLOf (ttl' : option Z) : Z :=
  match ttl' with
  | Some t => if t =? 0 then ttl cfg else t
  | None => ttl cfg
  end.

(** *** [createLazyLoader(loader, cacheKey)] *)

(** Where a call of the function returned by [createLazyLoader] gets to
    before its first [await]. *)
Inductive LazyLoad : Type :=
| ServedFromCache (cached : JSValue)   (* return cached *)
| AwaitsLoader.                        (* await loader() *)

(** The returned function from its entry to its [return cached] or to its
    call of [loader]. *)
Definition lazyLoaderCalled (cacheKey : string) (now : Z) (c : Cache)
  : LazyLoad * Cache :=
  let r := getCache cacheKey now c in
  if isTruthy (fst r) then (ServedFromCache (fst r), snd r)
  else (AwaitsLoader, snd r).

(** The returned function from the settling of the promise of [loader]
    to its end: the data is cached with the default time to live and
    returned; a rejection is passed on. *)
Definition lazyLoaderLoaded (cacheKey : string) (loaded : Outcome) (now : Z) (c : Cache)
  : Outcome * Cache :=
  match loaded with
  | Resolved d => (Resolved d, setCache cacheKey d None now c)
  | Rejected e => (Rejected e, c)
  end.

End WithConfig.

(* ------------------------------------------------------------------ *)
(** *** [recordMetric] and the list of metrics *)

Section Metrics.
(** The metric values are durations, rates and sizes, floating-point
    numbers with which [recordMetric] does no arithmetic: the type of
    numbers is left open, with the two constants the method writes. *)
Variable Number : Type.
Variable zero : Number.              (* 0 *)
Variable placeholderRate : Number.   (* 0.85 *)

Record PerformanceMetrics : Type := {
  loadTime : Number;
  renderTime : Number;
  dataFetchTime : Number;
  cacheHitRate : Number;
  memoryUsage : Number;
  recordedAt : Z                     (* the field [timestamp] *)
}.

Definition calculateCacheHitRate : Number := placeholderRate.

(** The object [recordMetric(label, value)] builds at clock value [now];
    [usage] is what [getMemoryUsage()] returns at that moment. *)
Definition metricOf (label : string) (value usage : Number) (now : Z)
  : PerformanceMetrics :=
  {| loadTime := if includes "load" label then value else zero;
     renderTime := if includes "render" label then value else zero;
     dataFetchTime := if includes "fetch" label then value else zero;
     cacheHitRate := calculateCacheHitRate;
     memoryUsage := usage;
     recordedAt := now |}.

(** [recordMetric(label, value)]: the field [metrics] afterwards.  The
    warning written to the console for a value above 1000 is no part of
    the state. *)
Definition recordMetric (label : string) (value usage : Number) (now : Z)
           (metrics : list PerformanceMetrics) : list PerformanceMetrics :=
  let pushed := (metrics ++ [metricOf label value usage now])%list in
  if Z.of_nat (length pushed) >? 100 then slice (-100) None pushed else pushed.

(** One call of [recordMetric]: label, value, memory reading, clock. *)
Definition MetricCall : Type := (string * Number * Number * Z)%type.

Definition metricOfCall (call : MetricCall) : PerformanceMetrics :=
  let '(label, value, usage, now) := call in metricOf label value usage now.

(** A sequence of calls of [recordMetric], oldest first. *)
Definition recordMetrics (calls : list MetricCall) (metrics : list PerformanceMetrics)
  : list PerformanceMetrics :=
  fold_left (fun acc call =>
               let '(label, value, usage, now) := call in
               recordMetric label value usage now acc) calls metrics.

End Metrics.

End PerformanceOptimizer.

(* ================================================================== *)
(** ** [ApiClient]: cache lookup, queue of in-flight requests, retry loop *)

Module ApiClient.
Import JS.

Inductive Method : Type := GET | POST | PUT | DELETE | PATCH.

Definition methodName (m : Method) : string :=
  match m with
  | GET => "GET" | POST => "POST" | PUT => "PUT" | DELETE => "DELETE"
  | PATCH => "PATCH"
  end.

Definition isGET (m : Method) : bool :=
  match m with GET => true | _ => false end.

(** [ApiRequestConfig]: every field is optional; an absent [body] is
    [undefined].  The headers take no part in caching, de-duplication or
    retrying and are left out. *)
Record ApiRequestConfig : Type := {
  method : option Method;
  body : JSValue;
  cache : option bool;
  cacheTTL : option Z;
  retries : option Z;
  timeout : option Z
}.

(** The configuration after the defaults of the destructuring in [request],
    as it is handed to [executeRequest]. *)
Record ExecConfig : Type := {
  eMethod : Method;
  eBody : JSValue;
  eCache : bool;
  eCacheTTL : Z;
  eRetries : Z;
  eTimeout : Z
}.

Definition withDefault {A : Type} (x : option A) (d : A) : A :=
  match x with
  | Some a => a
  | None => d
  end.

Definition resolveConfig (config : ApiRequestConfig) : ExecConfig :=
  {| eMethod := withDefault (method config) GET;
     eBody := body config;
     eCache := withDefault (cache config) false;
     eCacheTTL := withDefault (cacheTTL config) (5 * 60 * 1000);
     eRetries := withDefault (retries config) 3;
     eTimeout := withDefault (timeout config) 10000 |}.

(** [`${method}-${url}-${JSON.stringify(body || {})}`]. *)
Definition cacheKey (m : Method) (url : string) (b : JSValue) : string :=
  methodName m ++ "-" ++ url ++ "-" ++ templateString (stringify (orElse b (JObj []))).

(** What one call of [fetch] followed by [response.json()] comes to: the
    promise of [fetch] rejects (network failure, or the abort of the
    timeout), or a response arrives whose body parses to a value or makes
    [json()] reject. *)
Inductive FetchResult : Type :=
| FetchRejects (message : string)
| Responds (status : Z) (statusText : string) (json : JSValue + string).

(** [response.ok]. *)
Definition responseOk (status : Z) : bool := (200 <=? status) && (status <=? 299).

(** The [try] block of one attempt once the transport has answered: the
    parsed data, or the error that reaches the [catch]. *)
Definition attemptResult (r : FetchResult) : JSValue + Thrown :=
  match r with
  | FetchRejects message => inr (ThrownError message)
  | Responds status statusText json =>
      if responseOk status then
        match json with
        | inl d => inl d
        | inr message => inr (ThrownError message)
        end
      else inr (ThrownError ("HTTP " ++ numberToString status ++ ": " ++ statusText))
  end.

(** [error instanceof Error && error.message.includes('HTTP 4')]. *)
Definition isClientError (e : Thrown) : bool :=
  match e with
  | ThrownError message => includes "HTTP 4" message
  | ThrownUndefined => false
  end.

(** The outcome with which an answer of the transport ends the loop at
    once, whatever the attempt: the data of a good answer, or the error of a
    client error. *)
Definition conclusive (r : FetchResult) : option Outcome :=
  match attemptResult r with
  | inl d => Some (Resolved d)
  | inr e => if isClientError e then Some (Rejected e) else None
  end.

(** [Math.pow(2, attempt) * 1000]. *)
Definition backoffDelay (attempt : Z) : Z := 2 ^ attempt * 1000.

(** The error with which an answer of the transport reaches the [catch]. *)
Definition errorOf (r : FetchResult) : Thrown :=
  match attemptResult r with
  | inr e => e
  | inl _ => ThrownUndefined
  end.

(** An answer after which the loop goes on if attempts are left. *)
Definition retryable (r : FetchResult) : Prop :=
  exists e, attemptResult r = inr e /\ isClientError e = false.

(** Where a running [executeRequest] is suspended. *)
Inductive JobPhase : Type :=
| Fetching                 (* await fetch(...) / await response.json() *)
| Sleeping (wake : Z).     (* await new Promise(resolve => setTimeout(resolve, ...)) *)

Record Job : Type := {
  jUrl : string;
  jConfig : ExecConfig;
  jAttempt : Z;
  jLastError : Thrown;
  jPhase : JobPhase
}.

(** The promise returned by one call of [executeRequest]. *)
Inductive PromiseState : Type :=
| Pending (j : Job)
| Settled (o : Outcome).

(** Where a call of [request] stands. *)
Inductive CallerState : Type :=
| Returned (o : Outcome)
| AwaitingQueued (p : nat)              (* await this.requestQueue.get(cacheKey) *)
| AwaitingOwn (p : nat) (key : string). (* await requestPromise, inside try/finally *)

(** One call of the transport. *)
Record FetchCall : Type := {
  fJob : nat;
  fAttempt : Z;
  fUrl : string;
  fMethod : Method;
  fBody : option string;
  fTimeout : Z;
  fAt : Z
}.

(** The state of the two singletons and of the event loop around them. *)
Record World : Type := {
  baseURL : string;
  clock : Z;                                    (* Date.now() *)
  optimizerCache : PerformanceOptimizer.Cache;  (* performanceOptimizer.cache *)
  requestQueue : JSMap.t nat;                   (* apiClient.requestQueue *)
  promises : list PromiseState;                 (* promises of executeRequest, by creation *)
  callers : list CallerState;                   (* calls of request, by creation *)
  fetchLog : list FetchCall;                    (* calls of fetch, oldest first *)
  sleepLog : list Z                             (* delays handed to setTimeout for backoff *)
}.

(** [new ApiClient(baseURL)] next to a fresh [PerformanceOptimizer]. *)
Definition newWorld (base : string) (now : Z) : World :=
  {| baseURL := base; clock := now; optimizerCache := []; requestQueue := [];
     promises := []; callers := []; fetchLog := []; sleepLog := [] |}.

Fixpoint replaceNth {A : Type} (n : nat) (x : A) (l : list A) : list A :=
  match l, n with
  | [], _ => []
  | _ :: rest, O => x :: rest
  | y :: rest, S n' => y :: replaceNth n' x rest
  end.

Definition pcfg := PerformanceOptimizer.config.

(** The call of [fetch] in attempt [attempt] of job [p]. *)
Definition fetchCall (p : nat) (url : string) (cfg : ExecConfig) (attempt now : Z)
  : FetchCall :=
  {| fJob := p; fAttempt := attempt; fUrl := url; fMethod := eMethod cfg;
     fBody := if isTruthy (eBody cfg) then stringify (eBody cfg) else None;
     fTimeout := eTimeout cfg; fAt := now |}.

(** [executeRequest] from its entry to its first [await]: the loop test of
    the first iteration and the first [fetch]; a loop that does not run
    throws the unassigned [lastError]. *)
Definition startJob (p : nat) (url : string) (cfg : ExecConfig) (now : Z)
  : PromiseState * list FetchCall :=
  if 1 <=? eRetries cfg then
    (Pending {| jUrl := url; jConfig := cfg; jAttempt := 1;
                jLastError := ThrownUndefined; jPhase := Fetching |},
     [fetchCall p url cfg 1 now])
  else (Settled (Rejected ThrownUndefined), []).

(** [request] from its entry to its first [await] or to its [return]:
    the key, the cache lookup of a GET with caching enabled, the test
    [requestQueue.has(cacheKey)], and the start of [executeRequest]. *)
Definition call (endpoint : string) (config : ApiRequestConfig) (w : World) : World :=
  let cfg := resolveConfig config in
  let url := baseURL w ++ endpoint in
  let key := cacheKey (eMethod cfg) url (eBody cfg) in
  let lookup :=
    if isGET (eMethod cfg) && eCache cfg
    then PerformanceOptimizer.getCache pcfg key (clock w) (optimizerCache w)
    else (JUndefined, optimizerCache w) in
  let cached := fst lookup in
  let cache1 := snd lookup in
  if isGET (eMethod cfg) && eCache cfg && isTruthy cached then
    {| baseURL := baseURL w; clock := clock w; optimizerCache := cache1;
       requestQueue := requestQueue w; promises := promises w;
       callers := callers w ++ [Returned (Resolved cached)];
       fetchLog := fetchLog w; sleepLog := sleepLog w |}
  else
    match JSMap.get key (requestQueue w) with
    | Some p =>
        {| baseURL := baseURL w; clock := clock w; optimizerCache := cache1;
           requestQueue := requestQueue w; promises := promises w;
           callers := callers w ++ [AwaitingQueued p];
           fetchLog := fetchLog w; sleepLog := sleepLog w |}
    | None =>
        let p := length (promises w) in
        let started := startJob p url cfg (clock w) in
        {| baseURL := baseURL w; clock := clock w; optimizerCache := cache1;
           requestQueue := JSMap.set key p (requestQueue w);
           promises := promises w ++ [fst started];
           callers := callers w ++ [AwaitingOwn p key];
           fetchLog := fetchLog w ++ snd started; sleepLog := sleepLog w |}
    end.

(** Whether [request] returns from the cache: a GET with caching enabled
    whose [getCache] result is truthy. *)
Definition cacheHit (cfg : ExecConfig) (key : string) (w : World) : bool :=
  isGET (eMethod cfg) && eCache cfg
  && isTruthy (fst (PerformanceOptimizer.getCache pcfg key (clock w) (optimizerCache w))).

Definition setOptimizerCache (c : PerformanceOptimizer.Cache) (w : World) : World :=
  {| baseURL := baseURL w; clock := clock w; optimizerCache := c;
     requestQueue := requestQueue w; promises := promises w;
     callers := callers w; fetchLog := fetchLog w; sleepLog := sleepLog w |}.

Definition setPromise (p : nat) (s : PromiseState) (w : World) : World :=
  {| baseURL := baseURL w; clock := clock w; optimizerCache := optimizerCache w;
     requestQueue := requestQueue w; promises := replaceNth p s (promises w);
     callers := callers w; fetchLog := fetchLog w; sleepLog := sleepLog w |}.

(** [executeRequest] from the answer of the transport to the next [await],
    [return] or [throw]. *)
Definition fetchDone (p : nat) (j : Job) (r : FetchResult) (w : World) : World :=
  let cfg := jConfig j in
  match attemptResult r with
  | inl d =>
      let cache1 :=
        if isGET (eMethod cfg) && eCache cfg
        then PerformanceOptimizer.setCache pcfg (jUrl j) d (Some (eCacheTTL cfg))
               (clock w) (optimizerCache w)
        else optimizerCache w in
      {| baseURL := baseURL w; clock := clock w; optimizerCache := cache1;
         requestQueue := requestQueue w;
         promises := replaceNth p (Settled (Resolved d)) (promises w);
         callers := callers w; fetchLog := fetchLog w; sleepLog := sleepLog w |}
  | inr error =>
      if isClientError error then setPromise p (Settled (Rejected error)) w
      else if jAttempt j <? eRetries cfg then
        {| baseURL := baseURL w; clock := clock w; optimizerCache := optimizerCache w;
           requestQueue := requestQueue w;
           promises :=
             replaceNth p
               (Pending {| jUrl := jUrl j; jConfig := cfg; jAttempt := jAttempt j;
                           jLastError := error;
                           jPhase := Sleeping (clock w + backoffDelay (jAttempt j)) |})
               (promises w);
           callers := callers w; fetchLog := fetchLog w;
           sleepLog := sleepLog w ++ [backoffDelay (jAttempt j)] |}
      else if jAttempt j + 1 <=? eRetries cfg then
        {| baseURL := baseURL w; clock := clock w; optimizerCache := optimizerCache w;
           requestQueue := requestQueue w;
           promises :=
             replaceNth p
               (Pending {| jUrl := jUrl j; jConfig := cfg; jAttempt := jAttempt j + 1;
                           jLastError := error; jPhase := Fetching |})
               (promises w);
           callers := callers w;
           fetchLog := fetchLog w ++ [fetchCall p (jUrl j) cfg (jAttempt j + 1) (clock w)];
           sleepLog := sleepLog w |}
      else setPromise p (Settled (Rejected error)) w
  end.

(** [executeRequest] from the end of a backoff wait to the next [await]:
    the increment and the test of the loop, then the next [fetch]. *)
Definition timerDone (p : nat) (j : Job) (w : World) : World :=
  let cfg := jConfig j in
  if jAttempt j + 1 <=? eRetries cfg then
    {| baseURL := baseURL w; clock := clock w; optimizerCache := optimizerCache w;
       requestQueue := requestQueue w;
       promises :=
         replaceNth p
           (Pending {| jUrl := jUrl j; jConfig := cfg; jAttempt := jAttempt j + 1;
                       jLastError := jLastError j; jPhase := Fetching |})
           (promises w);
       callers := callers w;
       fetchLog := fetchLog w ++ [fetchCall p (jUrl j) cfg (jAttempt j + 1) (clock w)];
       sleepLog := sleepLog w |}
  else setPromise p (Settled (Rejected (jLastError j))) w.

(** [request] from the settling of the awaited promise to its end; the
    owner of the promise runs its [finally]. *)
Definition resume (c : nat) (st : CallerState) (o : Outcome) (w : World) : World :=
  {| baseURL := baseURL w; clock := clock w; optimizerCache := optimizerCache w;
     requestQueue :=
       match st with
       | AwaitingOwn _ key => JSMap.delete key (requestQueue w)
       | _ => requestQueue w
       end;
     promises := promises w;
     callers := replaceNth c (Returned o) (callers w);
     fetchLog := fetchLog w; sleepLog := sleepLog w |}.

Definition awaited (st : CallerState) : option nat :=
  match st with
  | Returned _ => None
  | AwaitingQueued p => Some p
  | AwaitingOwn p _ => Some p
  end.

(** What can happen next on the event loop. *)
Inductive Event : Type :=
| Call (endpoint : string) (config : ApiRequestConfig)
| FetchDone (p : nat) (r : FetchResult)
| TimerDone (p : nat)
| Resume (c : nat)
| Tick (d : Z)
| ClearCache.

(** One synchronous stretch; [None] when the event cannot happen in [w]. *)
Definition step (ev : Event) (w : World) : option World :=
  match ev with
  | Call endpoint config => Some (call endpoint config w)
  | FetchDone p r =>
      match nth_error (promises w) p with
      | Some (Pending j) =>
          match jPhase j with
          | Fetching => Some (fetchDone p j r w)
          | Sleeping _ => None
          end
      | _ => None
      end
  | TimerDone p =>
      match nth_error (promises w) p with
      | Some (Pending j) =>
          match jPhase j with
          | Sleeping wake => if wake <=? clock w then Some (timerDone p j w) else None
          | Fetching => None
          end
      | _ => None
      end
  | Resume c =>
      match nth_error (callers w) c with
      | Some st =>
          match awaited st with
          | Some p =>
              match nth_error (promises w) p with
              | Some (Settled o) => Some (resume c st o w)
              | _ => None
              end
          | None => None
          end
      | None => None
      end
  | Tick d =>
      if 0 <=? d then
        Some {| baseURL := baseURL w; clock := clock w + d; optimizerCache := optimizerCache w;
                requestQueue := requestQueue w; promises := promises w;
                callers := callers w; fetchLog := fetchLog w; sleepLog := sleepLog w |}
      else None
  | ClearCache =>
      Some {| baseURL := baseURL w; clock := clock w;
              optimizerCache := PerformanceOptimizer.clearCache (optimizerCache w);
              requestQueue := requestQueue w; promises := promises w;
              callers := callers w; fetchLog := fetchLog w; sleepLog := sleepLog w |}
  end.

Definition isCall (ev : Event) : bool :=
  match ev with
  | Call _ _ => true
  | _ => false
  end.

(** Two worlds that agree on everything but the contents of the cache. *)
Definition sameRequests (w1 w2 : World) : Prop :=
  baseURL w1 = baseURL w2 /\ clock w1 = clock w2
  /\ requestQueue w1 = requestQueue w2 /\ promises w1 = promises w2
  /\ callers w1 = callers w2 /\ fetchLog w1 = fetchLog w2
  /\ sleepLog w1 = sleepLog w2.

(** The same fate for two runs: both stuck, or both through and with the
    same requests. *)
Definition sameFate (r1 r2 : option World) : Prop :=
  match r1, r2 with
  | Some a, Some b => sameRequests a b
  | None, None => True
  | _, _ => False
  end.


(** A caller that came after the owner of promise [p]: it awaits [p], or
    it has returned the outcome of [p]. *)
Definition sharesOutcome (p : nat) (ps : PromiseState) (st : CallerState) : Prop :=
  st = AwaitingQueued p \/ exists o, st = Returned o /\ ps = Settled o.

(** The job behind promise state [ps], while it runs, is the request to
    [url] with configuration [cfg] in its attempt [n]. *)
Definition runsAttempt (url : string) (cfg : ExecConfig) (n : nat) (ps : PromiseState)
  : Prop :=
  match ps with
  | Pending j => jUrl j = url /\ jConfig j = cfg /\ jAttempt j = Z.of_nat n
  | Settled _ => True
  end.

(** What holds of a world [w2] inside the window opened by a call in [w]
    that started [executeRequest] for [key]. *)
Record InWindow (w : World) (url key : string) (cfg : ExecConfig) (w2 : World)
  : Prop := {
  win_base : baseURL w2 = baseURL w;
  win_clock : clock w <= clock w2;
  win_cache :
    isGET (eMethod cfg) && eCache cfg = true ->
    PerformanceOptimizer.noLiveTruthy pcfg key (clock w2) (optimizerCache w2);
  win_queue : JSMap.get key (requestQueue w2) = Some (length (promises w));
  win_shared :
    exists ps n later fl,
      promises w2 = (promises w ++ [ps])%list
      /\ (1 <= n)%nat /\ Z.of_nat n <= eRetries cfg
      /\ runsAttempt url cfg n ps
      /\ callers w2 = (callers w ++ AwaitingOwn (length (promises w)) key :: later)%list
      /\ Forall (sharesOutcome (length (promises w)) ps) later
      /\ fetchLog w2 = (fetchLog w ++ fl)%list
      /\ map fAttempt fl = map Z.of_nat (seq 1 n)
      /\ Forall (fun f => fJob f = length (promises w) /\ fUrl f = url) fl
}.

(** The course of job [p] from its attempt [attempt] on when the
    transport answers with the failures [fs], one per attempt, and every
    backoff wait lasts exactly as long as asked for. *)
Fixpoint failingAttempts (p : nat) (attempt : Z) (fs : list FetchResult) : list Event :=
  match fs with
  | [] => []
  | f :: rest =>
      match rest with
      | [] => [FetchDone p f]
      | _ :: _ =>
          FetchDone p f :: Tick (backoffDelay attempt) :: TimerDone p
            :: failingAttempts p (attempt + 1) rest
      end
  end.

Fixpoint run (evs : list Event) (w : World) : option World :=
  match evs with
  | [] => Some w
  | ev :: rest =>
      match step ev w with
      | Some w' => run rest w'
      | None => None
      end
  end.

End ApiClient.

(* ================================================================== *)
(** ** The optimizers that [PerformanceOptimizer] hands out *)

(** [createComponentOptimizer()]; its [memoize] is also exported as a
    function of its own, with the same body. *)
Module ComponentOptimizer.
Import JS.

(* ------------------------------------------------------------------ *)
(** *** [memoize(fn, keyFn?)] *)

Section Memoize.
(** The memoized function: its result for an argument list, or what it
    throws. *)
Variable R : Type.
Variable fn : list JSValue -> R + Thrown.
Variable keyFn : option (list JSValue -> string).

(** The [Map] of the closure, and the argument lists with which [fn] has
    been called, oldest first. *)
Record Memo : Type := {
  memoCache : JSMap.t R;
  fnCalls : list (list JSValue)
}.

Definition newMemo : Memo := {| memoCache := []; fnCalls := [] |}.

(** [keyFn ? keyFn(...args) : JSON.stringify(args)]; an array always has
    a JSON text. *)
Definition memoKey (args : list JSValue) : string :=
  match keyFn with
  | Some k => k args
  | None =>
      match stringify (JArr args) with
      | Some s => s
      | None => "undefined"
      end
  end.

(** One call of the function that [memoize] returns. *)
Definition memoized (args : list JSValue) (m : Memo) : (R + Thrown) * Memo :=
  let key := memoKey args in
  match JSMap.get key (memoCache m) with
  | Some r => (inl r, m)
  | None =>
      match fn args with
      | inl result =>
          (inl result,
           {| memoCache := JSMap.set key result (memoCache m);
              fnCalls := (fnCalls m ++ [args])%list |})
      | inr e =>
          (inr e, {| memoCache := memoCache m; fnCalls := (fnCalls m ++ [args])%list |})
      end
  end.

(** A sequence of calls, oldest first: what each returns or throws. *)
Fixpoint memoizedAll (calls : list (list JSValue)) (m : Memo)
  : list (R + Thrown) * Memo :=
  match calls with
  | [] => ([], m)
  | args :: rest =>
      let (r, m1) := memoized args m in
      let (rs, m2) := memoizedAll rest m1 in
      (r :: rs, m2)
  end.


End Memoize.

(* ------------------------------------------------------------------ *)
(** *** [createVirtualScroller(items, itemHeight, containerHeight)] *)

Section VirtualScroller.
Context {A : Type}.

Record VisibleItems : Type := {
  visible : list A;      (* the field [items] *)
  startIndex : Z;
  endIndex : Z;
  offsetY : Z
}.

(** [visibleCount]; heights and scroll positions are whole pixels. *)
Definition visibleCount (itemHeight containerHeight : Z) : Z :=
  ceilDiv containerHeight itemHeight.

Definition totalHeight (items : list A) (itemHeight : Z) : Z :=
  Z.of_nat (length items) * itemHeight.

(** [getVisibleItems(scrollTop)]; [None] for an [itemHeight] of zero,
    with which the indices are not finite numbers. *)
Definition getVisibleItems (items : list A) (itemHeight containerHeight scrollTop : Z)
  : option VisibleItems :=
  if itemHeight =? 0 then None
  else
    let startIndex := floorDiv scrollTop itemHeight in
    let endIndex :=
      Z.min (startIndex + visibleCount itemHeight containerHeight)
            (Z.of_nat (length items)) in
    Some {| visible := slice startIndex (Some endIndex) items;
            startIndex := startIndex;
            endIndex := endIndex;
            offsetY := startIndex * itemHeight |}.

End VirtualScroller.
Arguments VisibleItems : clear implicits.

End ComponentOptimizer.

(** [createNetworkOptimizer()] *)
Module NetworkOptimizer.
Import JS.
Import ApiClient (replaceNth).

(* ------------------------------------------------------------------ *)
(** *** [retryRequest(requestFn, maxRetries, delay)] *)

Section RetryRequest.
(** What the call number [i] of [requestFn], counted from 0, comes to. *)
Variable requestFn : nat -> Outcome.
Variable maxRetries : Z.
Variable delay : Z.

(** What [retryRequest] comes to: its outcome, the number of calls of
    [requestFn], and the delays it has waited for, oldest first. *)
Record RetryRun : Type := {
  retryOutcome : Outcome;
  requestCalls : nat;
  retrySleeps : list Z
}.

(** The loop from iteration [i] on, with [remaining] iterations to go. *)
Fixpoint retryLoop (remaining : nat) (i : nat) (lastError : Thrown) (sleeps : list Z)
  : RetryRun :=
  match remaining with
  | O => {| retryOutcome := Rejected lastError; requestCalls := i; retrySleeps := sleeps |}
  | S remaining' =>
      match requestFn i with
      | Resolved v =>
          {| retryOutcome := Resolved v; requestCalls := S i; retrySleeps := sleeps |}
      | Rejected error =>
          retryLoop remaining' (S i) error
            (if Z.of_nat i <? maxRetries - 1
             then (sleeps ++ [delay * 2 ^ Z.of_nat i])%list
             else sleeps)
      end
  end.

(** The error of the last of the [m] calls from call [i] on, given by
    the errors of the calls; [before] when there is none. *)
Definition lastOf (errors : nat -> Thrown) (i m : nat) (before : Thrown) : Thrown :=
  match m with
  | O => before
  | S m' => errors (i + m')%nat
  end.

(** [for (let i = 0; i < maxRetries; i++)] runs [maxRetries] times, and
    not at all for a [maxRetries] below 1. *)
Definition retryRequest : RetryRun :=
  retryLoop (Z.to_nat maxRetries) 0 ThrownUndefined [].

End RetryRequest.

(* ------------------------------------------------------------------ *)
(** *** [deduplicateRequest(requestFn, key)] *)

Section DeduplicateRequest.
Variable key : string.

(** A promise returned by [requestFn]: in flight, settled with its
    [finally] callback still to run, or settled and cleaned up. *)
Inductive Shared : Type :=
| InFlight
| SettledShared (o : Outcome)
| CleanedUp (o : Outcome).

(** The closure: the [Map] of pending requests, the promises [requestFn]
    has returned (one per call of it), and the promise handed to each
    caller, oldest first. *)
Record Dedup : Type := {
  pendingRequests : JSMap.t nat;
  sharedRequests : list Shared;
  handedOut : list nat
}.

Definition newDedup : Dedup :=
  {| pendingRequests := []; sharedRequests := []; handedOut := [] |}.

Inductive DedupEvent : Type :=
| DedupCall                          (* the returned function is called *)
| DedupSettle (p : nat) (o : Outcome) (* the promise of [requestFn] settles *)
| DedupFinally (p : nat).            (* its [finally] callback runs *)

Definition dedupStep (ev : DedupEvent) (s : Dedup) : option Dedup :=
  match ev with
  | DedupCall =>
      match JSMap.get key (pendingRequests s) with
      | Some p =>
          Some {| pendingRequests := pendingRequests s;
                  sharedRequests := sharedRequests s;
                  handedOut := (handedOut s ++ [p])%list |}
      | None =>
          let p := length (sharedRequests s) in
          Some {| pendingRequests := JSMap.set key p (pendingRequests s);
                  sharedRequests := (sharedRequests s ++ [InFlight])%list;
                  handedOut := (handedOut s ++ [p])%list |}
      end
  | DedupSettle p o =>
      match nth_error (sharedRequests s) p with
      | Some InFlight =>
          Some {| pendingRequests := pendingRequests s;
                  sharedRequests := replaceNth p (SettledShared o) (sharedRequests s);
                  handedOut := handedOut s |}
      | _ => None
      end
  | DedupFinally p =>
      match nth_error (sharedRequests s) p with
      | Some (SettledShared o) =>
          Some {| pendingRequests := JSMap.delete key (pendingRequests s);
                  sharedRequests := replaceNth p (CleanedUp o) (sharedRequests s);
                  handedOut := handedOut s |}
      | _ => None
      end
  end.

Fixpoint dedupRun (evs : list DedupEvent) (s : Dedup) : option Dedup :=
  match evs with
  | [] => Some s
  | ev :: rest =>
      match dedupStep ev s with
      | Some s' => dedupRun rest s'
      | None => None
      end
  end.

Definition inFlight (x : Shared) : bool :=
  match x with
  | InFlight => true
  | _ => false
  end.

(** The promises started before the newest are cleaned up, and the [Map]
    holds the newest exactly while it is not. *)
Inductive Tidy : Dedup -> Prop :=
| TidyIdle done handed :
    Forall (fun x => exists o, x = CleanedUp o) done ->
    Tidy {| pendingRequests := []; sharedRequests := done; handedOut := handed |}
| TidyBusy done newest handed :
    Forall (fun x => exists o, x = CleanedUp o) done ->
    (newest = InFlight \/ exists o, newest = SettledShared o) ->
    Tidy {| pendingRequests := [(key, length done)];
            sharedRequests := (done ++ [newest])%list; handedOut := handed |}.

End DeduplicateRequest.

End NetworkOptimizer.

(** [createQueryOptimizer()] *)
Module QueryOptimizer.
Import JS.
Import ApiClient (replaceNth).

(** A call of [queryFn]: running on behalf of the promise of a caller, or
    over. *)
Inductive Query : Type :=
| Running (promise : nat)
| Finished.

(** [resolve(v)] on promise [i]; a promise is resolved once. *)
Definition resolvePromise (i : nat) (v : JSValue) (ps : list (option JSValue))
  : list (option JSValue) :=
  match nth_error ps i with
  | Some None => replaceNth i (Some v) ps
  | _ => ps
  end.

(* ------------------------------------------------------------------ *)
(** *** [debounceQuery(queryFn, delay)] *)

Section DebounceQuery.
Variable delay : Z.

(** The closure of the returned function and the event loop around it:
    the promises handed to the callers ([None] while pending), the timers
    (each carries the promise its callback resolves) and the calls of
    [queryFn], all by creation. *)
Record Debounced : Type := {
  dqClock : Z;
  dqTimeoutId : option nat;
  dqCachedResult : JSValue;
  dqTimers : Timers.t nat;
  dqPromises : list (option JSValue);
  dqQueries : list Query
}.

Definition newDebounced (now : Z) : Debounced :=
  {| dqClock := now; dqTimeoutId := None; dqCachedResult := JNull;
     dqTimers := []; dqPromises := []; dqQueries := [] |}.

Inductive DebouncedEvent : Type :=
| DqCall                              (* the returned function is called *)
| DqFire (id : nat)                   (* a timer fires and calls [queryFn] *)
| DqQueryDone (q : nat) (v : JSValue) (* the promise of [queryFn] resolves *)
| DqQueryFailed (q : nat)             (* the promise of [queryFn] rejects *)
| DqTick (d : Z).

Definition debouncedStep (ev : DebouncedEvent) (s : Debounced) : option Debounced :=
  match ev with
  | DqCall =>
      let timers1 := Timers.clearTimeout (dqTimeoutId s) (dqTimers s) in
      if isTruthy (dqCachedResult s) then
        Some {| dqClock := dqClock s; dqTimeoutId := dqTimeoutId s;
                dqCachedResult := dqCachedResult s; dqTimers := timers1;
                dqPromises := (dqPromises s ++ [Some (dqCachedResult s)])%list;
                dqQueries := dqQueries s |}
      else
        Some {| dqClock := dqClock s; dqTimeoutId := Some (length timers1);
                dqCachedResult := dqCachedResult s;
                dqTimers :=
                  Timers.setTimeout delay (dqClock s) (length (dqPromises s)) timers1;
                dqPromises := (dqPromises s ++ [None])%list;
                dqQueries := dqQueries s |}
  | DqFire id =>
      match Timers.ready id (dqClock s) (dqTimers s) with
      | Some i =>
          Some {| dqClock := dqClock s; dqTimeoutId := dqTimeoutId s;
                  dqCachedResult := dqCachedResult s;
                  dqTimers := Timers.retire id (dqTimers s);
                  dqPromises := dqPromises s;
                  dqQueries := (dqQueries s ++ [Running i])%list |}
      | None => None
      end
  | DqQueryDone q v =>
      match nth_error (dqQueries s) q with
      | Some (Running i) =>
          Some {| dqClock := dqClock s; dqTimeoutId := dqTimeoutId s;
                  dqCachedResult := v; dqTimers := dqTimers s;
                  dqPromises := resolvePromise i v (dqPromises s);
                  dqQueries := replaceNth q Finished (dqQueries s) |}
      | _ => None
      end
  | DqQueryFailed q =>
      match nth_error (dqQueries s) q with
      | Some (Running _) =>
          Some {| dqClock := dqClock s; dqTimeoutId := dqTimeoutId s;
                  dqCachedResult := dqCachedResult s; dqTimers := dqTimers s;
                  dqPromises := dqPromises s;
                  dqQueries := replaceNth q Finished (dqQueries s) |}
      | _ => None
      end
  | DqTick d =>
      if 0 <=? d then
        Some {| dqClock := dqClock s + d; dqTimeoutId := dqTimeoutId s;
                dqCachedResult := dqCachedResult s; dqTimers := dqTimers s;
                dqPromises := dqPromises s; dqQueries := dqQueries s |}
      else None
  end.

Fixpoint debouncedRun (evs : list DebouncedEvent) (s : Debounced) : option Debounced :=
  match evs with
  | [] => Some s
  | ev :: rest =>
      match debouncedStep ev s with
      | Some s' => debouncedRun rest s'
      | None => None
      end
  end.

(** Promise [i] is pending and nothing is left that could resolve it: no
    live timer and no running query works for it. *)
Definition abandoned (i : nat) (s : Debounced) : Prop :=
  nth_error (dqPromises s) i = Some None
  /\ Forall (fun tm => Timers.live tm = true -> Timers.payload tm <> i) (dqTimers s)
  /\ Forall (fun q => q <> Running i) (dqQueries s).


(** The timers and the running queries work for promises that exist. *)
Definition inRange (s : Debounced) : Prop :=
  Forall (fun tm => (Timers.payload tm < length (dqPromises s))%nat) (dqTimers s)
  /\ Forall (fun q => forall i, q = Running i -> (i < length (dqPromises s))%nat)
            (dqQueries s).


End DebounceQuery.

(* ------------------------------------------------------------------ *)
(** *** [throttleQuery(queryFn, limit)] *)

Section ThrottleQuery.
Variable limit : Z.

Record Throttled : Type := {
  tqClock : Z;
  tqLastCall : Z;
  tqCachedResult : JSValue;
  tqPromises : list (option JSValue);
  tqQueries : list Query
}.

Definition newThrottled (now : Z) : Throttled :=
  {| tqClock := now; tqLastCall := 0; tqCachedResult := JNull;
     tqPromises := []; tqQueries := [] |}.

Inductive ThrottledEvent : Type :=
| TqCall
| TqQueryDone (q : nat) (v : JSValue)
| TqQueryFailed (q : nat)
| TqTick (d : Z).

Definition throttledStep (ev : ThrottledEvent) (s : Throttled) : option Throttled :=
  match ev with
  | TqCall =>
      if (tqClock s - tqLastCall s <? limit) && isTruthy (tqCachedResult s) then
        Some {| tqClock := tqClock s; tqLastCall := tqLastCall s;
                tqCachedResult := tqCachedResult s;
                tqPromises := (tqPromises s ++ [Some (tqCachedResult s)])%list;
                tqQueries := tqQueries s |}
      else
        Some {| tqClock := tqClock s; tqLastCall := tqClock s;
                tqCachedResult := tqCachedResult s;
                tqPromises := (tqPromises s ++ [None])%list;
                tqQueries := (tqQueries s ++ [Running (length (tqPromises s))])%list |}
  | TqQueryDone q v =>
      match nth_error (tqQueries s) q with
      | Some (Running i) =>
          Some {| tqClock := tqClock s; tqLastCall := tqLastCall s;
                  tqCachedResult := v;
                  tqPromises := resolvePromise i v (tqPromises s);
                  tqQueries := replaceNth q Finished (tqQueries s) |}
      | _ => None
      end
  | TqQueryFailed q =>
      match nth_error (tqQueries s) q with
      | Some (Running _) =>
          Some {| tqClock := tqClock s; tqLastCall := tqLastCall s;
                  tqCachedResult := tqCachedResult s; tqPromises := tqPromises s;
                  tqQueries := replaceNth q Finished (tqQueries s) |}
      | _ => None
      end
  | TqTick d =>
      if 0 <=? d then
        Some {| tqClock := tqClock s + d; tqLastCall := tqLastCall s;
                tqCachedResult := tqCachedResult s; tqPromises := tqPromises s;
                tqQueries := tqQueries s |}
      else None
  end.

Fixpoint throttledRun (evs : list ThrottledEvent) (s : Throttled) : option Throttled :=
  match evs with
  | [] => Some s
  | ev :: rest =>
      match throttledStep ev s with
      | Some s' => throttledRun rest s'
      | None => None
      end
  end.

(** Every running query works for a pending promise of its own. *)
Definition oneQueryEach (s : Throttled) : Prop :=
  forall q i,
    nth_error (tqQueries s) q = Some (Running i) ->
    nth_error (tqPromises s) i = Some None
    /\ forall q', nth_error (tqQueries s) q' = Some (Running i) -> q' = q.

(** Promise [i] is pending and no running query works for it. *)
Definition stranded (i : nat) (s : Throttled) : Prop :=
  nth_error (tqPromises s) i = Some None
  /\ Forall (fun q => q <> Running i) (tqQueries s).

(** An event that leaves the cached result falsy. *)
Definition keepsFalsy (ev : ThrottledEvent) : Prop :=
  match ev with
  | TqQueryDone _ v => isTruthy v = false
  | _ => True
  end.

Definition isTqCall (ev : ThrottledEvent) : bool :=
  match ev with
  | TqCall => true
  | _ => false
  end.

End ThrottleQuery.

End QueryOptimizer.

(* ================================================================== *)
(** ** The exported utility functions [debounce] and [throttle] *)

Module Utils.
Import JS.

Section Wrappers.
(** The argument lists of the wrapped function, which is taken to return
    and not to throw. *)
Variable Args : Type.

(* ------------------------------------------------------------------ *)
(** *** [debounce(func, wait)] *)



Inductive WrapperEvent : Type :=
| WrapperCall (args : Args)   (* the returned function is called *)
| WrapperFire (id : nat)      (* a timer fires *)
| WrapperTick (d : Z).



(** A burst of calls: each call with the time that passes after it. *)
Definition burst (calls : list (Args * Z)) : list WrapperEvent :=
  flat_map (fun call => [WrapperCall (fst call); WrapperTick (snd call)]) calls.

(* ------------------------------------------------------------------ *)
(** *** [throttle(func, limit)] *)









End Wrappers.
End Utils.

(* ================================================================== *)
(** ** The payments route: validation and pagination of [GET] *)

Module PaymentsRoute.
Import JS.

(** [page < 1 || limit < 1 || limit > 100], for a [page] and a [limit]
    that [parseInt] has read as numbers. *)
Definition invalidPagination (page limit : Z) : bool :=
  (page <? 1) || (limit <? 1) || (limit >? 100).

(** [const offset = (page - 1) * limit]. *)
Definition offsetOf (page limit : Z) : Z := (page - 1) * limit.

(** The rows that [query.range(offset, offset + limit - 1)] asks for, first
    and last, both included, counted from 0. *)
Definition rangeOf (page limit : Z) : Z * Z :=
  (offsetOf page limit, offsetOf page limit + limit - 1).

(** The object [pagination] of the response; [total] is [null] when the
    database has given no count. *)
Record Pagination : Type := {
  page : Z;
  limit : Z;
  total : option Z;
  totalPages : Z;
  hasNext : bool;
  hasPrev : bool
}.

(** [count || 0]. *)
Definition countOrZero (count : option Z) : Z :=
  match count with
  | Some c => c
  | None => 0
  end.

Definition paginationOf (page limit : Z) (count : option Z) : Pagination :=
  let totalPages := ceilDiv (countOrZero count) limit in
  {| page := page;
     limit := limit;
     total := count;
     totalPages := totalPages;
     hasNext := page <? totalPages;
     hasPrev := page >? 1 |}.

End PaymentsRoute.

(* ================================================================== *)
(** ** The resident management page: adding and deleting residents *)

Module ResidentManagement.
Import JS.

Inductive Status : Type := Active | Pending | Graduated | Inactive | OnLeave.

Record EmergencyContact : Type := {
  contactName : string;
  relationship : string;
  contactPhone : string
}.

Record MedicalInfo : Type := {
  allergies : list string;
  medications : list string;
  conditions : list string
}.

Record ProgressNote : Type := {
  noteId : string;
  noteDate : string;
  note : string;
  author : string
}.

Record Resident : Type := {
  id : string;
  firstName : string;
  lastName : string;
  email : string;
  phone : string;
  dateOfBirth : string;
  admissionDate : string;
  room : string;
  program : string;
  status : Status;
  emergencyContact : EmergencyContact;
  medicalInfo : MedicalInfo;
  progressNotes : list ProgressNote
}.

(** The fields of the form "Add New Resident" as [FormData.get] reads
    them. *)
Record AddForm : Type := {
  formFirstName : string;
  formLastName : string;
  formEmail : string;
  formPhone : string;
  formDateOfBirth : string;
  formRoom : string;
  formProgram : string;
  formEmergencyName : string;
  formEmergencyRelationship : string;
  formEmergencyPhone : string
}.

(** The [onSubmit] handler of the form: the list handed to
    [setResidents]; [today] is [new Date().toISOString().split('T')[0]]. *)
Definition addResident (form : AddForm) (today : string) (residents : list Resident)
  : list Resident :=
  (residents ++
   [{| id := numberToString (Z.of_nat (length residents) + 1);
       firstName := formFirstName form;
       lastName := formLastName form;
       email := formEmail form;
       phone := formPhone form;
       dateOfBirth := formDateOfBirth form;
       admissionDate := today;
       room := formRoom form;
       program := formProgram form;
       status := Pending;
       emergencyContact :=
         {| contactName := formEmergencyName form;
            relationship := formEmergencyRelationship form;
            contactPhone := formEmergencyPhone form |};
       medicalInfo := {| allergies := []; medications := []; conditions := [] |};
       progressNotes := [] |}])%list.

(** The [onClick] handler of "Delete" on the resident with identifier
    [rid]: [residents.filter(r => r.id !== resident.id)]. *)
Definition deleteResident (rid : string) (residents : list Resident) : list Resident :=
  filter (fun r => negb (String.eqb (id r) rid)) residents.

(** The identifiers ['1'], ..., ['n'], which the residents loaded at the
    start and those added to them carry. *)
Definition numbered (n : nat) : list string :=
  map (fun i => numberToString (Z.of_nat i)) (seq 1 n).

(** The residents that [loadResidents] puts into the list. *)
Definition mockResidents : list Resident :=
  [ {| id := "1"; firstName := "John"; lastName := "Smith";
       email := "john.smith@email.com"; phone := "(555) 123-4567";
       dateOfBirth := "1985-03-15"; admissionDate := "2024-01-15";
       room := "A-101"; program := "90-Day Recovery Program"; status := Active;
       emergencyContact :=
         {| contactName := "Mary Smith"; relationship := "Spouse";
            contactPhone := "(555) 987-6543" |};
       medicalInfo :=
         {| allergies := ["Penicillin"; "Shellfish"];
            medications := ["Metformin 500mg"; "Lisinopril 10mg"];
            conditions := ["Type 2 Diabetes"; "Hypertension"] |};
       progressNotes :=
         [ {| noteId := "1"; noteDate := "2024-01-20";
              note := "Patient showing good progress in group therapy sessions. Participating actively.";
              author := "Dr. Johnson" |};
           {| noteId := "2"; noteDate := "2024-01-18";
              note := "Completed first week orientation successfully. No issues reported.";
              author := "Nurse Davis" |} ] |};
    {| id := "2"; firstName := "Sarah"; lastName := "Johnson";
       email := "sarah.j@email.com"; phone := "(555) 234-5678";
       dateOfBirth := "1992-07-22"; admissionDate := "2024-02-10";
       room := "B-203"; program := "60-Day Intensive Program"; status := Active;
       emergencyContact :=
         {| contactName := "Robert Johnson"; relationship := "Father";
            contactPhone := "(555) 876-5432" |};
       medicalInfo :=
         {| allergies := ["Latex"]; medications := ["Sertraline 50mg"];
            conditions := ["Depression"; "Anxiety"] |};
       progressNotes :=
         [ {| noteId := "3"; noteDate := "2024-02-15";
              note := "Excellent engagement in individual counseling. Working on coping strategies.";
              author := "Counselor Williams" |} ] |};
    {| id := "3"; firstName := "Michael"; lastName := "Brown";
       email := "mike.brown@email.com"; phone := "(555) 345-6789";
       dateOfBirth := "1980-11-08"; admissionDate := "2024-03-01";
       room := "A-105"; program := "30-Day Detox Program"; status := Pending;
       emergencyContact :=
         {| contactName := "Lisa Brown"; relationship := "Sister";
            contactPhone := "(555) 765-4321" |};
       medicalInfo :=
         {| allergies := []; medications := [];
            conditions := ["Substance Use Disorder"] |};
       progressNotes :=
         [ {| noteId := "4"; noteDate := "2024-03-02";
              note := "Initial assessment completed. Starting medical detox protocol.";
              author := "Dr. Martinez" |} ] |} ].

(** A form filled in for a new resident. *)
Definition sampleForm : AddForm :=
  {| formFirstName := "Ann"; formLastName := "Lee"; formEmail := "ann.lee@email.com";
     formPhone := "(555) 000-1111"; formDateOfBirth := "1990-01-01";
     formRoom := "C-301"; formProgram := "30-Day Detox Program";
     formEmergencyName := "Tom Lee"; formEmergencyRelationship := "Brother";
     formEmergencyPhone := "(555) 000-2222" |}.

End ResidentManagement.

(* ================================================================== *)
(** ** The analytics route: [GET] and its use of the cache *)

Module AnalyticsRoute.
Import JS.

(** What the route reads from the query string: [searchParams.get]
    gives [null], here [None], for a parameter that is absent. *)
Record Query : Type := {
  periodParam : option string;
  typeParam : option string
}.

(** [searchParams.get(name) || fallback]: the fallback also stands in for
    an empty value. *)
Definition paramOr (x : option string) (fallback : string) : string :=
  match x with
  | Some s => if String.eqb s EmptyString then fallback else s
  | None => fallback
  end.

Definition periodOf (q : Query) : string := paramOr (periodParam q) "30".
Definition typeOf (q : Query) : string := paramOr (typeParam q) "all".

(** [`analytics-${period}-${type}`]. *)
Definition cacheKey (q : Query) : string :=
  "analytics-" ++ periodOf q ++ "-" ++ typeOf q.

(** What the database and the calendar give one run of the handler: for
    each of the five parts of the analytics the object that the handler
    builds from the rows, [None] when the query fails or gives no rows
    object; the text of [startDate.toISOString()], [None] when the date is
    invalid and the call throws; the text of [endDate.toISOString()]. *)
Record Sources : Type := {
  residentsPart : option JSValue;
  financialPart : option JSValue;
  operationsPart : option JSValue;
  maintenancePart : option JSValue;
  inventoryPart : option JSValue;
  startDateText : option string;
  endDateText : string
}.

(** [type === 'all' || type === name]. *)
Definition selects (type name : string) : bool :=
  String.eqb type "all" || String.eqb type name.

(** [analytics = { ...analytics, name: part }] when the part is there. *)
Definition withPart (name : string) (part : option JSValue)
           (analytics : list (string * JSValue)) : list (string * JSValue) :=
  match part with
  | Some v => JSMap.set name v analytics
  | None => analytics
  end.

(** The object [analytics] when the handler gets as far as caching it;
    [None] when a query that needs [startDate.toISOString()] is reached
    with an invalid start date. *)
Definition analyticsOf (type : string) (src : Sources)
  : option (list (string * JSValue)) :=
  let a1 := if selects type "residents" then withPart "residents" (residentsPart src) []
            else [] in
  if (selects type "financial" || selects type "operations")
     && match startDateText src with Some _ => false | None => true end
  then None
  else
    let a2 := if selects type "financial" then withPart "financial" (financialPart src) a1
              else a1 in
    let a3 := if selects type "operations"
              then withPart "maintenance" (maintenancePart src)
                     (withPart "operations" (operationsPart src) a2)
              else a2 in
    let a4 := if selects type "inventory" then withPart "inventory" (inventoryPart src) a3
              else a3 in
    Some a4.

Record Response : Type := {
  status : Z;
  responseBody : JSValue
}.

Definition internalError : Response :=
  {| status := 500; responseBody := JObj [("error", JStr "Internal server error")] |}.

(** [{ period, startDate, endDate, ...analytics }]. *)
Definition freshBody (period start stop : string) (analytics : list (string * JSValue))
  : JSValue :=
  JObj (fold_left (fun acc kv => JSMap.set (fst kv) (snd kv) acc) analytics
          [("period", JStr period); ("startDate", JStr start); ("endDate", JStr stop)]).

(** One run of [GET]: the cache is read at clock value [now] and, after
    the queries, written at [later]. *)
Definition GET (q : Query) (src : Sources) (now later : Z)
           (c : PerformanceOptimizer.Cache) : Response * PerformanceOptimizer.Cache :=
  let lookup := PerformanceOptimizer.getCache PerformanceOptimizer.config (cacheKey q) now c in
  if isTruthy (fst lookup) then
    ({| status := 200; responseBody := fst lookup |}, snd lookup)
  else
    match analyticsOf (typeOf q) src with
    | None => (internalError, snd lookup)
    | Some analytics =>
        let c1 := PerformanceOptimizer.setCache PerformanceOptimizer.config (cacheKey q)
                    (JObj analytics) (Some (10 * 60 * 1000)) later (snd lookup) in
        match startDateText src with
        | Some start =>
            ({| status := 200;
                responseBody := freshBody (periodOf q) start (endDateText src) analytics |},
             c1)
        | None => (internalError, c1)
        end
    end.

(** The names under which [analytics] can hold a part. *)
Definition partNames : list string :=
  ["residents"; "financial"; "operations"; "maintenance"; "inventory"].

(** The property of an object, as [body.name] reads it. *)
Definition property (name : string) (v : JSValue) : option JSValue :=
  match v with
  | JObj props => JSMap.get name props
  | _ => None
  end.

End AnalyticsRoute.

(* ================================================================== *)
(** ** Concrete inputs *)

Module Scenario.
Import JS PerformanceOptimizer ApiClient.

(** Distinct cache keys [k0], [k1], ... *)
(** [apiClient.post('/residents', {a: 1, b: 2})] and the same call with
    the two properties written in the other order. *)
Definition bodyAB : JSValue := JObj [("a", JNum 1); ("b", JNum 2)].

Definition getResident1Config : ApiRequestConfig :=
  {| method := Some GET; body := JUndefined; cache := Some true;
     cacheTTL := None; retries := None; timeout := None |}.

(** [apiClient.getResident(1)]: [this.get(`/residents/${id}`, { cache: true })]. *)
Definition getResident1 : Event := Call "/residents/1" getResident1Config.

(** A gateway answers 502 and names the upstream failure in the status
    line: [HTTP/1.1 502 Upstream HTTP 404]. *)
Definition badGateway : FetchResult :=
  Responds 502 "Upstream HTTP 404" (inl JNull).

(** [{ id: 1 }] *)
Definition resident1 : JSValue := JObj [("id", JNum 1)].

Definition keyOf (i : nat) : string := "k" ++ numberToString (Z.of_nat i).

Definition burstKeys (n : nat) : list string := map keyOf (seq 0 n).

(** [setCache(key, d)] for every key of [keys], all at the clock value
    [now]. *)
Definition setAll (keys : list string) (d : JSValue) (now : Z) (c : Cache) : Cache :=
  fold_left (fun acc key => setCache config key d None now acc) keys c.

End Scenario.

(* ================================================================== *)
(** ** Facts about [Map] *)

Module MapFacts.
Section Facts.
Context {V : Type}.
Implicit Types (m : JSMap.t V) (k : string) (v : V).

Lemma get_delete_same k m : JSMap.get k (JSMap.delete k m) = None.
Proof.
  induction m as [|[k' v'] m IH]; simpl; [reflexivity|].
  destruct (String.eqb k' k) eqn:E; simpl; [exact IH|].
  rewrite E. exact IH.
Qed.

Lemma get_delete_other k k' m :
  k' <> k -> JSMap.get k' (JSMap.delete k m) = JSMap.get k' m.
Proof.
  intros Hne. induction m as [|[k0 v0] m IH]; simpl; [reflexivity|].
  destruct (String.eqb k0 k) eqn:E; simpl.
  - apply String.eqb_eq in E. subst k0.
    destruct (String.eqb k k') eqn:E'; [|exact IH].
    apply String.eqb_eq in E'. congruence.
  - rewrite IH. reflexivity.
Qed.

Lemma get_set_same k v m : JSMap.get k (JSMap.set k v m) = Some v.
Proof.
  induction m as [|[k' v'] m IH]; simpl.
  - rewrite String.eqb_refl. reflexivity.
  - destruct (String.eqb k' k) eqn:E; simpl; rewrite E; [reflexivity|exact IH].
Qed.

Lemma get_set_other k k' v m :
  k' <> k -> JSMap.get k' (JSMap.set k v m) = JSMap.get k' m.
Proof.
  intros Hne. induction m as [|[k0 v0] m IH]; simpl.
  - destruct (String.eqb k k') eqn:E; [|reflexivity].
    apply String.eqb_eq in E. congruence.
  - destruct (String.eqb k0 k) eqn:E; simpl.
    + apply String.eqb_eq in E. subst k0.
      destruct (String.eqb k k') eqn:E'; [|reflexivity].
      apply String.eqb_eq in E'. congruence.
    + rewrite IH. reflexivity.
Qed.

Lemma get_filter_some (f : string * V -> bool) k v m :
  JSMap.get k (filter f m) = Some v -> In (k, v) m /\ f (k, v) = true.
Proof.
  induction m as [|[k0 v0] m IH]; simpl; [discriminate|].
  destruct (f (k0, v0)) eqn:Ef; simpl.
  - destruct (String.eqb k0 k) eqn:E.
    + apply String.eqb_eq in E. subst k0. intros [= ->]. auto.
    + intros H. destruct (IH H). auto.
  - intros H. destruct (IH H). auto.
Qed.

Lemma get_in k v m : JSMap.get k m = Some v -> In (k, v) m.
Proof.
  induction m as [|[k0 v0] m IH]; simpl; [discriminate|].
  destruct (String.eqb k0 k) eqn:E.
  - apply String.eqb_eq in E. subst k0. intros [= ->]. auto.
  - auto.
Qed.

Lemma get_none_not_in k m : JSMap.get k m = None -> ~ In k (JSMap.keys m).
Proof.
  induction m as [|[k0 v0] m IH]; simpl; [tauto|].
  destruct (String.eqb k0 k) eqn:E; [discriminate|].
  apply String.eqb_neq in E. intros H [H'|H']; [congruence|]. exact (IH H H').
Qed.

Lemma set_fresh k v m : JSMap.get k m = None -> JSMap.set k v m = (m ++ [(k, v)])%list.
Proof.
  induction m as [|[k0 v0] m IH]; simpl; [reflexivity|].
  destruct (String.eqb k0 k) eqn:E; [discriminate|].
  intros H. rewrite (IH H). reflexivity.
Qed.

Lemma delete_absent k m : ~ In k (JSMap.keys m) -> JSMap.delete k m = m.
Proof.
  induction m as [|[k0 v0] m IH]; simpl; [reflexivity|].
  intros H. destruct (String.eqb k0 k) eqn:E; simpl.
  - apply String.eqb_eq in E. tauto.
  - f_equal. apply IH. tauto.
Qed.

Lemma keys_filter_incl (f : string * V -> bool) k m :
  In k (JSMap.keys (filter f m)) -> In k (JSMap.keys m).
Proof.
  unfold JSMap.keys. rewrite !in_map_iff.
  intros [kv [Hk Hin]]. apply filter_In in Hin. exists kv. tauto.
Qed.

Lemma NoDup_keys_filter (f : string * V -> bool) m :
  NoDup (JSMap.keys m) -> NoDup (JSMap.keys (filter f m)).
Proof.
  induction m as [|[k0 v0] m IH]; simpl; [auto|].
  intros H. inversion H as [|? ? Hnotin Hnodup]; subst.
  destruct (f (k0, v0)); simpl; [|auto].
  constructor; [|auto].
  intros Hin. apply Hnotin. eapply keys_filter_incl. exact Hin.
Qed.

Lemma length_filter_le (f : string * V -> bool) m :
  (length (filter f m) <= length m)%nat.
Proof.
  induction m as [|kv m IH]; simpl; [lia|].
  destruct (f kv); simpl; lia.
Qed.

Lemma length_delete_present k v m :
  NoDup (JSMap.keys m) -> In (k, v) m ->
  S (length (JSMap.delete k m)) = length m.
Proof.
  induction m as [|[k0 v0] m IH]; simpl; [tauto|].
  intros H Hin. inversion H as [|? ? Hnotin Hnodup]; subst.
  destruct (String.eqb k0 k) eqn:E; simpl.
  - apply String.eqb_eq in E. subst k0.
    fold (JSMap.delete k m). rewrite (delete_absent _ _ Hnotin). reflexivity.
  - fold (JSMap.delete k m). f_equal. apply IH; [exact Hnodup|].
    destruct Hin as [Heq|Hin]; [|exact Hin].
    inversion Heq; subst. rewrite String.eqb_refl in E. discriminate.
Qed.

Lemma length_set_le k v m : (length (JSMap.set k v m) <= S (length m))%nat.
Proof.
  induction m as [|[k0 v0] m IH]; simpl; [lia|].
  destruct (String.eqb k0 k); simpl; lia.
Qed.

Lemma in_set k k' v v' m :
  In (k', v') (JSMap.set k v m) -> (k' = k /\ v' = v) \/ In (k', v') m.
Proof.
  induction m as [|[k0 v0] m IH]; simpl.
  - intros [[= <- <-]|[]]. auto.
  - destruct (String.eqb k0 k) eqn:E; simpl.
    + apply String.eqb_eq in E. subst k0.
      intros [[= <- <-]|H]; auto.
    + intros [H|H]; auto. destruct (IH H); auto.
Qed.

Lemma in_delete k k' v' m : In (k', v') (JSMap.delete k m) -> In (k', v') m.
Proof. unfold JSMap.delete. intros H. apply filter_In in H. tauto. Qed.

Lemma NoDup_in_get k v m :
  NoDup (JSMap.keys m) -> In (k, v) m -> JSMap.get k m = Some v.
Proof.
  induction m as [|[k0 v0] m IH]; simpl; [tauto|].
  intros H Hin. inversion H as [|? ? Hnotin Hnodup]; subst.
  destruct Hin as [[= -> ->]|Hin].
  - rewrite String.eqb_refl. reflexivity.
  - destruct (String.eqb k0 k) eqn:E; [|auto].
    apply String.eqb_eq in E. subst k0. exfalso. apply Hnotin.
    unfold JSMap.keys. apply in_map_iff. exists (k, v). auto.
Qed.

Lemma keys_set k v m :
  JSMap.keys (JSMap.set k v m) =
  match JSMap.get k m with
  | Some _ => JSMap.keys m
  | None => (JSMap.keys m ++ [k])%list
  end.
Proof.
  induction m as [|[k0 v0] m IH]; simpl; [reflexivity|].
  destruct (String.eqb k0 k) eqn:E; simpl; [reflexivity|].
  rewrite IH. destruct (JSMap.get k m); reflexivity.
Qed.

Lemma NoDup_keys_set k v m :
  NoDup (JSMap.keys m) -> NoDup (JSMap.keys (JSMap.set k v m)).
Proof.
  intros H. rewrite keys_set.
  destruct (JSMap.get k m) eqn:E; [exact H|].
  apply NoDup_app; [exact H|repeat constructor; simpl; tauto|].
  intros x Hin [<-|[]]. exact (get_none_not_in _ _ E Hin).
Qed.

Lemma NoDup_keys_delete k m :
  NoDup (JSMap.keys m) -> NoDup (JSMap.keys (JSMap.delete k m)).
Proof. apply NoDup_keys_filter. Qed.
End Facts.
End MapFacts.

(* ================================================================== *)
(** ** The cache: freshness, capacity, clearing *)

Module CacheFacts.
Import JS PerformanceOptimizer MapFacts.

Section WithConfig.
Variable cfg : CacheConfig.

Lemma getCache_absent key now c :
  JSMap.get (keyPrefix cfg ++ key) c = None -> getCache cfg key now c = (JNull, c).
Proof. unfold getCache. intros ->. reflexivity. Qed.

Lemma getCache_live key now c item :
  JSMap.get (keyPrefix cfg ++ key) c = Some item ->
  now - timestamp item <= itemTtl item ->
  getCache cfg key now c = (data item, c).
Proof.
  unfold getCache. intros -> Hlive.
  destruct (now - timestamp item >? itemTtl item) eqn:E; [|reflexivity].
  apply Z.gtb_lt in E. lia.
Qed.

Lemma getCache_expired key now c item :
  JSMap.get (keyPrefix cfg ++ key) c = Some item ->
  itemTtl item < now - timestamp item ->
  getCache cfg key now c = (JNull, JSMap.delete (keyPrefix cfg ++ key) c).
Proof.
  unfold getCache. intros -> Hexp.
  destruct (now - timestamp item >? itemTtl item) eqn:E; [reflexivity|].
  rewrite Z.gtb_ltb in E. apply Z.ltb_ge in E. lia.
Qed.

Lemma setCache_stores key d ttl' now c :
  JSMap.get (keyPrefix cfg ++ key) (setCache cfg key d ttl' now c) =
  Some {| data := d; timestamp := now;
          itemTtl := match ttl' with
                     | Some t => if t =? 0 then ttl cfg else t
                     | None => ttl cfg
                     end |}.
Proof. unfold setCache. apply get_set_same. Qed.

(** C5: for an entry stored under the key, [getCache] hands out the stored
    value and leaves the entry where it is if and only if the time since it
    was stored is at most its TTL; past the TTL the lookup answers [null],
    the entry is gone from the storage, and every later lookup of the key
    finds nothing. *)
Theorem getCache_fresh_iff key now c item :
  JSMap.get (keyPrefix cfg ++ key) c = Some item ->
  let r := getCache cfg key now c in
  ((fst r = data item /\ JSMap.get (keyPrefix cfg ++ key) (snd r) = Some item)
     <-> now - timestamp item <= itemTtl item)
  /\ (data item <> JNull ->
      (fst r = data item <-> now - timestamp item <= itemTtl item))
  /\ (now - timestamp item <= itemTtl item -> r = (data item, c))
  /\ (itemTtl item < now - timestamp item ->
      fst r = JNull
      /\ JSMap.get (keyPrefix cfg ++ key) (snd r) = None
      /\ forall now', getCache cfg key now' (snd r) = (JNull, snd r)).
Proof.
  intros Hget r. subst r.
  destruct (Z_le_gt_dec (now - timestamp item) (itemTtl item)) as [Hlive|Hexp].
  - rewrite (getCache_live _ _ _ _ Hget Hlive). simpl.
    repeat split; auto; lia.
  - assert (Hexp' : itemTtl item < now - timestamp item) by lia.
    rewrite (getCache_expired _ _ _ _ Hget Hexp'). simpl.
    rewrite get_delete_same.
    repeat split; try lia; try discriminate; auto.
    + intros [_ H]. discriminate.
    + intros Heq. congruence.
    + intros now'. apply getCache_absent. apply get_delete_same.
Qed.

(** *** Lookups that fail the [if (cached)] test *)

Lemma noLiveTruthy_getCache key now c :
  noLiveTruthy cfg key now c -> isTruthy (fst (getCache cfg key now c)) = false.
Proof.
  intros H. unfold getCache.
  destruct (JSMap.get (keyPrefix cfg ++ key) c) as [item|] eqn:E; [|reflexivity].
  destruct (now - timestamp item >? itemTtl item) eqn:Et; [reflexivity|].
  simpl. destruct (H item (get_in _ _ _ E)) as [Hf|Hexp]; [exact Hf|].
  rewrite Z.gtb_ltb in Et. apply Z.ltb_ge in Et. lia.
Qed.

Lemma noLiveTruthy_later key now now' c :
  now <= now' -> noLiveTruthy cfg key now c -> noLiveTruthy cfg key now' c.
Proof.
  intros Hle H item Hin. destruct (H item Hin); [left; assumption|right; lia].
Qed.

Lemma noLiveTruthy_incl key now c c' :
  incl c' c -> noLiveTruthy cfg key now c -> noLiveTruthy cfg key now c'.
Proof. intros Hincl H item Hin. apply H. apply Hincl. exact Hin. Qed.

Lemma getCache_incl key now c : incl (snd (getCache cfg key now c)) c.
Proof.
  unfold getCache.
  destruct (JSMap.get (keyPrefix cfg ++ key) c) as [item|]; [|apply incl_refl].
  destruct (now - timestamp item >? itemTtl item); [|apply incl_refl].
  intros [k v] Hin. exact (in_delete _ _ _ _ Hin).
Qed.

Lemma evictOldest_incl now c : incl (evictOldest now c) c.
Proof.
  unfold evictOldest. destruct (fst (scanOldest c None now)) as [k|]; [|apply incl_refl].
  destruct (String.eqb k EmptyString); [apply incl_refl|].
  intros [k' v] Hin. exact (in_delete _ _ _ _ Hin).
Qed.

Lemma cleanupCache_incl now c : incl (cleanupCache now c) c.
Proof. unfold cleanupCache. apply incl_filter. Qed.

(** Storing under another key gives no hit under [key]. *)
Lemma noLiveTruthy_setCache key key' d ttl' now now' c :
  keyPrefix cfg ++ key' <> keyPrefix cfg ++ key ->
  noLiveTruthy cfg key now c ->
  noLiveTruthy cfg key now (setCache cfg key' d ttl' now' c).
Proof.
  intros Hne H item Hin. unfold setCache in Hin.
  apply in_set in Hin. destruct Hin as [[Heq _]|Hin]; [congruence|].
  apply (H item).
  destruct (JSMap.size (cleanupCache now' c) >=? maxSize cfg).
  - apply (cleanupCache_incl now'), (evictOldest_incl now'). exact Hin.
  - apply (cleanupCache_incl now'). exact Hin.
Qed.

Lemma getCache_noLiveTruthy key now c :
  NoDup (JSMap.keys c) ->
  isTruthy (fst (getCache cfg key now c)) = false -> noLiveTruthy cfg key now c.
Proof.
  intros Hnd H item Hin. pose proof (NoDup_in_get _ _ _ Hnd Hin) as Hget.
  unfold getCache in H. rewrite Hget in H.
  destruct (now - timestamp item >? itemTtl item) eqn:Et.
  - right. apply Z.gtb_lt in Et. lia.
  - left. exact H.
Qed.

Lemma NoDup_getCache key now c :
  NoDup (JSMap.keys c) -> NoDup (JSMap.keys (snd (getCache cfg key now c))).
Proof.
  intros H. unfold getCache.
  destruct (JSMap.get (keyPrefix cfg ++ key) c) as [item|]; [|exact H].
  destruct (now - timestamp item >? itemTtl item); [|exact H].
  apply NoDup_keys_delete. exact H.
Qed.

Lemma NoDup_setCache key d ttl' now c :
  NoDup (JSMap.keys c) -> NoDup (JSMap.keys (setCache cfg key d ttl' now c)).
Proof.
  intros H. unfold setCache. apply NoDup_keys_set.
  assert (H1 : NoDup (JSMap.keys (cleanupCache now c))) by (apply NoDup_keys_filter; exact H).
  destruct (JSMap.size (cleanupCache now c) >=? maxSize cfg); [|exact H1].
  unfold evictOldest.
  destruct (fst (scanOldest (cleanupCache now c) None now)) as [k|]; [|exact H1].
  destruct (String.eqb k EmptyString); [exact H1|].
  apply NoDup_keys_delete. exact H1.
Qed.


(** *** Capacity *)

Lemma scanOldest_none_recent c oldestTime :
  Forall (fun kv => oldestTime <= timestamp (snd kv)) c ->
  scanOldest c None oldestTime = (None, oldestTime).
Proof.
  induction 1 as [|[k item] c Hk _ IH]; simpl; [reflexivity|].
  simpl in Hk. destruct (timestamp item <? oldestTime) eqn:E; [|exact IH].
  apply Z.ltb_lt in E. lia.
Qed.

(** Nothing is evicted when no entry is older than the current clock
    value. *)
Lemma evictOldest_same_instant now c :
  Forall (fun kv => now <= timestamp (snd kv)) c -> evictOldest now c = c.
Proof.
  intros H. unfold evictOldest. rewrite (scanOldest_none_recent _ _ H). reflexivity.
Qed.

Lemma cleanupCache_all_live now c :
  Forall (fun kv => now - timestamp (snd kv) <= itemTtl (snd kv)) c ->
  cleanupCache now c = c.
Proof.
  induction 1 as [|[k item] c Hk _ IH]; simpl; [reflexivity|].
  simpl in Hk. unfold expired at 1. simpl.
  destruct (now - timestamp item >? itemTtl item) eqn:E; simpl.
  - apply Z.gtb_lt in E. lia.
  - fold (cleanupCache now c). rewrite IH. reflexivity.
Qed.

(** A new key stored at the instant at which all present entries were
    stored makes the cache one entry larger, whatever [maxSize] is. *)
Lemma setCache_same_instant_grows key d ttl' now c :
  Forall (fun kv => timestamp (snd kv) = now /\ 0 <= itemTtl (snd kv)) c ->
  JSMap.get (keyPrefix cfg ++ key) c = None ->
  exists item,
    setCache cfg key d ttl' now c = (c ++ [((keyPrefix cfg ++ key)%string, item)])%list
    /\ timestamp item = now.
Proof.
  intros Hall Hfresh. unfold setCache.
  rewrite cleanupCache_all_live.
  2:{ eapply Forall_impl; [|exact Hall]. intros kv [-> H]. lia. }
  rewrite evictOldest_same_instant.
  2:{ eapply Forall_impl; [|exact Hall]. intros kv [-> H]. lia. }
  eexists. split.
  - destruct (JSMap.size c >=? maxSize cfg); apply set_fresh; exact Hfresh.
  - reflexivity.
Qed.

(** The loop of [evictOldest] ends on the first entry among those with
    the smallest timestamp, when that timestamp is below the starting
    value, and on the starting value otherwise. *)
Lemma scanOldest_spec c : forall oldestKey oldestTime,
  let r := scanOldest c oldestKey oldestTime in
  Forall (fun kv => snd r <= timestamp (snd kv)) c
  /\ ((r = (oldestKey, oldestTime))
      \/ (exists key item,
            fst r = Some key /\ In (key, item) c
            /\ timestamp item = snd r /\ snd r < oldestTime)).
Proof.
  induction c as [|[k item] c IH]; intros ok ot; simpl.
  - split; [constructor|left; reflexivity].
  - destruct (timestamp item <? ot) eqn:E.
    + apply Z.ltb_lt in E.
      destruct (IH (Some k) (timestamp item)) as [Hall Hcase].
      split.
      * constructor; [|exact Hall]. simpl.
        destruct Hcase as [->|(k' & i' & _ & _ & _ & Hlt)]; simpl; lia.
      * right. destruct Hcase as [Heq|(k' & i' & Hk & Hin & Hts & Hlt)].
        -- exists k, item. rewrite Heq. simpl. auto.
        -- exists k', i'. repeat split; auto. lia.
    + apply Z.ltb_ge in E.
      destruct (IH ok ot) as [Hall Hcase].
      split.
      * constructor; [|exact Hall]. simpl.
        destruct Hcase as [->|(k' & i' & _ & _ & _ & Hlt)]; simpl; lia.
      * destruct Hcase as [Heq|(k' & i' & Hk & Hin & Hts & Hlt)]; [left; exact Heq|].
        right. exists k', i'. auto.
Qed.

(** With an entry older than the clock, the loop of [evictOldest] ends on
    an entry of smallest [timestamp], which is deleted. *)
Lemma evictOldest_deletes now c :
  Forall (fun kv => fst kv <> EmptyString) c ->
  Exists (fun kv => timestamp (snd kv) < now) c ->
  exists key item,
    In (key, item) c
    /\ Forall (fun kv => timestamp item <= timestamp (snd kv)) c
    /\ evictOldest now c = JSMap.delete key c.
Proof.
  intros Hkeys Hold.
  destruct (scanOldest_spec c None now) as [Hall Hcase].
  unfold evictOldest.
  destruct Hcase as [Heq|(k & item & Hk & Hin & Hts & Hlt)].
  - exfalso. rewrite Heq in Hall. simpl in Hall.
    apply Exists_exists in Hold. destruct Hold as [kv [Hin Hlt]].
    rewrite Forall_forall in Hall. specialize (Hall kv Hin). lia.
  - exists k, item. rewrite Hk. rewrite Hts. repeat split; auto.
    destruct (String.eqb k EmptyString) eqn:E; [|reflexivity].
    apply String.eqb_eq in E. rewrite Forall_forall in Hkeys.
    specialize (Hkeys _ Hin). simpl in Hkeys. congruence.
Qed.

(** X4: when some entry was stored before the current clock value,
    [evictOldest] deletes an entry of smallest [timestamp]. *)
Lemma evictOldest_removes_oldest now c :
  Forall (fun kv => fst kv <> EmptyString) c ->
  Exists (fun kv => timestamp (snd kv) < now) c ->
  exists key item,
    In (key, item) c
    /\ Forall (fun kv => timestamp item <= timestamp (snd kv)) c
    /\ evictOldest now c = JSMap.delete key c.
Proof.
  exact (evictOldest_deletes now c).
Qed.

(** X3: the bound holds across one [setCache] when every entry present was
    stored before the current clock value. *)
Lemma setCache_bound_clock_advanced key d ttl' now c :
  1 <= maxSize cfg ->
  NoDup (JSMap.keys c) ->
  Forall (fun kv => fst kv <> EmptyString /\ timestamp (snd kv) < now) c ->
  JSMap.size c <= maxSize cfg ->
  JSMap.size (setCache cfg key d ttl' now c) <= maxSize cfg.
Proof.
  intros Hmax Hnd Hall Hsize. unfold setCache.
  set (c1 := cleanupCache now c).
  assert (Hnd1 : NoDup (JSMap.keys c1)) by (apply NoDup_keys_filter; exact Hnd).
  assert (Hall1 : Forall (fun kv => fst kv <> EmptyString /\ timestamp (snd kv) < now) c1).
  { rewrite Forall_forall in *. intros kv Hin. apply Hall.
    unfold c1, cleanupCache in Hin. apply filter_In in Hin. tauto. }
  assert (Hlen1 : JSMap.size c1 <= JSMap.size c).
  { unfold JSMap.size, c1, cleanupCache.
    pose proof (length_filter_le (fun kv => negb (expired now (snd kv))) c). lia. }
  pose proof (length_set_le (V := CacheItem)) as Hset.
  destruct (JSMap.size c1 >=? maxSize cfg) eqn:E.
  - destruct c1 as [|kv0 c1'] eqn:Ec1.
    { unfold JSMap.size in E. simpl in E. apply Z.geb_le in E. lia. }
    destruct (evictOldest_deletes now (kv0 :: c1')) as (k & item & Hin & _ & Hev).
    + eapply Forall_impl; [|exact Hall1]. intros kv [H _]. exact H.
    + apply Exists_cons_hd. inversion Hall1 as [|? ? Hhd _]; subst.
      exact (proj2 Hhd).
    + rewrite Hev.
      pose proof (length_delete_present _ _ _ Hnd1 Hin) as Hdel.
      match goal with |- JSMap.size (JSMap.set ?a ?b ?m) <= _ =>
        specialize (Hset a b m) end.
      unfold JSMap.size in *. lia.
  - rewrite Z.geb_leb in E. apply Z.leb_gt in E.
    match goal with |- JSMap.size (JSMap.set ?a ?b ?m) <= _ =>
      specialize (Hset a b m) end.
    unfold JSMap.size in *. lia.
Qed.
End WithConfig.

Lemma getCache_fresh_iff_witness :
  getCache config "k" 5 [("fh_k", {| data := JNum 7; timestamp := 0; itemTtl := 5 |})]
  = (JNum 7, [("fh_k", {| data := JNum 7; timestamp := 0; itemTtl := 5 |})])
  /\ fst (getCache config "k" 6
            [("fh_k", {| data := JNum 7; timestamp := 0; itemTtl := 5 |})]) = JNull.
Proof.
  split.
  - apply (getCache_fresh_iff config "k" 5
             [("fh_k", {| data := JNum 7; timestamp := 0; itemTtl := 5 |})]
             {| data := JNum 7; timestamp := 0; itemTtl := 5 |} eq_refl).
    cbv. discriminate.
  - apply (getCache_fresh_iff config "k" 6
             [("fh_k", {| data := JNum 7; timestamp := 0; itemTtl := 5 |})]
             {| data := JNum 7; timestamp := 0; itemTtl := 5 |} eq_refl).
    reflexivity.
Defined.

Lemma evictOldest_removes_oldest_witness :
  exists key item,
    In (key, item)
       [("fh_a", {| data := JNull; timestamp := 5; itemTtl := 9 |});
        ("fh_b", {| data := JNull; timestamp := 3; itemTtl := 9 |})]
    /\ timestamp item = 3
    /\ evictOldest 7
         [("fh_a", {| data := JNull; timestamp := 5; itemTtl := 9 |});
          ("fh_b", {| data := JNull; timestamp := 3; itemTtl := 9 |})]
       = [("fh_a", {| data := JNull; timestamp := 5; itemTtl := 9 |})].
Proof.
  destruct (evictOldest_removes_oldest 7
              [("fh_a", {| data := JNull; timestamp := 5; itemTtl := 9 |});
               ("fh_b", {| data := JNull; timestamp := 3; itemTtl := 9 |})])
    as (key & item & Hin & Hmin & Hev).
  - repeat constructor; discriminate.
  - apply Exists_cons_hd. reflexivity.
  - exists key, item. split; [exact Hin|]. split; [|reflexivity].
    destruct Hin as [[= <- <-]|[[= <- <-]|[]]]; [|reflexivity].
    exfalso. inversion Hmin as [|? ? _ Hrest]; subst.
    inversion Hrest as [|? ? Hb _]; subst. simpl in Hb. lia.
Defined.

Lemma setCache_bound_clock_advanced_witness :
  JSMap.size
    (setCache {| maxSize := 1; ttl := 50; keyPrefix := "fh_" |} "b" JNull None 7
       [("fh_a", {| data := JNull; timestamp := 5; itemTtl := 9 |})]) <= 1.
Proof.
  apply (setCache_bound_clock_advanced
           {| maxSize := 1; ttl := 50; keyPrefix := "fh_" |} "b" JNull None 7
           [("fh_a", {| data := JNull; timestamp := 5; itemTtl := 9 |})]).
  - simpl. lia.
  - constructor; [simpl; tauto|constructor].
  - constructor; [split; [discriminate|reflexivity]|constructor].
  - cbv. discriminate.
Defined.

(** C4, the code at a failing input: 101 distinct keys stored by 101 calls
    of [setCache] within one millisecond (one value of [Date.now()]) leave
    101 entries in a cache whose configured [maxSize] is 100; the 101st call
    finds the cache at capacity and evicts nothing. *)
Theorem setCache_burst_exceeds_maxSize :
  maxSize config = 100
  /\ JSMap.size (Scenario.setAll (Scenario.burstKeys 100) (JNum 1) 1000 []) = 100
  /\ JSMap.size (Scenario.setAll (Scenario.burstKeys 101) (JNum 1) 1000 []) = 101
  /\ evictOldest 1000 (Scenario.setAll (Scenario.burstKeys 100) (JNum 1) 1000 [])
     = Scenario.setAll (Scenario.burstKeys 100) (JNum 1) 1000 [].
Proof. vm_compute. repeat split; reflexivity. Qed.

End CacheFacts.

(* ================================================================== *)
(** ** The request key *)

Module KeyFacts.
Import JS ApiClient.

Lemma length_append (a b : string) :
  String.length (a ++ b) = (String.length a + String.length b)%nat.
Proof. induction a as [|c a IH]; simpl; [reflexivity|]. rewrite IH. reflexivity. Qed.

Lemma append_inj_l (p a b : string) : p ++ a = p ++ b -> a = b.
Proof. induction p as [|c p IH]; simpl; [auto|]. intros [= H]. auto. Qed.


(** The key under which [request] looks a response up is never the URL
    under which [executeRequest] stores one. *)
Lemma cacheKey_not_url m url b : cacheKey m url b <> url.
Proof.
  intros H. apply (f_equal String.length) in H.
  unfold cacheKey in H. rewrite !length_append in H. simpl in H.
  destruct m; simpl in H; lia.
Qed.

Lemma prefixed_key_not_url m url b prefix :
  String.eqb (prefix ++ url) (prefix ++ cacheKey m url b) = false.
Proof.
  apply String.eqb_neq. intros H. apply append_inj_l in H.
  symmetry in H. exact (cacheKey_not_url _ _ _ H).
Qed.

(** C10: for a fixed method and URL every falsy body ([undefined], [null],
    [false], [0], the empty string) derives the key of the empty object,
    [method-url-{}]; and the lookups of [request] in the cache and in the
    queue of pending requests, which go by the key alone, are the same for
    the two bodies. *)
Theorem falsy_body_key (m : Method) (url : string) (b : JSValue) :
  isTruthy b = false ->
  cacheKey m url b = cacheKey m url (JObj [])
  /\ cacheKey m url b = methodName m ++ "-" ++ url ++ "-{}"
  /\ (forall cfg w, cacheHit cfg (cacheKey m url b) w
                    = cacheHit cfg (cacheKey m url (JObj [])) w)
  /\ (forall w, JSMap.get (cacheKey m url b) (requestQueue w)
                = JSMap.get (cacheKey m url (JObj [])) (requestQueue w)).
Proof.
  intros Hfalsy.
  assert (H : cacheKey m url b = cacheKey m url (JObj [])).
  { unfold cacheKey, orElse. rewrite Hfalsy. reflexivity. }
  rewrite H. repeat split; reflexivity.
Qed.

Lemma falsy_body_key_witness :
  isTruthy (JNum 0) = false
  /\ cacheKey GET "/api/health" (JNum 0) = cacheKey GET "/api/health" (JObj []).
Proof.
  split; [reflexivity|].
  exact (proj1 (falsy_body_key GET "/api/health" (JNum 0) eq_refl)).
Defined.

(** The falsy values of the model. *)
Lemma falsy_values b :
  isTruthy b = false <->
  b = JUndefined \/ b = JNull \/ b = JBool false \/ b = JNum 0 \/ b = JStr EmptyString.
Proof.
  split.
  - destruct b as [| |[]|n|s| |]; simpl; try discriminate; auto.
    + intros H. apply negb_false_iff, Z.eqb_eq in H. subst. auto 6.
    + intros H. apply negb_false_iff, String.eqb_eq in H. subst. auto 6.
  - intros [->|[->|[->|[->| ->]]]]; reflexivity.
Qed.


End KeyFacts.

(* ================================================================== *)
(** ** [JSON.stringify] keeps values apart *)

Module JsonFacts.
Import JS ApiClient KeyFacts.


(** *** Strings *)




(** *** Numbers *)

Lemma digitFree_digit c r : isDigit c = true -> digitFree (String c r) = false.
Proof. intros H. simpl. rewrite H. reflexivity. Qed.

Ltac digit_clash :=
  match goal with
  | H : digitFree (String _ _) = true |- _ => simpl in H; discriminate
  end.

Lemma string_of_uint_inj d1 : forall d2 r1 r2,
  digitFree r1 = true -> digitFree r2 = true ->
  NilEmpty.string_of_uint d1 ++ r1 = NilEmpty.string_of_uint d2 ++ r2 ->
  d1 = d2 /\ r1 = r2.
Proof.
  induction d1 as [|d1 IH|d1 IH|d1 IH|d1 IH|d1 IH|d1 IH|d1 IH|d1 IH|d1 IH|d1 IH];
    intros [|d2|d2|d2|d2|d2|d2|d2|d2|d2|d2] r1 r2 H1 H2 H; simpl in H;
    try discriminate;
    try (subst; digit_clash);
    try (injection H as H; destruct (IH _ _ _ H1 H2 H) as [-> ->]; auto).
  auto.
Qed.

Lemma string_of_uint_head d :
  d <> Decimal.Nil ->
  exists c rest, NilEmpty.string_of_uint d = String c rest /\ isDigit c = true.
Proof.
  destruct d; intros H; try congruence; simpl; eexists _, _; split; reflexivity.
Qed.


Lemma nilzero_uint p :
  NilZero.string_of_uint (Pos.to_uint p) = NilEmpty.string_of_uint (Pos.to_uint p).
Proof.
  pose proof (DecimalPos.Unsigned.to_uint_nonnil p) as Hnil.
  destruct (Pos.to_uint p); try congruence; reflexivity.
Qed.

Lemma numberToString_inj n1 n2 r1 r2 :
  digitFree r1 = true -> digitFree r2 = true ->
  numberToString n1 ++ r1 = numberToString n2 ++ r2 -> n1 = n2 /\ r1 = r2.
Proof.
  intros H1 H2. unfold numberToString.
  destruct n1 as [|p1|p1], n2 as [|p2|p2]; cbn [Z.to_int NilZero.string_of_int];
    rewrite ?nilzero_uint.
  - simpl. intros [= ->]. auto.
  - change (NilZero.string_of_uint (Decimal.D0 Decimal.Nil))
      with (NilEmpty.string_of_uint (Decimal.D0 Decimal.Nil)).
    intros H. destruct (string_of_uint_inj _ _ _ _ H1 H2 H) as [Hd _].
    symmetry in Hd. exfalso. exact (DecimalPos.Unsigned.to_uint_nonzero _ Hd).
  - pose proof (DecimalPos.Unsigned.to_uint_nonnil p2). simpl. discriminate.
  - change (NilZero.string_of_uint (Decimal.D0 Decimal.Nil))
      with (NilEmpty.string_of_uint (Decimal.D0 Decimal.Nil)).
    intros H. destruct (string_of_uint_inj _ _ _ _ H1 H2 H) as [Hd _].
    exfalso. exact (DecimalPos.Unsigned.to_uint_nonzero _ Hd).
  - intros H. destruct (string_of_uint_inj _ _ _ _ H1 H2 H) as [Hd ->].
    apply DecimalPos.Unsigned.to_uint_inj in Hd. subst. auto.
  - intros H. exfalso.
    destruct (string_of_uint_head _ (DecimalPos.Unsigned.to_uint_nonnil p1))
      as (c & rest & Heq & Hdigit).
    rewrite Heq in H. simpl in H. injection H as -> _. discriminate.
  - simpl. discriminate.
  - intros H. exfalso.
    destruct (string_of_uint_head _ (DecimalPos.Unsigned.to_uint_nonnil p2))
      as (c & rest & Heq & Hdigit).
    rewrite Heq in H. simpl in H. injection H as <- _. discriminate.
  - simpl. intros [= H]. destruct (string_of_uint_inj _ _ _ _ H1 H2 H) as [Hd ->].
    apply DecimalPos.Unsigned.to_uint_inj in Hd. subst. auto.
Qed.

(** *** Lists of parts joined by commas *)


Section Joined.
Variable A : Type.
Variable text : A -> string.
Variable close : ascii.
Variable good : A -> Prop.

Hypothesis close_not_comma : close <> ","%char.
Hypothesis head_not_close :
  forall a, good a -> exists c rest, text a = String c rest /\ c <> close.



End Joined.

(** *** Values *)















End JsonFacts.

(* ================================================================== *)
(** ** One call of [request] *)

Module CallFacts.
Import JS PerformanceOptimizer ApiClient MapFacts CacheFacts KeyFacts.

Lemma nth_error_snoc {A : Type} (l : list A) (x : A) :
  nth_error (l ++ [x]) (length l) = Some x.
Proof. induction l as [|y l IH]; simpl; [reflexivity|exact IH]. Qed.

Lemma nth_error_snoc_old {A : Type} (l : list A) (x : A) (n : nat) :
  (n < length l)%nat -> nth_error (l ++ [x]) n = nth_error l n.
Proof. intros H. apply nth_error_app1. exact H. Qed.

Lemma replaceNth_snoc {A : Type} (l : list A) (x y : A) :
  replaceNth (length l) y (l ++ [x]) = (l ++ [y])%list.
Proof. induction l as [|z l IH]; simpl; [reflexivity|]. rewrite IH. reflexivity. Qed.

Lemma length_replaceNth {A : Type} (n : nat) (x : A) (l : list A) :
  length (replaceNth n x l) = length l.
Proof.
  revert n. induction l as [|y l IH]; intros [|n]; simpl; auto.
Qed.

Lemma nth_error_replaceNth_same {A : Type} (n : nat) (x : A) (l : list A) :
  (n < length l)%nat -> nth_error (replaceNth n x l) n = Some x.
Proof.
  revert n. induction l as [|y l IH]; intros [|n]; simpl; try lia; auto.
  intros H. apply IH. lia.
Qed.

Lemma nth_error_replaceNth_other {A : Type} (n m : nat) (x : A) (l : list A) :
  n <> m -> nth_error (replaceNth n x l) m = nth_error l m.
Proof.
  revert n m. induction l as [|y l IH]; intros [|n] [|m]; simpl; try congruence; auto.
Qed.

Section OneCall.
Variable endpoint : string.
Variable config : ApiRequestConfig.
Variable w : World.

Let cfg := resolveConfig config.
Let url := baseURL w ++ endpoint.
Let key := cacheKey (eMethod cfg) url (eBody cfg).

(** The cache after the lookup of [request]. *)
Let cacheAfter :=
  if isGET (eMethod cfg) && eCache cfg
  then snd (getCache pcfg key (clock w) (optimizerCache w))
  else optimizerCache w.

(** A hit returns the cached value without touching queue or transport. *)
Lemma call_hit :
  cacheHit cfg key w = true ->
  call endpoint config w =
  {| baseURL := baseURL w; clock := clock w; optimizerCache := optimizerCache w;
     requestQueue := requestQueue w; promises := promises w;
     callers := callers w ++
       [Returned (Resolved (fst (getCache pcfg key (clock w) (optimizerCache w))))];
     fetchLog := fetchLog w; sleepLog := sleepLog w |}.
Proof.
  unfold cacheHit, call. fold cfg url key.
  destruct (isGET (eMethod cfg) && eCache cfg) eqn:E; simpl; [|discriminate].
  intros Hhit. rewrite Hhit. f_equal.
  unfold getCache in *.
  destruct (JSMap.get (keyPrefix pcfg ++ key) (optimizerCache w)) as [item|];
    [|discriminate].
  destruct (clock w - timestamp item >? itemTtl item); [discriminate|reflexivity].
Qed.

(** A miss on a key with a pending request awaits that request. *)
Lemma call_queued p :
  cacheHit cfg key w = false ->
  JSMap.get key (requestQueue w) = Some p ->
  call endpoint config w =
  {| baseURL := baseURL w; clock := clock w; optimizerCache := cacheAfter;
     requestQueue := requestQueue w; promises := promises w;
     callers := callers w ++ [AwaitingQueued p];
     fetchLog := fetchLog w; sleepLog := sleepLog w |}.
Proof.
  unfold cacheHit, call, cacheAfter. fold cfg url key.
  destruct (isGET (eMethod cfg) && eCache cfg) eqn:E; simpl;
    intros Hmiss Hq; try rewrite Hmiss; rewrite Hq; reflexivity.
Qed.

(** A miss on a key without pending request starts [executeRequest]. *)
Lemma call_fresh :
  cacheHit cfg key w = false ->
  JSMap.get key (requestQueue w) = None ->
  call endpoint config w =
  {| baseURL := baseURL w; clock := clock w; optimizerCache := cacheAfter;
     requestQueue := JSMap.set key (length (promises w)) (requestQueue w);
     promises := promises w ++ [fst (startJob (length (promises w)) url cfg (clock w))];
     callers := callers w ++ [AwaitingOwn (length (promises w)) key];
     fetchLog := fetchLog w ++ snd (startJob (length (promises w)) url cfg (clock w));
     sleepLog := sleepLog w |}.
Proof.
  unfold cacheHit, call, cacheAfter. fold cfg url key.
  destruct (isGET (eMethod cfg) && eCache cfg) eqn:E; simpl;
    intros Hmiss Hq; try rewrite Hmiss; rewrite Hq; reflexivity.
Qed.
End OneCall.

Lemma startJob_retrying p url cfg now :
  1 <= eRetries cfg ->
  startJob p url cfg now =
  (Pending {| jUrl := url; jConfig := cfg; jAttempt := 1;
              jLastError := ThrownUndefined; jPhase := Fetching |},
   [fetchCall p url cfg 1 now]).
Proof.
  intros H. unfold startJob. destruct (1 <=? eRetries cfg) eqn:E; [reflexivity|].
  apply Z.leb_gt in E. lia.
Qed.

End CallFacts.

(* ================================================================== *)
(** ** The retry loop of [executeRequest] *)

Module RetryFacts.
Import JS PerformanceOptimizer ApiClient MapFacts CacheFacts KeyFacts CallFacts.

Ltac hundred_cases k :=
  do 100 (destruct k as [|k]; [reflexivity|]); exfalso; lia.

Lemma client_status_message (k : nat) (statusText : string) :
  (k < 100)%nat ->
  includes "HTTP 4" ("HTTP " ++ numberToString (400 + Z.of_nat k) ++ ": " ++ statusText)
  = true.
Proof. intros H. hundred_cases k. Qed.


(** A 4xx response reaches the [catch] as an error that stops the loop. *)
Lemma attemptResult_4xx status statusText json :
  400 <= status <= 499 ->
  exists error,
    attemptResult (Responds status statusText json) = inr error
    /\ error = ThrownError ("HTTP " ++ numberToString status ++ ": " ++ statusText)
    /\ isClientError error = true.
Proof.
  intros H. eexists. split; [|split; [reflexivity|]].
  - unfold attemptResult, responseOk.
    destruct (200 <=? status) eqn:E1; destruct (status <=? 299) eqn:E2; simpl;
      try reflexivity.
    apply Z.leb_le in E2. lia.
  - simpl. replace status with (400 + Z.of_nat (Z.to_nat (status - 400))) by lia.
    apply client_status_message. lia.
Qed.


Section OneAttempt.
Variables (p : nat) (j : Job) (r : FetchResult) (w : World).

Lemma fetchDone_success d :
  attemptResult r = inl d ->
  fetchDone p j r w =
  {| baseURL := baseURL w; clock := clock w;
     optimizerCache :=
       if isGET (eMethod (jConfig j)) && eCache (jConfig j)
       then setCache pcfg (jUrl j) d (Some (eCacheTTL (jConfig j))) (clock w)
              (optimizerCache w)
       else optimizerCache w;
     requestQueue := requestQueue w;
     promises := replaceNth p (Settled (Resolved d)) (promises w);
     callers := callers w; fetchLog := fetchLog w; sleepLog := sleepLog w |}.
Proof. unfold fetchDone. intros ->. reflexivity. Qed.

Lemma fetchDone_client_error error :
  attemptResult r = inr error -> isClientError error = true ->
  fetchDone p j r w = setPromise p (Settled (Rejected error)) w.
Proof. unfold fetchDone. intros -> ->. reflexivity. Qed.

Lemma fetchDone_backoff error :
  attemptResult r = inr error -> isClientError error = false ->
  jAttempt j < eRetries (jConfig j) ->
  fetchDone p j r w =
  {| baseURL := baseURL w; clock := clock w; optimizerCache := optimizerCache w;
     requestQueue := requestQueue w;
     promises :=
       replaceNth p
         (Pending {| jUrl := jUrl j; jConfig := jConfig j; jAttempt := jAttempt j;
                     jLastError := error;
                     jPhase := Sleeping (clock w + backoffDelay (jAttempt j)) |})
         (promises w);
     callers := callers w; fetchLog := fetchLog w;
     sleepLog := sleepLog w ++ [backoffDelay (jAttempt j)] |}.
Proof.
  unfold fetchDone. intros -> -> H.
  destruct (jAttempt j <? eRetries (jConfig j)) eqn:E; [reflexivity|].
  apply Z.ltb_ge in E. lia.
Qed.

Lemma fetchDone_exhausted error :
  attemptResult r = inr error -> isClientError error = false ->
  eRetries (jConfig j) <= jAttempt j ->
  fetchDone p j r w = setPromise p (Settled (Rejected error)) w.
Proof.
  unfold fetchDone. intros -> -> H.
  destruct (jAttempt j <? eRetries (jConfig j)) eqn:E.
  - apply Z.ltb_lt in E. lia.
  - destruct (jAttempt j + 1 <=? eRetries (jConfig j)) eqn:E'; [|reflexivity].
    apply Z.leb_le in E'. lia.
Qed.

Lemma timerDone_next :
  jAttempt j < eRetries (jConfig j) ->
  timerDone p j w =
  {| baseURL := baseURL w; clock := clock w; optimizerCache := optimizerCache w;
     requestQueue := requestQueue w;
     promises :=
       replaceNth p
         (Pending {| jUrl := jUrl j; jConfig := jConfig j; jAttempt := jAttempt j + 1;
                     jLastError := jLastError j; jPhase := Fetching |})
         (promises w);
     callers := callers w;
     fetchLog := fetchLog w ++
       [fetchCall p (jUrl j) (jConfig j) (jAttempt j + 1) (clock w)];
     sleepLog := sleepLog w |}.
Proof.
  unfold timerDone. intros H.
  destruct (jAttempt j + 1 <=? eRetries (jConfig j)) eqn:E; [reflexivity|].
  apply Z.leb_gt in E. lia.
Qed.
End OneAttempt.


End RetryFacts.

(* ================================================================== *)
(** ** Whole requests *)

Module RequestFacts.
Import JS PerformanceOptimizer ApiClient MapFacts CacheFacts KeyFacts CallFacts RetryFacts.

(** The first three steps a lone request takes when it misses the cache
    and finds no pending request: the world after the call. *)
Section Lone.
Variables (endpoint : string) (config : ApiRequestConfig) (w : World).

Let cfg := resolveConfig config.
Let url := baseURL w ++ endpoint.
Let key := cacheKey (eMethod cfg) url (eBody cfg).
Let p := length (promises w).
Let c := length (callers w).

Hypothesis Hmiss : cacheHit cfg key w = false.
Hypothesis Hfree : JSMap.get key (requestQueue w) = None.
Hypothesis Hretries : 1 <= eRetries cfg.

Lemma lone_call :
  call endpoint config w =
  {| baseURL := baseURL w; clock := clock w;
     optimizerCache := optimizerCache (call endpoint config w);
     requestQueue := JSMap.set key p (requestQueue w);
     promises := promises w ++
       [Pending {| jUrl := url; jConfig := cfg; jAttempt := 1;
                   jLastError := ThrownUndefined; jPhase := Fetching |}];
     callers := callers w ++ [AwaitingOwn p key];
     fetchLog := fetchLog w ++ [fetchCall p url cfg 1 (clock w)];
     sleepLog := sleepLog w |}.
Proof.
  rewrite (call_fresh endpoint config w Hmiss Hfree) at 1.
  fold cfg url key p. rewrite (startJob_retrying p url cfg (clock w) Hretries).
  simpl. f_equal.
  rewrite (call_fresh endpoint config w Hmiss Hfree). reflexivity.
Qed.

(** X2: a 4xx answer to the first attempt, whatever its status text: one
    call of the transport, no backoff, and the error for the caller. *)
Lemma client_error_single_invocation status statusText json :
  400 <= status <= 499 ->
  exists w',
    run [Call endpoint config; FetchDone p (Responds status statusText json);
         Resume c] w = Some w'
    /\ nth_error (callers w') c =
       Some (Returned (Rejected
         (ThrownError ("HTTP " ++ numberToString status ++ ": " ++ statusText))))
    /\ fetchLog w' = (fetchLog w ++ [fetchCall p url cfg 1 (clock w)])%list
    /\ sleepLog w' = sleepLog w
    /\ JSMap.get key (requestQueue w') = None.
Proof.
  intros Hstatus.
  destruct (attemptResult_4xx status statusText json Hstatus) as (e & Hres & He & Hce).
  cbn [run step]. rewrite lone_call. cbn [promises].
  unfold p, c. rewrite nth_error_snoc. cbn [jPhase].
  rewrite (fetchDone_client_error _ _ _ _ _ Hres Hce).
  unfold setPromise. cbn [callers promises].
  rewrite nth_error_snoc. cbn [awaited].
  rewrite replaceNth_snoc, nth_error_snoc.
  eexists. split; [reflexivity|].
  unfold resume. cbn. rewrite replaceNth_snoc, nth_error_snoc.
  subst e. repeat split. apply (get_delete_same key).
Qed.

Ltac world_cbn :=
  cbn [run step promises callers clock jPhase jAttempt jConfig jUrl jLastError
       awaited fetchLog sleepLog requestQueue optimizerCache baseURL].

Ltac world_simpl :=
  repeat (world_cbn; first [rewrite replaceNth_snoc | rewrite nth_error_snoc]);
  world_cbn.

Lemma attemptResult_ok status statusText d :
  200 <= status <= 299 ->
  attemptResult (Responds status statusText (inl d)) = inl d.
Proof.
  intros Hstatus. unfold attemptResult, responseOk.
  destruct (200 <=? status) eqn:E1; destruct (status <=? 299) eqn:E2; simpl;
    try reflexivity; try (apply Z.leb_gt in E1; lia); apply Z.leb_gt in E2; lia.
Qed.

(** An answer with a 2xx status and a parsable body to the first attempt:
    one call of the transport, the data for the caller, and, for a GET
    with caching enabled, the data stored under the URL. *)
Lemma success_single_invocation status statusText d :
  200 <= status <= 299 ->
  run [Call endpoint config; FetchDone p (Responds status statusText (inl d));
       Resume c] w =
  Some {| baseURL := baseURL w; clock := clock w;
          optimizerCache :=
            if isGET (eMethod cfg) && eCache cfg
            then setCache pcfg url d (Some (eCacheTTL cfg)) (clock w)
                   (optimizerCache (call endpoint config w))
            else optimizerCache (call endpoint config w);
          requestQueue := JSMap.delete key (JSMap.set key p (requestQueue w));
          promises := promises w ++ [Settled (Resolved d)];
          callers := callers w ++ [Returned (Resolved d)];
          fetchLog := fetchLog w ++ [fetchCall p url cfg 1 (clock w)];
          sleepLog := sleepLog w |}.
Proof.
  intros Hstatus.
  pose proof (attemptResult_ok status statusText d Hstatus) as Hres.
  cbn [run step]. rewrite lone_call. unfold p, c. world_simpl.
  rewrite (fetchDone_success _ _ _ _ _ Hres). world_simpl.
  unfold resume. world_simpl. reflexivity.
Qed.


End Lone.



Lemma client_error_single_invocation_witness :
  exists w',
    run [Scenario.getResident1; FetchDone 0 (Responds 404 "Not Found" (inl JNull));
         Resume 0] (newWorld "/api" 0) = Some w'
    /\ nth_error (callers w') 0 =
       Some (Returned (Rejected (ThrownError "HTTP 404: Not Found")))
    /\ length (fetchLog w') = 1%nat.
Proof.
  destruct (client_error_single_invocation "/residents/1" Scenario.getResident1Config
              (newWorld "/api" 0) eq_refl eq_refl ltac:(cbv; discriminate)
              404 "Not Found" (inl JNull) ltac:(lia))
    as (w' & Hrun & Hc & Hf & _).
  exists w'. split; [exact Hrun|]. split; [exact Hc|]. rewrite Hf. reflexivity.
Defined.

(** X6: a request with caching disabled neither reads nor writes the
    cache: its call leaves the cache as it is, whatever the cache holds, and
    so does the answer to any of its attempts. *)
Theorem uncached_request_bypasses_cache endpoint config w :
  eCache (resolveConfig config) = false ->
  optimizerCache (call endpoint config w) = optimizerCache w
  /\ (forall key, cacheHit (resolveConfig config) key w = false)
  /\ (forall p j r w2,
        jConfig j = resolveConfig config ->
        optimizerCache (fetchDone p j r w2) = optimizerCache w2).
Proof.
  intros Hoff. repeat split.
  - unfold call. rewrite Hoff, andb_false_r. cbn [andb fst snd].
    destruct (JSMap.get _ (requestQueue w)); reflexivity.
  - intros key. unfold cacheHit. rewrite Hoff, andb_false_r. reflexivity.
  - intros p j r w2 Hj. unfold fetchDone. rewrite Hj, Hoff, andb_false_r.
    destruct (attemptResult r) as [d|e]; [reflexivity|].
    destruct (isClientError e); [reflexivity|].
    destruct (jAttempt j <? eRetries (resolveConfig config)); [reflexivity|].
    destruct (jAttempt j + 1 <=? eRetries (resolveConfig config)); reflexivity.
Qed.

Lemma uncached_request_bypasses_cache_witness :
  optimizerCache
    (call "/health"
       {| method := None; body := JUndefined; cache := None; cacheTTL := None;
          retries := None; timeout := None |}
       (setOptimizerCache
          [("fh_GET-/api/health-{}", {| data := JNum 1; timestamp := 0; itemTtl := 5 |})]
          (newWorld "/api" 1)))
  = [("fh_GET-/api/health-{}", {| data := JNum 1; timestamp := 0; itemTtl := 5 |})].
Proof.
  apply (uncached_request_bypasses_cache "/health"
           {| method := None; body := JUndefined; cache := None; cacheTTL := None;
              retries := None; timeout := None |}
           (setOptimizerCache
              [("fh_GET-/api/health-{}",
                {| data := JNum 1; timestamp := 0; itemTtl := 5 |})]
              (newWorld "/api" 1)) eq_refl).
Defined.

(** *** Attempts used up *)

Lemma backoffDelay_nonneg k : 0 <= k -> 0 <= backoffDelay k.
Proof.
  intros H. unfold backoffDelay.
  assert (0 < 2 ^ k) by (apply Z.pow_pos_nonneg; lia). lia.
Qed.

Lemma map_seq_shift {B : Type} (f : nat -> B) a n :
  map (fun i => f (S i)) (seq a n) = map f (seq (S a) n).
Proof. rewrite <- seq_shift, map_map. reflexivity. Qed.

(** From attempt [k] on, as many retryable failures as attempts are left:
    the promise is rejected with the last error, one call of the transport
    and one wait are added per further attempt, and there is no wait after
    the last attempt. *)
Lemma exhaust_from fs : forall k w2 pre j,
  promises w2 = (pre ++ [Pending j])%list ->
  jPhase j = Fetching -> jAttempt j = k -> 1 <= k ->
  k + Z.of_nat (length fs) = eRetries (jConfig j) + 1 ->
  fs <> [] ->
  Forall retryable fs ->
  exists w3,
    run (failingAttempts (length pre) k fs) w2 = Some w3
    /\ promises w3 = (pre ++ [Settled (Rejected (errorOf (last fs (FetchRejects EmptyString))))])%list
    /\ map fAttempt (fetchLog w3) =
       (map fAttempt (fetchLog w2)
          ++ map (fun i => k + Z.of_nat i) (seq 1 (length fs - 1)))%list
    /\ sleepLog w3 =
       (sleepLog w2
          ++ map (fun i => backoffDelay (k + Z.of_nat i)) (seq 0 (length fs - 1)))%list
    /\ callers w3 = callers w2 /\ requestQueue w3 = requestQueue w2.
Proof.
  induction fs as [|f fs IH]; intros k w2 pre j Hps Hphase Hk Hk1 Hlen Hne Hall;
    [congruence|].
  inversion Hall as [|? ? (e & Hres & Hce) Hrest]; subst.
  assert (Hnth : nth_error (promises w2) (length pre) = Some (Pending j))
    by (rewrite Hps; apply nth_error_snoc).
  destruct fs as [|f' fs].
  - (* the last attempt *)
    cbn [failingAttempts run step length] in *. rewrite Hnth, Hphase.
    rewrite (fetchDone_exhausted _ _ _ _ _ Hres Hce) by lia.
    eexists. split; [reflexivity|].
    cbn [setPromise promises callers fetchLog sleepLog requestQueue last].
    rewrite Hps, replaceNth_snoc. unfold errorOf. rewrite Hres.
    cbn [seq map]. rewrite !app_nil_r. repeat split.
  - (* a failure before the last attempt *)
    cbn [length] in Hlen.
    cbn [failingAttempts run step]. rewrite Hnth, Hphase.
    rewrite (fetchDone_backoff _ _ _ _ _ Hres Hce) by lia.
    cbn [run step promises clock]. rewrite Hps, replaceNth_snoc.
    pose proof (backoffDelay_nonneg (jAttempt j) ltac:(lia)) as Hdelay.
    replace (0 <=? backoffDelay (jAttempt j)) with true
      by (symmetry; apply Z.leb_le; exact Hdelay).
    cbn [run step promises clock]. rewrite nth_error_snoc. cbn [jPhase].
    rewrite Z.leb_refl.
    rewrite timerDone_next by (cbn [jAttempt jConfig]; lia).
    cbn [promises jAttempt jConfig jUrl jLastError]. rewrite replaceNth_snoc.
    match goal with |- context [run _ ?w] => set (w' := w) end.
    destruct (IH (jAttempt j + 1) w' pre
                {| jUrl := jUrl j; jConfig := jConfig j; jAttempt := jAttempt j + 1;
                   jLastError := e; jPhase := Fetching |})
      as (w3 & Hrun & Hp3 & Hf3 & Hs3 & Hc3 & Hq3); try reflexivity; try lia.
    + cbn [jConfig length]. cbn [length] in Hlen. lia.
    + discriminate.
    + exact Hrest.
    + exists w3. split; [exact Hrun|].
      rewrite Hp3, Hf3, Hs3, Hc3, Hq3. unfold w'.
      cbn [fetchLog sleepLog callers requestQueue].
      split; [reflexivity|].
      cbn [length Nat.sub]. rewrite Nat.sub_0_r.
      split; [|split; [|split; reflexivity]].
      * rewrite map_app, <- app_assoc. f_equal. cbn [map fAttempt fetchCall app seq].
        f_equal; try lia.
        rewrite <- (map_seq_shift (fun i => jAttempt j + Z.of_nat i)).
        apply map_ext. intros i. lia.
      * rewrite <- app_assoc. f_equal. cbn [app seq map].
        f_equal; try (f_equal; lia).
        rewrite <- (map_seq_shift (fun i => backoffDelay (jAttempt j + Z.of_nat i))).
        apply map_ext. intros i. f_equal. lia.
Qed.

Lemma run_app evs1 evs2 w :
  run (evs1 ++ evs2) w =
  match run evs1 w with
  | Some w1 => run evs2 w1
  | None => None
  end.
Proof.
  revert w. induction evs1 as [|ev evs1 IH]; intros w; simpl; [reflexivity|].
  destruct (step ev w); [apply IH|reflexivity].
Qed.

(** X7: when the transport answers every one of the [retries] attempts
    with a failure that is not taken for a client error, the caller gets the
    error of the last attempt; the transport has been called [retries]
    times, and the loop has waited [2^1 * 1000], ..., [2^(retries-1) * 1000]
    milliseconds between the attempts and not after the last. *)
Theorem retries_exhausted endpoint config w fs :
  let cfg := resolveConfig config in
  let url := baseURL w ++ endpoint in
  let key := cacheKey (eMethod cfg) url (eBody cfg) in
  let p := length (promises w) in
  let c := length (callers w) in
  cacheHit cfg key w = false ->
  JSMap.get key (requestQueue w) = None ->
  1 <= eRetries cfg ->
  Z.of_nat (length fs) = eRetries cfg ->
  Forall retryable fs ->
  exists w',
    run (Call endpoint config :: failingAttempts p 1 fs ++ [Resume c]) w = Some w'
    /\ nth_error (callers w') c =
       Some (Returned (Rejected (errorOf (last fs (FetchRejects EmptyString)))))
    /\ map fAttempt (fetchLog w') =
       (map fAttempt (fetchLog w) ++ map Z.of_nat (seq 1 (length fs)))%list
    /\ sleepLog w' =
       (sleepLog w
          ++ map (fun i => backoffDelay (Z.of_nat i)) (seq 1 (length fs - 1)))%list
    /\ JSMap.get key (requestQueue w') = None.
Proof.
  intros cfg url key p c Hmiss Hfree Hretries Hlen Hall.
  cbn [run step]. rewrite run_app.
  pose proof (lone_call endpoint config w Hmiss Hfree Hretries) as Hcall.
  fold cfg url key p in Hcall.
  destruct (exhaust_from fs 1 (call endpoint config w) (promises w)
              {| jUrl := url; jConfig := cfg; jAttempt := 1;
                 jLastError := ThrownUndefined; jPhase := Fetching |})
    as (w3 & Hrun & Hp3 & Hf3 & Hs3 & Hc3 & Hq3); try reflexivity; try lia; auto.
  - rewrite Hcall. reflexivity.
  - cbn [jConfig]. lia.
  - intros ->. cbn [length Z.of_nat] in Hlen. lia.
  - fold p in Hrun. rewrite Hrun. cbn [run step].
    rewrite Hcall in Hc3, Hq3, Hf3, Hs3.
    cbn [callers requestQueue fetchLog sleepLog] in Hc3, Hq3, Hf3, Hs3.
    fold c. rewrite Hc3. unfold c at 1. rewrite nth_error_snoc. cbn [awaited].
    rewrite Hp3. unfold p at 1. rewrite nth_error_snoc.
    eexists. split; [reflexivity|].
    cbn [resume callers fetchLog sleepLog requestQueue].
    rewrite Hc3, Hf3, Hs3, Hq3. unfold c. rewrite replaceNth_snoc, nth_error_snoc.
    split; [reflexivity|].
    destruct fs as [|f fs]; [cbn [length Z.of_nat] in Hlen; lia|].
    cbn [length Nat.sub]. rewrite Nat.sub_0_r.
    split; [|split].
    + rewrite map_app, <- app_assoc. f_equal. cbn [map fAttempt fetchCall app seq].
      f_equal.
      rewrite <- (map_seq_shift Z.of_nat). apply map_ext. intros i. lia.
    + f_equal. rewrite <- (map_seq_shift (fun i => backoffDelay (Z.of_nat i))).
      apply map_ext. intros i. f_equal. lia.
    + apply (get_delete_same key).
Qed.

Lemma retries_exhausted_witness :
  exists w',
    run [Scenario.getResident1;
         FetchDone 0 (FetchRejects "Failed to fetch"); Tick 2000; TimerDone 0;
         FetchDone 0 (Responds 500 "Internal Server Error" (inl JNull)); Tick 4000;
         TimerDone 0;
         FetchDone 0 (FetchRejects "The operation was aborted.");
         Resume 0] (newWorld "/api" 0) = Some w'
    /\ callers w' = [Returned (Rejected (ThrownError "The operation was aborted."))]
    /\ map fAttempt (fetchLog w') = [1; 2; 3]
    /\ sleepLog w' = [2000; 4000].
Proof.
  destruct (retries_exhausted "/residents/1" Scenario.getResident1Config
              (newWorld "/api" 0)
              [FetchRejects "Failed to fetch";
               Responds 500 "Internal Server Error" (inl JNull);
               FetchRejects "The operation was aborted."]
              eq_refl eq_refl ltac:(cbv; discriminate) eq_refl)
    as (w' & Hrun & _).
  - repeat constructor; eexists; split; reflexivity.
  - exists w'. split; [exact Hrun|].
    vm_compute in Hrun. injection Hrun as <-. vm_compute. auto.
Defined.


Lemma cacheHit_false_iff cfg key w :
  cacheHit cfg key w = false <->
  (isGET (eMethod cfg) && eCache cfg = true ->
   isTruthy (fst (getCache pcfg key (clock w) (optimizerCache w))) = false).
Proof.
  unfold cacheHit. destruct (isGET (eMethod cfg) && eCache cfg); simpl.
  - tauto.
  - split; [discriminate|reflexivity].
Qed.

(** C1, what the code does instead: after a GET with caching enabled has
    succeeded, the response is in the cache under the URL, and the same GET
    issued again, at once or any time later, finds nothing under its key and
    calls the transport a second time. *)
Theorem cached_get_is_fetched_again endpoint config w status statusText d t :
  let cfg := resolveConfig config in
  let url := baseURL w ++ endpoint in
  let key := cacheKey (eMethod cfg) url (eBody cfg) in
  let p := length (promises w) in
  let c := length (callers w) in
  eMethod cfg = GET -> eCache cfg = true ->
  NoDup (JSMap.keys (optimizerCache w)) ->
  cacheHit cfg key w = false ->
  JSMap.get key (requestQueue w) = None ->
  1 <= eRetries cfg ->
  200 <= status <= 299 ->
  0 <= t ->
  exists w',
    run [Call endpoint config; FetchDone p (Responds status statusText (inl d));
         Resume c; Tick t; Call endpoint config] w = Some w'
    /\ nth_error (callers w') c = Some (Returned (Resolved d))
    /\ nth_error (callers w') (S c) = Some (AwaitingOwn (S p) key)
    /\ fetchLog w' =
       (fetchLog w ++ [fetchCall p url cfg 1 (clock w);
                       fetchCall (S p) url cfg 1 (clock w + t)])%list
    /\ JSMap.get (keyPrefix pcfg ++ url) (optimizerCache w') =
       Some {| data := d; timestamp := clock w;
               itemTtl := if eCacheTTL cfg =? 0 then ttl pcfg else eCacheTTL cfg |}.
Proof.
  intros cfg url key p c Hget Hcache Hnd Hmiss Hfree Hretries Hstatus Ht.
  change [Call endpoint config; FetchDone p (Responds status statusText (inl d));
          Resume c; Tick t; Call endpoint config]
    with ([Call endpoint config; FetchDone p (Responds status statusText (inl d));
           Resume c] ++ [Tick t; Call endpoint config])%list.
  rewrite run_app.
  subst cfg url key p c.
  rewrite (success_single_invocation endpoint config w Hmiss Hfree Hretries
             status statusText d Hstatus).
  set (cfg := resolveConfig config) in *.
  set (url := baseURL w ++ endpoint) in *.
  set (key := cacheKey (eMethod cfg) url (eBody cfg)) in *.
  set (p := length (promises w)) in *.
  set (c := length (callers w)) in *.
  rewrite Hget, Hcache. cbn [isGET andb].
  cbn [run step]. replace (0 <=? t) with true by (symmetry; apply Z.leb_le; lia).
  cbn [clock baseURL optimizerCache requestQueue promises callers fetchLog sleepLog].
  set (c1 := setCache pcfg url d (Some (eCacheTTL cfg)) (clock w)
               (optimizerCache (call endpoint config w))).
  set (w1 := {| baseURL := baseURL w; clock := clock w + t; optimizerCache := c1;
                requestQueue := JSMap.delete key (JSMap.set key p (requestQueue w));
                promises := promises w ++ [Settled (Resolved d)];
                callers := callers w ++ [Returned (Resolved d)];
                fetchLog := fetchLog w ++ [fetchCall p url cfg 1 (clock w)];
                sleepLog := sleepLog w |}).
  assert (Hc0 : optimizerCache (call endpoint config w)
                = snd (getCache pcfg key (clock w) (optimizerCache w))).
  { rewrite (call_fresh endpoint config w Hmiss Hfree). cbn [optimizerCache].
    fold cfg url key. rewrite Hget, Hcache. reflexivity. }
  assert (Hno : noLiveTruthy pcfg key (clock w + t) c1).
  { unfold c1. apply noLiveTruthy_setCache.
    - intros H. apply append_inj_l in H. symmetry in H.
      exact (cacheKey_not_url _ _ _ H).
    - rewrite Hc0. apply (noLiveTruthy_incl pcfg key _ (optimizerCache w)).
      + apply getCache_incl.
      + apply (noLiveTruthy_later pcfg key (clock w)); [lia|].
        apply getCache_noLiveTruthy; [exact Hnd|].
        apply cacheHit_false_iff in Hmiss; [exact Hmiss|].
        rewrite Hget, Hcache. reflexivity. }
  assert (Hmiss1 : cacheHit cfg key w1 = false).
  { apply cacheHit_false_iff. intros _. apply noLiveTruthy_getCache. exact Hno. }
  assert (Hfree1 : JSMap.get key (requestQueue w1) = None) by apply get_delete_same.
  rewrite (call_fresh endpoint config w1 Hmiss1 Hfree1).
  fold cfg. cbn [baseURL clock promises callers fetchLog w1]. fold url.
  rewrite (startJob_retrying _ url cfg _ Hretries).
  eexists. split; [reflexivity|].
  cbn [callers fetchLog optimizerCache fst snd].
  rewrite !length_app. cbn [length]. rewrite !Nat.add_1_r. fold p c.
  repeat split.
  - rewrite nth_error_app1 by (rewrite length_app; simpl; lia).
    apply nth_error_snoc.
  - replace (S c) with (length (callers w ++ [Returned (Resolved d)]))
      by (rewrite length_app; simpl; lia).
    apply nth_error_snoc.
  - rewrite <- app_assoc. reflexivity.
  - fold key. rewrite Hget, Hcache. cbn [isGET andb].
    assert (Hkept : JSMap.get (keyPrefix pcfg ++ url)
                      (snd (getCache pcfg key (clock w + t) c1))
                    = JSMap.get (keyPrefix pcfg ++ url) c1).
    { unfold getCache.
      destruct (JSMap.get (keyPrefix pcfg ++ key) c1) as [item|]; [|reflexivity].
      destruct (clock w + t - timestamp item >? itemTtl item); [|reflexivity].
      apply get_delete_other. intros H. apply append_inj_l in H.
      symmetry in H. exact (cacheKey_not_url _ _ _ H). }
    change (optimizerCache w1) with c1.
    rewrite Hkept. unfold c1. rewrite setCache_stores. reflexivity.
Qed.

Lemma cached_get_is_fetched_again_witness :
  exists w',
    run [Scenario.getResident1;
         FetchDone 0 (Responds 200 "OK" (inl Scenario.resident1));
         Resume 0; Tick 1000; Scenario.getResident1] (newWorld "/api" 0) = Some w'
    /\ callers w' = [Returned (Resolved Scenario.resident1);
                     AwaitingOwn 1 "GET-/api/residents/1-{}"]
    /\ map fJob (fetchLog w') = [0; 1]%nat
    /\ JSMap.keys (optimizerCache w') = ["fh_/api/residents/1"].
Proof.
  destruct (cached_get_is_fetched_again "/residents/1" Scenario.getResident1Config
              (newWorld "/api" 0) 200 "OK" Scenario.resident1 1000
              eq_refl eq_refl (NoDup_nil _) eq_refl eq_refl
              ltac:(cbv; discriminate) ltac:(lia) ltac:(lia))
    as (w' & Hrun & _).
  exists w'. split; [exact Hrun|].
  vm_compute in Hrun. injection Hrun as <-. vm_compute. auto.
Defined.

(** C6, the code at a failing input: with three attempts allowed, the
    first attempt is answered [502 Upstream HTTP 404]; the error message
    [HTTP 502: Upstream HTTP 404] contains [HTTP 4], the loop takes the
    server error for a client error and ends, and the caller has the
    rejection after one call of the transport and no backoff. *)
Theorem bad_gateway_is_not_retried :
  eRetries (resolveConfig Scenario.getResident1Config) = 3
  /\ isClientError (ThrownError "HTTP 502: Upstream HTTP 404") = true
  /\ exists w',
       run [Scenario.getResident1; FetchDone 0 Scenario.badGateway; Resume 0]
           (newWorld "/api" 0) = Some w'
       /\ callers w' = [Returned (Rejected (ThrownError "HTTP 502: Upstream HTTP 404"))]
       /\ map fAttempt (fetchLog w') = [1]
       /\ sleepLog w' = [].
Proof.
  split; [reflexivity|]. split; [reflexivity|].
  eexists. split; [vm_compute; reflexivity|]. vm_compute. auto.
Qed.

(** C9: [getCache] answers [null] for a missing key and hands out the
    stored value of a live entry, which may be [null] or another falsy
    value; [request] takes every falsy answer for a miss: a GET with caching
    enabled whose key has a live entry with a falsy value, and no pending
    request, starts [executeRequest] and calls the transport, exactly as it
    does when the entry is not there. *)
Theorem cached_falsy_is_a_miss endpoint config w item :
  let cfg := resolveConfig config in
  let url := baseURL w ++ endpoint in
  let key := cacheKey (eMethod cfg) url (eBody cfg) in
  let without := JSMap.delete (keyPrefix pcfg ++ key) (optimizerCache w) in
  eMethod cfg = GET -> eCache cfg = true ->
  JSMap.get (keyPrefix pcfg ++ key) (optimizerCache w) = Some item ->
  clock w - timestamp item <= itemTtl item ->
  isTruthy (data item) = false ->
  JSMap.get key (requestQueue w) = None ->
  1 <= eRetries cfg ->
  getCache pcfg key (clock w) (optimizerCache w) = (data item, optimizerCache w)
  /\ getCache pcfg key (clock w) without = (JNull, without)
  /\ (data item = JNull ->
      fst (getCache pcfg key (clock w) (optimizerCache w))
      = fst (getCache pcfg key (clock w) without))
  /\ callers (call endpoint config w) =
     (callers w ++ [AwaitingOwn (length (promises w)) key])%list
  /\ fetchLog (call endpoint config w) =
     (fetchLog w ++ [fetchCall (length (promises w)) url cfg 1 (clock w)])%list
  /\ sameRequests (call endpoint config w)
                  (call endpoint config (setOptimizerCache without w)).
Proof.
  intros cfg url key without Hget Hcache Hitem Hlive Hfalsy Hfree Hretries.
  pose proof (getCache_live pcfg key (clock w) _ _ Hitem Hlive) as Hlookup.
  assert (Hlookup0 : getCache pcfg key (clock w) without = (JNull, without))
    by (apply getCache_absent; apply get_delete_same).
  assert (Hmiss : cacheHit cfg key w = false).
  { apply cacheHit_false_iff. intros _. rewrite Hlookup. exact Hfalsy. }
  assert (Hmiss0 : cacheHit cfg key (setOptimizerCache without w) = false).
  { apply cacheHit_false_iff. intros _. cbn [clock optimizerCache setOptimizerCache].
    rewrite Hlookup0. reflexivity. }
  split; [exact Hlookup|]. split; [exact Hlookup0|].
  split; [intros Hnull; rewrite Hlookup, Hlookup0; exact Hnull|].
  rewrite (lone_call endpoint config w Hmiss Hfree Hretries).
  rewrite (lone_call endpoint config (setOptimizerCache without w) Hmiss0 Hfree Hretries).
  cbn [callers fetchLog]. repeat split.
Qed.

Lemma cached_falsy_is_a_miss_witness :
  getCache pcfg "GET-/api/residents/1-{}" 10
    [("fh_GET-/api/residents/1-{}", {| data := JNull; timestamp := 0; itemTtl := 50 |})]
  = (JNull,
     [("fh_GET-/api/residents/1-{}", {| data := JNull; timestamp := 0; itemTtl := 50 |})])
  /\ getCache pcfg "GET-/api/residents/1-{}" 10 [] = (JNull, [])
  /\ callers
       (call "/residents/1" Scenario.getResident1Config
          (setOptimizerCache
             [("fh_GET-/api/residents/1-{}",
               {| data := JNull; timestamp := 0; itemTtl := 50 |})]
             (newWorld "/api" 10)))
     = [AwaitingOwn 0 "GET-/api/residents/1-{}"].
Proof.
  destruct (cached_falsy_is_a_miss "/residents/1" Scenario.getResident1Config
              (setOptimizerCache
                 [("fh_GET-/api/residents/1-{}",
                   {| data := JNull; timestamp := 0; itemTtl := 50 |})]
                 (newWorld "/api" 10))
              {| data := JNull; timestamp := 0; itemTtl := 50 |}
              eq_refl eq_refl eq_refl ltac:(cbv; discriminate) eq_refl eq_refl
              ltac:(cbv; discriminate))
    as (H1 & H2 & _ & H4 & _).
  split; [exact H1|]. split; [exact H2|exact H4].
Defined.

(** *** Clearing the cache *)

Lemma sameRequests_refl w : sameRequests w w.
Proof. repeat split. Qed.

(** An event other than a new call of [request] goes the same way in two
    worlds that differ in the cache only. *)
Lemma step_sameRequests ev w1 w2 :
  isCall ev = false -> sameRequests w1 w2 -> sameFate (step ev w1) (step ev w2).
Proof.
  intros Hev (Hb & Hc & Hq & Hp & Hcs & Hf & Hs).
  destruct w1 as [b1 t1 c1 q1 p1 cs1 f1 s1], w2 as [b2 t2 c2 q2 p2 cs2 f2 s2].
  cbn in Hb, Hc, Hq, Hp, Hcs, Hf, Hs. subst b2 t2 q2 p2 cs2 f2 s2.
  destruct ev as [e cf|p r|p|c|d|]; try discriminate; cbn [step promises callers clock].
  - destruct (nth_error p1 p) as [[j|o]|]; cbn; auto.
    destruct (jPhase j); cbn; auto.
    unfold fetchDone. cbn.
    destruct (attemptResult r) as [dd|err]; cbn; [repeat split|].
    destruct (isClientError err); cbn; [repeat split|].
    destruct (jAttempt j <? eRetries (jConfig j)); cbn; [repeat split|].
    destruct (jAttempt j + 1 <=? eRetries (jConfig j)); cbn; repeat split.
  - destruct (nth_error p1 p) as [[j|o]|]; cbn; auto.
    destruct (jPhase j) as [|wake]; cbn; auto.
    destruct (wake <=? t1); cbn; auto.
    unfold timerDone. cbn.
    destruct (jAttempt j + 1 <=? eRetries (jConfig j)); cbn; repeat split.
  - destruct (nth_error cs1 c) as [st|]; cbn; auto.
    destruct (awaited st) as [p|]; cbn; auto.
    destruct (nth_error p1 p) as [[j|o]|]; cbn; auto.
    repeat split.
  - destruct (0 <=? d); cbn; auto. repeat split.
  - repeat split.
Qed.

Lemma run_sameRequests evs : forall w1 w2,
  forallb (fun ev => negb (isCall ev)) evs = true ->
  sameRequests w1 w2 -> sameFate (run evs w1) (run evs w2).
Proof.
  induction evs as [|ev evs IH]; intros w1 w2 Hevs Hsame; cbn [run].
  - exact Hsame.
  - cbn [forallb] in Hevs. apply andb_prop in Hevs. destruct Hevs as [Hev Hevs].
    apply negb_true_iff in Hev.
    pose proof (step_sameRequests ev w1 w2 Hev Hsame) as Hstep.
    destruct (step ev w1) as [a|], (step ev w2) as [b|]; cbn in Hstep; try tauto.
    apply IH; assumption.
Qed.

(** C8: [clearCache()] leaves a cache in which [getCache] answers [null]
    for every key and at every time; it leaves the queue of pending
    requests, the promises and the waiting callers as they are; and every
    later course of events of the requests in flight (answers of the
    transport, backoff timers, resumptions, the passing of time) takes place
    as it would without the clearing. *)
Theorem clearCache_keeps_pending w :
  exists w',
    step ClearCache w = Some w'
    /\ (forall key now,
          getCache pcfg key now (optimizerCache w') = (JNull, optimizerCache w'))
    /\ requestQueue w' = requestQueue w
    /\ promises w' = promises w
    /\ callers w' = callers w
    /\ (forall evs,
          forallb (fun ev => negb (isCall ev)) evs = true ->
          sameFate (run evs w) (run evs w')).
Proof.
  eexists. split; [reflexivity|]. cbn. repeat split.
  intros evs Hevs. apply run_sameRequests; [exact Hevs|]. repeat split.
Qed.

End RequestFacts.

(* ================================================================== *)
(** ** Identical requests in flight *)

Module DedupFacts.
Import JS PerformanceOptimizer ApiClient MapFacts CacheFacts KeyFacts CallFacts
       RetryFacts RequestFacts.



Lemma Forall_replaceNth {A : Type} (P : A -> Prop) (n : nat) (x : A) (l : list A) :
  Forall P l -> P x -> Forall P (replaceNth n x l).
Proof.
  intros Hl Hx. revert n. induction Hl as [|y l Hy Hl IH]; intros [|n]; simpl;
    constructor; auto.
Qed.


Section Window.
Variables (endpoint : string) (config : ApiRequestConfig) (w : World).

Let cfg := resolveConfig config.
Let url := baseURL w ++ endpoint.
Let key := cacheKey (eMethod cfg) url (eBody cfg).
Let p := length (promises w).
Let c0 := length (callers w).

Hypothesis Hunique : NoDup (JSMap.keys (optimizerCache w)).
Hypothesis Hmiss : cacheHit cfg key w = false.
Hypothesis Hfree : JSMap.get key (requestQueue w) = None.
Hypothesis Hretries : 1 <= eRetries cfg.


(** The call that starts [executeRequest] opens the window. *)
Lemma window_open : InWindow w url key cfg (call endpoint config w).
Proof.
  rewrite (lone_call endpoint config w Hmiss Hfree Hretries).
  constructor; cbn [baseURL clock optimizerCache requestQueue].
  - reflexivity.
  - lia.
  - intros Hcached.
    rewrite (call_fresh endpoint config w Hmiss Hfree). cbn [optimizerCache].
    fold cfg url key. rewrite Hcached.
    apply (noLiveTruthy_incl pcfg key _ (optimizerCache w)); [apply getCache_incl|].
    apply getCache_noLiveTruthy; [exact Hunique|].
    apply cacheHit_false_iff in Hmiss; auto.
  - apply get_set_same.
  - eexists _, 1%nat, [], _. cbn [setPromise resume promises callers fetchLog].
    repeat split; try reflexivity; try lia.
    + constructor.
    + repeat constructor.
Qed.


End Window.

(** *** N calls, one answer *)

(** Callers that all await the settled promise [p] resume one after the
    other and return its outcome; the owners among them unbind their keys. *)
Lemma resume_all p o ws : forall pre w4,
  nth_error (promises w4) p = Some (Settled o) ->
  callers w4 = (pre ++ ws)%list ->
  Forall (fun st => awaited st = Some p) ws ->
  exists w5,
    run (map Resume (seq (length pre) (length ws))) w4 = Some w5
    /\ callers w5 = (pre ++ repeat (Returned o) (length ws))%list
    /\ promises w5 = promises w4 /\ fetchLog w5 = fetchLog w4
    /\ sleepLog w5 = sleepLog w4
    /\ requestQueue w5 =
       fold_left (fun q st => match st with
                              | AwaitingOwn _ key => JSMap.delete key q
                              | _ => q
                              end) ws (requestQueue w4).
Proof.
  induction ws as [|st ws IH]; intros pre w4 Hp Hcs Hws.
  - exists w4. simpl. rewrite app_nil_r in *. repeat split; auto.
  - inversion Hws as [|? ? Hst Hws']; subst.
    cbn [length seq map run step].
    assert (Hnth : nth_error (callers w4) (length pre) = Some st).
    { rewrite Hcs, nth_error_app2, Nat.sub_diag by lia. reflexivity. }
    rewrite Hnth, Hst, Hp.
    destruct (IH (pre ++ [Returned o])%list (resume (length pre) st o w4))
      as (w5 & Hrun & Hcs5 & Hp5 & Hf5 & Hs5 & Hq5).
    + exact Hp.
    + cbn [callers resume]. rewrite Hcs.
      replace (length pre) with (length pre + 0)%nat at 1 by lia.
      clear. induction pre as [|x pre IHpre]; simpl; [reflexivity|].
      rewrite IHpre. reflexivity.
    + exact Hws'.
    + rewrite length_app in Hrun. cbn [length] in Hrun.
      rewrite Nat.add_1_r in Hrun.
      exists w5. split; [exact Hrun|].
      rewrite Hcs5, <- app_assoc. repeat split; auto.
Qed.

(** Further calls of a request whose key is bound to promise [p], none of
    them served from the cache: each becomes a caller that awaits [p], and
    nothing else changes but, possibly, the cache. *)
Lemma calls_await_pending endpoint config p k : forall w2,
  let cfg := resolveConfig config in
  let key := cacheKey (eMethod cfg) (baseURL w2 ++ endpoint) (eBody cfg) in
  (isGET (eMethod cfg) && eCache cfg = true ->
   noLiveTruthy pcfg key (clock w2) (optimizerCache w2)) ->
  JSMap.get key (requestQueue w2) = Some p ->
  exists w3,
    run (repeat (Call endpoint config) k) w2 = Some w3
    /\ callers w3 = (callers w2 ++ repeat (AwaitingQueued p) k)%list
    /\ promises w3 = promises w2 /\ fetchLog w3 = fetchLog w2
    /\ sleepLog w3 = sleepLog w2 /\ requestQueue w3 = requestQueue w2
    /\ clock w3 = clock w2 /\ baseURL w3 = baseURL w2.
Proof.
  induction k as [|k IH]; intros w2 cfg key Hcache Hqueue.
  - exists w2. simpl. rewrite app_nil_r. repeat split.
  - cbn [repeat run step].
    assert (Hmiss : cacheHit cfg key w2 = false).
    { apply cacheHit_false_iff. intros Hc. apply noLiveTruthy_getCache. auto. }
    rewrite (call_queued endpoint config w2 p Hmiss Hqueue).
    match goal with |- context [run _ ?w] => set (w' := w) end.
    destruct (IH w') as (w3 & Hrun & Hcs & Hp & Hf & Hs & Hq & Hc & Hb).
    + intros Hc. unfold w'. cbn [baseURL clock optimizerCache].
      fold cfg. fold key. fold cfg in Hc. rewrite Hc.
      apply (noLiveTruthy_incl pcfg key _ (optimizerCache w2)); [apply getCache_incl|].
      auto.
    + exact Hqueue.
    + exists w3. split; [exact Hrun|]. rewrite Hcs, Hp, Hf, Hs, Hq, Hc, Hb.
      unfold w'. cbn [callers promises fetchLog sleepLog requestQueue clock baseURL].
      rewrite <- app_assoc. repeat split.
Qed.

Lemma fold_queued p k (q : JSMap.t nat) :
  fold_left (fun q st => match st with
                         | AwaitingOwn _ key => JSMap.delete key q
                         | _ => q
                         end) (repeat (AwaitingQueued p) k) q = q.
Proof. induction k as [|k IH]; simpl; [reflexivity|exact IH]. Qed.

Lemma fetchDone_conclusive p j r o w2 :
  conclusive r = Some o ->
  promises (fetchDone p j r w2) = replaceNth p (Settled o) (promises w2)
  /\ callers (fetchDone p j r w2) = callers w2
  /\ fetchLog (fetchDone p j r w2) = fetchLog w2
  /\ sleepLog (fetchDone p j r w2) = sleepLog w2
  /\ requestQueue (fetchDone p j r w2) = requestQueue w2.
Proof.
  unfold conclusive, fetchDone. destruct (attemptResult r) as [d|e].
  - intros [= <-]. repeat split.
  - destruct (isClientError e); [|discriminate]. intros [= <-]. repeat split.
Qed.

(** X1: N + 1 calls of the same request, made one after the other before the
    transport answers, then an answer that ends the loop (a good answer, or
    a client error), then the resumption of all callers: the transport has
    been called once, every caller has returned the one outcome, and the
    key is unbound again. *)
Theorem n_identical_calls_one_fetch endpoint config w N r o :
  let cfg := resolveConfig config in
  let url := baseURL w ++ endpoint in
  let key := cacheKey (eMethod cfg) url (eBody cfg) in
  let p := length (promises w) in
  let c0 := length (callers w) in
  NoDup (JSMap.keys (optimizerCache w)) ->
  cacheHit cfg key w = false ->
  JSMap.get key (requestQueue w) = None ->
  1 <= eRetries cfg ->
  conclusive r = Some o ->
  exists w',
    run (repeat (Call endpoint config) (S N)
           ++ FetchDone p r :: map Resume (seq c0 (S N))) w = Some w'
    /\ callers w' = (callers w ++ repeat (Returned o) (S N))%list
    /\ promises w' = (promises w ++ [Settled o])%list
    /\ fetchLog w' = (fetchLog w ++ [fetchCall p url cfg 1 (clock w)])%list
    /\ sleepLog w' = sleepLog w
    /\ JSMap.get key (requestQueue w') = None.
Proof.
  intros cfg url key p c0 Hunique Hmiss Hfree Hretries Hr.
  pose proof (window_open endpoint config w Hunique Hmiss Hfree Hretries) as Hwin.
  destruct Hwin as [Hbase _ Hcache Hqueue _]. fold cfg url key p in Hcache, Hqueue.
  cbn [repeat app run step].
  destruct (calls_await_pending endpoint config p N (call endpoint config w))
    as (w2 & Hrun2 & Hcs2 & Hp2 & Hf2 & Hs2 & Hq2 & Hc2 & Hb2).
  { rewrite Hbase. exact Hcache. }
  { rewrite Hbase. exact Hqueue. }
  rewrite run_app, Hrun2. cbn [run step].
  rewrite (lone_call endpoint config w Hmiss Hfree Hretries) in Hcs2, Hp2, Hf2, Hs2, Hq2.
  cbn [callers promises fetchLog sleepLog requestQueue] in Hcs2, Hp2, Hf2, Hs2, Hq2.
  fold cfg url key p in Hcs2, Hp2, Hf2, Hs2, Hq2.
  rewrite Hp2. unfold p at 1. rewrite nth_error_snoc. cbn [jPhase].
  match goal with |- context [fetchDone ?a ?b ?c ?d] =>
    destruct (fetchDone_conclusive a b c o d Hr) as (Hp3 & Hcs3 & Hf3 & Hs3 & Hq3);
    set (w3 := fetchDone a b c d) in *
  end.
  rewrite Hp2 in Hp3. unfold p in Hp3 at 1. rewrite replaceNth_snoc in Hp3.
  destruct (resume_all p o (AwaitingOwn p key :: repeat (AwaitingQueued p) N)
              (callers w) w3)
    as (w5 & Hrun5 & Hcs5 & Hp5 & Hf5 & Hs5 & Hq5).
  { rewrite Hp3. apply nth_error_snoc. }
  { rewrite Hcs3, Hcs2, <- app_assoc. reflexivity. }
  { constructor; [reflexivity|]. apply Forall_forall. intros st Hin.
    apply repeat_spec in Hin. subst. reflexivity. }
  cbn [length] in Hrun5, Hcs5. rewrite repeat_length in Hrun5, Hcs5.
  exists w5. split; [exact Hrun5|].
  rewrite Hcs5, Hp5, Hp3, Hf5, Hf3, Hf2, Hs5, Hs3, Hs2, Hq5.
  cbn [fold_left]. rewrite fold_queued, Hq3, Hq2.
  repeat split. apply (MapFacts.get_delete_same key).
Qed.





Lemma n_identical_calls_one_fetch_witness :
  exists w',
    run (repeat Scenario.getResident1 3
           ++ FetchDone 0 (Responds 200 "OK" (inl Scenario.resident1))
              :: map Resume (seq 0 3)) (newWorld "/api" 0) = Some w'
    /\ callers w' = repeat (Returned (Resolved Scenario.resident1)) 3
    /\ length (fetchLog w') = 1%nat.
Proof.
  destruct (n_identical_calls_one_fetch "/residents/1" Scenario.getResident1Config
              (newWorld "/api" 0) 2 (Responds 200 "OK" (inl Scenario.resident1))
              (Resolved Scenario.resident1)
              (NoDup_nil _) eq_refl eq_refl ltac:(cbv; discriminate) eq_refl)
    as (w' & Hrun & Hcs & _ & Hf & _).
  exists w'. split; [exact Hrun|]. split; [exact Hcs|]. rewrite Hf. reflexivity.
Defined.


End DedupFacts.

(* ================================================================== *)
(** ** The cache as its callers use it: round trip, lazy loader, metrics *)

Module OptimizerFacts.
Import JS PerformanceOptimizer MapFacts CacheFacts.

Section WithConfig.
Variable cfg : CacheConfig.

Lemma setCache_entry key d ttl' now c :
  JSMap.get (keyPrefix cfg ++ key) (setCache cfg key d ttl' now c) =
  Some {| data := d; timestamp := now; itemTtl := cacheTTLOf cfg ttl' |}.
Proof. apply setCache_stores. Qed.

(** X8: what [setCache] has stored, [getCache] returns for the same key
    as long as no more than the time to live has passed, whatever the cache
    held before; later the lookup answers [null] and removes the entry.  A
    missing and a zero [ttl] stand for the configured default. *)
Theorem setCache_then_getCache key d ttl' now now' c :
  let c1 := setCache cfg key d ttl' now c in
  (now' - now <= cacheTTLOf cfg ttl' -> getCache cfg key now' c1 = (d, c1))
  /\ (cacheTTLOf cfg ttl' < now' - now ->
      fst (getCache cfg key now' c1) = JNull
      /\ JSMap.get (keyPrefix cfg ++ key) (snd (getCache cfg key now' c1)) = None)
  /\ cacheTTLOf cfg None = ttl cfg
  /\ cacheTTLOf cfg (Some 0) = ttl cfg.
Proof.
  intros c1. pose proof (setCache_entry key d ttl' now c) as Hget. fold c1 in Hget.
  split; [|split; [|split; reflexivity]].
  - intros Hlive.
    rewrite (getCache_live cfg key now' c1 _ Hget); [reflexivity|exact Hlive].
  - intros Hexp.
    rewrite (getCache_expired cfg key now' c1 _ Hget); [|exact Hexp].
    split; [reflexivity|]. apply get_delete_same.
Qed.

(** X9: after [setCache] the cache holds the entry just written and,
    beside it, only entries that were there before, unchanged, and that
    are not past their time to live. *)
Theorem setCache_keeps_live_entries key d ttl' now c k item :
  In (k, item) (setCache cfg key d ttl' now c) ->
  (k = keyPrefix cfg ++ key
   /\ item = {| data := d; timestamp := now; itemTtl := cacheTTLOf cfg ttl' |})
  \/ (In (k, item) c /\ now - timestamp item <= itemTtl item).
Proof.
  unfold setCache. intros Hin.
  apply in_set in Hin. destruct Hin as [[Hk Hitem]|Hin]; [left; split; assumption|].
  right.
  assert (Hclean : In (k, item) (cleanupCache now c)).
  { destruct (JSMap.size (cleanupCache now c) >=? maxSize cfg); [|exact Hin].
    apply (evictOldest_incl now _ _ Hin). }
  unfold cleanupCache in Hclean. apply filter_In in Hclean.
  destruct Hclean as [Hc Hlive]. split; [exact Hc|].
  unfold expired in Hlive. simpl in Hlive.
  destruct (now - timestamp item >? itemTtl item) eqn:E; [discriminate|].
  rewrite Z.gtb_ltb in E. apply Z.ltb_ge in E. exact E.
Qed.

(** X10: the function of [createLazyLoader], called again after a load,
    returns the loaded value without calling the loader if the value is
    truthy and at most the default time to live has passed since the load;
    it calls the loader again for a falsy value and after that time. *)
Theorem lazy_loader_reuses_loaded_value cacheKey d now now' c :
  let c1 := snd (lazyLoaderLoaded cfg cacheKey (Resolved d) now c) in
  (isTruthy d = true /\ now' - now <= ttl cfg ->
   lazyLoaderCalled cfg cacheKey now' c1 = (ServedFromCache d, c1))
  /\ (isTruthy d = false \/ ttl cfg < now' - now ->
      fst (lazyLoaderCalled cfg cacheKey now' c1) = AwaitsLoader).
Proof.
  intros c1. unfold lazyLoaderLoaded in c1. cbn [snd] in c1.
  pose proof (setCache_entry cacheKey d None now c) as Hget. fold c1 in Hget.
  cbn [cacheTTLOf] in Hget. unfold lazyLoaderCalled.
  split.
  - intros [Htruthy Hlive].
    rewrite (getCache_live cfg cacheKey now' c1 _ Hget) by exact Hlive.
    cbn [fst snd data]. rewrite Htruthy. reflexivity.
  - intros Hor.
    destruct (Z_le_gt_dec (now' - now) (ttl cfg)) as [Hlive|Hexp].
    + destruct Hor as [Hfalsy|Hlate]; [|lia].
      rewrite (getCache_live cfg cacheKey now' c1 _ Hget) by exact Hlive.
      cbn [fst snd data]. rewrite Hfalsy. reflexivity.
    + rewrite (getCache_expired cfg cacheKey now' c1 _ Hget) by (cbn; lia).
      reflexivity.
Qed.

End WithConfig.

Lemma setCache_keeps_live_entries_witness :
  In ("fh_a", {| data := JNum 1; timestamp := 10; itemTtl := 100 |})
     (setCache config "b" (JNum 2) None 50
        [("fh_a", {| data := JNum 1; timestamp := 10; itemTtl := 100 |});
         ("fh_old", {| data := JNum 0; timestamp := 10; itemTtl := 20 |})])
  /\ 50 - 10 <= 100.
Proof.
  assert (Hin : In ("fh_a", {| data := JNum 1; timestamp := 10; itemTtl := 100 |})
                  (setCache config "b" (JNum 2) None 50
                     [("fh_a", {| data := JNum 1; timestamp := 10; itemTtl := 100 |});
                      ("fh_old", {| data := JNum 0; timestamp := 10; itemTtl := 20 |})]))
    by (vm_compute; auto).
  split; [exact Hin|].
  destruct (setCache_keeps_live_entries config "b" (JNum 2) None 50 _ _ _ Hin)
    as [[Hk _]|[_ Hlive]]; [discriminate Hk|exact Hlive].
Defined.

(* ------------------------------------------------------------------ *)
(** *** The list of metrics *)

Section Metrics.
Variable Number : Type.
Variable zero : Number.
Variable placeholderRate : Number.

Lemma slice_last_100 {A : Type} (l : list A) :
  slice (-100) None l = skipn (length l - 100) l.
Proof.
  unfold slice, sliceIndex. cbn [Z.ltb Z.compare].
  replace (Z.to_nat (Z.max (Z.of_nat (length l) + -100) 0)) with (length l - 100)%nat by lia.
  apply firstn_all2. rewrite length_skipn. lia.
Qed.

Lemma recordMetric_last label value usage now (metrics : list (PerformanceMetrics Number)) :
  recordMetric Number zero placeholderRate label value usage now metrics =
  skipn (length metrics + 1 - 100)
        (metrics ++ [metricOf Number zero placeholderRate label value usage now]).
Proof.
  unfold recordMetric.
  set (pushed := (metrics ++ _)%list).
  assert (Hlen : length pushed = (length metrics + 1)%nat)
    by (unfold pushed; rewrite length_app; reflexivity).
  destruct (Z.of_nat (length pushed) >? 100) eqn:E.
  - rewrite slice_last_100, Hlen. reflexivity.
  - rewrite Z.gtb_ltb in E. apply Z.ltb_ge in E.
    replace (length metrics + 1 - 100)%nat with 0%nat by lia. reflexivity.
Qed.

Lemma skipn_skipn_snoc {A : Type} (l : list A) (x : A) :
  skipn (length (skipn (length l - 100) l) + 1 - 100) (skipn (length l - 100) l ++ [x]) =
  skipn (length l + 1 - 100) (l ++ [x]).
Proof.
  rewrite length_skipn.
  destruct (Nat.le_gt_cases (length l) 99) as [Hshort|Hlong].
  - replace (length l - 100)%nat with 0%nat by lia. cbn [skipn].
    rewrite Nat.sub_0_r. reflexivity.
  - replace (length l - (length l - 100) + 1 - 100)%nat with 1%nat by lia.
    replace (length l + 1 - 100)%nat with (1 + (length l - 100))%nat by lia.
    rewrite <- skipn_skipn. f_equal.
    rewrite skipn_app.
    replace (length l - 100 - length l)%nat with 0%nat by lia. reflexivity.
Qed.

Lemma recordMetrics_from calls : forall (recorded : list (PerformanceMetrics Number)),
  recordMetrics Number zero placeholderRate calls
    (skipn (length recorded - 100) recorded)
  = skipn (length recorded + length calls - 100)
          (recorded ++ map (metricOfCall Number zero placeholderRate) calls).
Proof.
  induction calls as [|[[[label value] usage] now] calls IH]; intros recorded.
  - cbn [recordMetrics fold_left map length]. rewrite app_nil_r, Nat.add_0_r. reflexivity.
  - cbn [recordMetrics fold_left]. rewrite recordMetric_last, skipn_skipn_snoc.
    set (m := metricOf Number zero placeholderRate label value usage now).
    specialize (IH (recorded ++ [m])%list).
    rewrite length_app in IH. cbn [length] in IH.
    unfold recordMetrics in IH. rewrite IH.
    cbn [map length metricOfCall]. fold m. rewrite <- app_assoc. cbn [app].
    f_equal. lia.
Qed.

(** X11: after any sequence of calls of [recordMetric] on the empty list,
    the list of metrics holds the metrics of the last 100 calls, oldest
    first, and of all the calls while there are no more than 100. *)
Theorem recordMetrics_keeps_latest_100 (calls : list (MetricCall Number)) :
  let metrics := recordMetrics Number zero placeholderRate calls [] in
  metrics = skipn (length calls - 100) (map (metricOfCall Number zero placeholderRate) calls)
  /\ length metrics = Nat.min (length calls) 100.
Proof.
  intros metrics.
  assert (H : metrics =
              skipn (length calls - 100)
                    (map (metricOfCall Number zero placeholderRate) calls)).
  { unfold metrics. exact (recordMetrics_from calls []). }
  split; [exact H|].
  rewrite H, length_skipn, length_map. lia.
Qed.

End Metrics.

End OptimizerFacts.

(* ================================================================== *)
(** ** [memoize] and the virtual scroller *)

Module ComponentFacts.
Import JS ComponentOptimizer MapFacts.

Section Memoize.
Variable R : Type.
Variable fn : list JSValue -> R + Thrown.

Section AnyKey.
Variable keyFn : option (list JSValue -> string).

(** A cached result stays where it is. *)
Lemma memoized_keeps args m k r :
  JSMap.get k (memoCache R (snd (memoized R fn keyFn args m))) = Some r
  <-> JSMap.get k (memoCache R m) = Some r
      \/ (JSMap.get (memoKey keyFn args) (memoCache R m) = None
          /\ k = memoKey keyFn args /\ fn args = inl r).
Proof.
  unfold memoized.
  destruct (JSMap.get (memoKey keyFn args) (memoCache R m)) as [r0|] eqn:Hget.
  - cbn [snd]. split; [auto|]. intros [H|(H & _)]; [exact H|discriminate].
  - destruct (fn args) as [result|e] eqn:Hfn; cbn [snd memoCache].
    + destruct (string_dec k (memoKey keyFn args)) as [->|Hne].
      * rewrite get_set_same. split.
        -- intros [= ->]. right. auto.
        -- intros [H|(_ & _ & [= ->])]; [congruence|reflexivity].
      * rewrite (get_set_other _ _ _ _ Hne). split; [auto|].
        intros [H|(_ & Hk & _)]; [exact H|contradiction].
    + split; [auto|]. intros [H|(_ & _ & H)]; [exact H|discriminate].
Qed.

Lemma memoizedAll_keeps calls : forall m k r,
  JSMap.get k (memoCache R m) = Some r ->
  JSMap.get k (memoCache R (snd (memoizedAll R fn keyFn calls m))) = Some r.
Proof.
  induction calls as [|args calls IH]; intros m k r Hget; [exact Hget|].
  cbn [memoizedAll].
  destruct (memoized R fn keyFn args m) as [r1 m1] eqn:E1.
  destruct (memoizedAll R fn keyFn calls m1) as [rs m2] eqn:E2.
  cbn [snd]. change m2 with (snd (rs, m2)). rewrite <- E2. apply IH.
  change m1 with (snd (r1, m1)). rewrite <- E1.
  apply memoized_keeps. left. exact Hget.
Qed.

(** X12: once a call has returned a result, every later call whose
    arguments have the same key returns that result and does not call
    [fn], whatever calls were made in between and whether or not the
    arguments are the same. *)
Theorem memoize_same_key_same_result args1 args2 calls m r :
  fst (memoized R fn keyFn args1 m) = inl r ->
  memoKey keyFn args2 = memoKey keyFn args1 ->
  let m1 := snd (memoized R fn keyFn args1 m) in
  let m2 := snd (memoizedAll R fn keyFn calls m1) in
  memoized R fn keyFn args2 m2 = (inl r, m2).
Proof.
  intros Hres Hkey m1 m2.
  assert (H1 : JSMap.get (memoKey keyFn args1) (memoCache R m1) = Some r).
  { unfold m1. unfold memoized in *.
    destruct (JSMap.get (memoKey keyFn args1) (memoCache R m)) as [r0|] eqn:Hget.
    - cbn [fst snd] in *. congruence.
    - destruct (fn args1) as [result|e]; cbn [fst snd memoCache] in *; [|discriminate].
      rewrite get_set_same. congruence. }
  assert (H2 : JSMap.get (memoKey keyFn args2) (memoCache R m2) = Some r).
  { rewrite Hkey. unfold m2. apply memoizedAll_keeps. exact H1. }
  unfold memoized. rewrite H2. reflexivity.
Qed.

End AnyKey.




End Memoize.

(** [memoize(f)] called with [null] and then with [undefined]: both
    argument lists have the key [[null]], and the second call returns the
    result of the first. *)
Lemma memoize_same_key_same_result_witness :
  let f := fun args : list JSValue =>
             match args with
             | [JNull] => @inl Z Thrown 1
             | _ => inl 2
             end in
  f [JUndefined] = inl 2
  /\ fst (memoized Z f None [JUndefined]
            (snd (memoized Z f None [JNull] (newMemo Z)))) = inl 1.
Proof.
  intros f. split; [reflexivity|].
  exact (f_equal fst
           (memoize_same_key_same_result Z f None [JNull] [JUndefined] []
              (newMemo Z) 1 eq_refl eq_refl)).
Defined.


(* ------------------------------------------------------------------ *)
(** *** The virtual scroller *)

Section Scroller.
Context {A : Type}.
Variable items : list A.
Variables itemHeight containerHeight scrollTop : Z.
Hypothesis Hitem : 0 < itemHeight.
Hypothesis Hcontainer : 0 <= containerHeight.
Hypothesis Hscroll : 0 <= scrollTop.

Lemma ceilDiv_spec :
  containerHeight <= ceilDiv containerHeight itemHeight * itemHeight
  /\ ceilDiv containerHeight itemHeight * itemHeight < containerHeight + itemHeight
  /\ 0 <= ceilDiv containerHeight itemHeight.
Proof.
  unfold ceilDiv.
  pose proof (Z.div_mod (- containerHeight) itemHeight ltac:(lia)) as Hdm.
  pose proof (Z.mod_pos_bound (- containerHeight) itemHeight Hitem) as Hmod.
  nia.
Qed.

Lemma floorDiv_spec :
  floorDiv scrollTop itemHeight * itemHeight <= scrollTop
  /\ scrollTop < floorDiv scrollTop itemHeight * itemHeight + itemHeight
  /\ 0 <= floorDiv scrollTop itemHeight.
Proof.
  unfold floorDiv.
  pose proof (Z.div_mod scrollTop itemHeight ltac:(lia)) as Hdm.
  pose proof (Z.mod_pos_bound scrollTop itemHeight Hitem) as Hmod.
  pose proof (Z.div_pos scrollTop itemHeight Hscroll Hitem).
  nia.
Qed.

(** X14: for a positive item height and a scroll position that is not
    negative, [getVisibleItems] returns the items with the indices from
    [startIndex] up to [endIndex], at most [visibleCount] of them; the
    first is the item under the scroll position, and [endIndex] is never
    past the end of the list. *)
Theorem getVisibleItems_window :
  exists v,
    getVisibleItems items itemHeight containerHeight scrollTop = Some v
    /\ offsetY v <= scrollTop < offsetY v + itemHeight
    /\ offsetY v = startIndex v * itemHeight
    /\ endIndex v <= Z.of_nat (length items)
    /\ Z.of_nat (length (visible v)) = Z.max 0 (endIndex v - startIndex v)
    /\ Z.of_nat (length (visible v)) <= visibleCount itemHeight containerHeight
    /\ forall i : nat,
         startIndex v + Z.of_nat i < endIndex v ->
         nth_error (visible v) i = nth_error items (Z.to_nat (startIndex v) + i).
Proof.
  unfold getVisibleItems.
  replace (itemHeight =? 0) with false by (symmetry; apply Z.eqb_neq; lia).
  eexists. split; [reflexivity|].
  cbn [offsetY startIndex endIndex visible].
  destruct floorDiv_spec as (Hlo & Hhi & Hnonneg).
  destruct ceilDiv_spec as (_ & _ & Hcount).
  unfold visibleCount.
  set (start := floorDiv scrollTop itemHeight) in *.
  set (count := ceilDiv containerHeight itemHeight) in *.
  set (len := Z.of_nat (length items)).
  set (stop := Z.min (start + count) len).
  assert (Hslice : slice start (Some stop) items =
                   firstn (Z.to_nat (stop - Z.min start len))
                          (skipn (Z.to_nat (Z.min start len)) items)).
  { unfold slice, sliceIndex. fold len.
    replace (start <? 0) with false by (symmetry; apply Z.ltb_ge; lia).
    replace (stop <? 0) with false by (symmetry; apply Z.ltb_ge; unfold stop, len; lia).
    replace (Z.min stop len) with stop by (unfold stop; lia). reflexivity. }
  rewrite Hslice.
  assert (Hlen : Z.of_nat (length (firstn (Z.to_nat (stop - Z.min start len))
                                     (skipn (Z.to_nat (Z.min start len)) items)))
                 = Z.max 0 (stop - start)).
  { rewrite length_firstn, length_skipn. unfold stop, len in *. lia. }
  repeat split; try lia.
  intros i Hi.
  rewrite nth_error_firstn.
  replace (i <? Z.to_nat (stop - Z.min start len))%nat with true
    by (symmetry; apply Nat.ltb_lt; unfold stop, len in *; lia).
  rewrite nth_error_skipn. f_equal. unfold stop, len in *. lia.
Qed.

(** X15: when the scroll position is a multiple of the item height, every
    item of which some pixel row lies in the viewport is among the items
    returned. *)
Theorem aligned_scroll_covers_viewport (i : Z) :
  scrollTop mod itemHeight = 0 ->
  0 <= i < Z.of_nat (length items) ->
  i * itemHeight < scrollTop + containerHeight ->
  scrollTop < (i + 1) * itemHeight ->
  exists v,
    getVisibleItems items itemHeight containerHeight scrollTop = Some v
    /\ startIndex v <= i < endIndex v.
Proof.
  intros Haligned Hi Htop Hbottom.
  unfold getVisibleItems.
  replace (itemHeight =? 0) with false by (symmetry; apply Z.eqb_neq; lia).
  eexists. split; [reflexivity|].
  cbn [startIndex endIndex]. unfold visibleCount.
  destruct ceilDiv_spec as (Hceil & _ & _).
  pose proof (Z.div_mod scrollTop itemHeight ltac:(lia)) as Hdm.
  rewrite Haligned in Hdm. unfold floorDiv.
  set (start := scrollTop / itemHeight) in *.
  set (count := ceilDiv containerHeight itemHeight) in *.
  nia.
Qed.

End Scroller.

Lemma aligned_scroll_covers_viewport_witness :
  exists v,
    getVisibleItems ["a"; "b"; "c"; "d"; "e"] 10 25 20 = Some v
    /\ startIndex v <= 4 < endIndex v.
Proof.
  apply (aligned_scroll_covers_viewport ["a"; "b"; "c"; "d"; "e"] 10 25 20
           ltac:(lia) ltac:(lia) ltac:(lia) 4 eq_refl);
    cbn [length]; lia.
Defined.

Lemma getVisibleItems_window_witness :
  exists v,
    getVisibleItems ["a"; "b"; "c"; "d"; "e"] 10 25 15 = Some v
    /\ visible v = ["b"; "c"; "d"].
Proof.
  destruct (getVisibleItems_window ["a"; "b"; "c"; "d"; "e"] 10 25 15
              ltac:(lia) ltac:(lia) ltac:(lia)) as (v & Hv & _).
  exists v. split; [exact Hv|].
  vm_compute in Hv. injection Hv as <-. reflexivity.
Defined.

End ComponentFacts.

(* ================================================================== *)
(** ** [retryRequest] and [deduplicateRequest] *)

Module NetworkFacts.
Import JS NetworkOptimizer MapFacts CallFacts.
Import ApiClient (replaceNth).

Section RetryRequest.
Variable requestFn : nat -> Outcome.
Variable maxRetries : Z.
Variable delay : Z.

(** [m] failures in a row, each followed by its wait. *)
Lemma retryLoop_failures errors m : forall remaining i before sleeps,
  (forall j, (i <= j < i + m)%nat -> requestFn j = Rejected (errors j)) ->
  Z.of_nat (i + m) <= Z.max (maxRetries - 1) (Z.of_nat i) ->
  retryLoop requestFn maxRetries delay (m + remaining) i before sleeps =
  retryLoop requestFn maxRetries delay remaining (i + m) (lastOf errors i m before)
    (sleeps ++ map (fun j => delay * 2 ^ Z.of_nat j) (seq i m)).
Proof.
  induction m as [|m IH]; intros remaining i before sleeps Hfail Hbound.
  - cbn [lastOf seq map Nat.add]. rewrite Nat.add_0_r, app_nil_r. reflexivity.
  - cbn [Nat.add retryLoop]. rewrite (Hfail i) by lia.
    replace (Z.of_nat i <? maxRetries - 1) with true
      by (symmetry; apply Z.ltb_lt; lia).
    rewrite (IH remaining (S i)).
    + cbn [seq map]. rewrite <- app_assoc. cbn [app].
      replace (S i + m)%nat with (i + S m)%nat by lia.
      f_equal. destruct m as [|m']; cbn [lastOf]; f_equal; lia.
    + intros j Hj. apply Hfail. lia.
    + lia.
Qed.

Lemma sum_of_waits k :
  fold_right Z.add 0 (map (fun j => delay * 2 ^ Z.of_nat j) (seq 0 k)) =
  delay * (2 ^ Z.of_nat k - 1).
Proof.
  induction k as [|k IH]; [simpl; lia|].
  rewrite seq_S, map_app, fold_right_app. cbn [map fold_right Nat.add].
  assert (Hgen : forall (l : list Z) (a : Z),
            fold_right Z.add a l = fold_right Z.add 0 l + a).
  { induction l as [|x l IHl]; intros a; cbn [fold_right]; [lia|].
    rewrite (IHl a). lia. }
  rewrite Hgen, IH.
  rewrite Nat2Z.inj_succ, Z.pow_succ_r by lia. lia.
Qed.

(** X16: when the first [k] calls of [requestFn] fail and the next one
    succeeds within the [maxRetries] calls allowed, [retryRequest] returns
    the value of that call after [k + 1] calls, having waited [delay],
    [2 * delay], ..., [2^(k-1) * delay] between them, [(2^k - 1) * delay]
    in all. *)
Theorem retryRequest_first_success (errors : nat -> Thrown) (k : nat) (v : JSValue) :
  Z.of_nat k < maxRetries ->
  (forall j, (j < k)%nat -> requestFn j = Rejected (errors j)) ->
  requestFn k = Resolved v ->
  let run := retryRequest requestFn maxRetries delay in
  retryOutcome run = Resolved v
  /\ requestCalls run = S k
  /\ retrySleeps run = map (fun j => delay * 2 ^ Z.of_nat j) (seq 0 k)
  /\ fold_right Z.add 0 (retrySleeps run) = delay * (2 ^ Z.of_nat k - 1).
Proof.
  intros Hk Hfail Hok run.
  assert (Hrun : run =
            {| retryOutcome := Resolved v; requestCalls := S k;
               retrySleeps := map (fun j => delay * 2 ^ Z.of_nat j) (seq 0 k) |}).
  { unfold run, retryRequest.
    replace (Z.to_nat maxRetries) with (k + S (Z.to_nat maxRetries - S k))%nat by lia.
    rewrite (retryLoop_failures errors k); [|intros j Hj; apply Hfail; lia|lia].
    cbn [Nat.add retryLoop app]. rewrite Hok. reflexivity. }
  rewrite Hrun. cbn [retryOutcome requestCalls retrySleeps].
  repeat split. apply sum_of_waits.
Qed.

(** X17: when every call of [requestFn] fails, [retryRequest] rejects
    with the error of the last of [maxRetries] calls, having waited after
    every call but the last; for a [maxRetries] below 1 it rejects with
    [undefined] without calling [requestFn] at all. *)
Theorem retryRequest_exhausted (errors : nat -> Thrown) :
  (forall j, requestFn j = Rejected (errors j)) ->
  let run := retryRequest requestFn maxRetries delay in
  (1 <= maxRetries ->
   retryOutcome run = Rejected (errors (Z.to_nat maxRetries - 1)%nat)
   /\ requestCalls run = Z.to_nat maxRetries
   /\ retrySleeps run =
      map (fun j => delay * 2 ^ Z.of_nat j) (seq 0 (Z.to_nat maxRetries - 1)))
  /\ (maxRetries <= 0 ->
      retryOutcome run = Rejected ThrownUndefined
      /\ requestCalls run = 0%nat /\ retrySleeps run = []).
Proof.
  intros Hfail run. split.
  - intros Hmax. unfold run, retryRequest.
    set (n := Z.to_nat maxRetries).
    assert (Hrun : retryLoop requestFn maxRetries delay n 0 ThrownUndefined [] =
              {| retryOutcome := Rejected (errors (n - 1)%nat); requestCalls := n;
                 retrySleeps :=
                   map (fun j => delay * 2 ^ Z.of_nat j) (seq 0 (n - 1)) |}).
    { replace n with ((n - 1) + 1)%nat at 1 by lia.
      rewrite (retryLoop_failures errors (n - 1)); [|intros j _; apply Hfail|lia].
      cbn [Nat.add retryLoop app]. rewrite Hfail.
      replace (Z.of_nat (n - 1) <? maxRetries - 1) with false
        by (symmetry; apply Z.ltb_ge; lia).
      cbn [retryLoop]. f_equal. lia. }
    rewrite Hrun. repeat split.
  - intros Hmax. unfold run, retryRequest.
    replace (Z.to_nat maxRetries) with 0%nat by lia.
    repeat split.
Qed.

End RetryRequest.

Lemma retryRequest_first_success_witness :
  let requestFn := fun i : nat =>
                     if (i <? 2)%nat then Rejected (ThrownError "Failed to fetch")
                     else Resolved (JNum 7) in
  retryRequest requestFn 3 1000 =
  {| retryOutcome := Resolved (JNum 7); requestCalls := 3; retrySleeps := [1000; 2000] |}.
Proof.
  intros requestFn.
  destruct (retryRequest_first_success requestFn 3 1000
              (fun _ => ThrownError "Failed to fetch") 2 (JNum 7))
    as (Ho & Hc & Hs & _).
  - lia.
  - intros j Hj. unfold requestFn.
    replace (j <? 2)%nat with true by (symmetry; apply Nat.ltb_lt; exact Hj).
    reflexivity.
  - reflexivity.
  - destruct (retryRequest requestFn 3 1000) as [o c s].
    cbn [retryOutcome requestCalls retrySleeps] in *. subst. reflexivity.
Defined.

Lemma retryRequest_exhausted_witness :
  retryOutcome (retryRequest (fun _ => Rejected (ThrownError "Failed to fetch")) 0 1000)
  = Rejected ThrownUndefined.
Proof.
  exact (proj1 (proj2 (retryRequest_exhausted
                         (fun _ => Rejected (ThrownError "Failed to fetch")) 0 1000
                         (fun _ => ThrownError "Failed to fetch")
                         (fun _ => eq_refl))
                  ltac:(lia))).
Defined.

(* ------------------------------------------------------------------ *)
(** *** [deduplicateRequest] *)

Section DeduplicateRequest.
Variable key : string.

Lemma cleaned_nth done p x :
  Forall (fun x => exists o, x = CleanedUp o) done ->
  nth_error done p = Some x -> exists o, x = CleanedUp o.
Proof.
  intros Hall Hnth. rewrite Forall_forall in Hall.
  apply Hall. eapply nth_error_In. exact Hnth.
Qed.

Lemma nth_error_busy done (newest x : Shared) p :
  Forall (fun x => exists o, x = CleanedUp o) done ->
  nth_error (done ++ [newest]) p = Some x ->
  (forall o, x <> CleanedUp o) ->
  p = length done /\ x = newest.
Proof.
  intros Hall Hnth Hx.
  destruct (Nat.lt_ge_cases p (length done)) as [Hlt|Hge].
  - rewrite nth_error_app1 in Hnth by exact Hlt.
    destruct (cleaned_nth _ _ _ Hall Hnth) as [o ->]. exfalso. exact (Hx o eq_refl).
  - rewrite nth_error_app2 in Hnth by exact Hge.
    destruct (p - length done)%nat as [|d] eqn:Hd; cbn in Hnth.
    + injection Hnth as <-. split; [lia|reflexivity].
    + destruct d; discriminate.
Qed.

Lemma tidy_step ev s s' : Tidy key s -> dedupStep key ev s = Some s' -> Tidy key s'.
Proof.
  intros Hs Hstep. destruct Hs as [done handed Hdone|done newest handed Hdone Hnew].
  - destruct ev as [|p o|p]; cbn in Hstep.
    + injection Hstep as <-. apply (TidyBusy key done InFlight); auto.
    + destruct (nth_error done p) as [x|] eqn:Hnth; [|discriminate].
      destruct (cleaned_nth _ _ _ Hdone Hnth) as [o' ->]. discriminate.
    + destruct (nth_error done p) as [x|] eqn:Hnth; [|discriminate].
      destruct (cleaned_nth _ _ _ Hdone Hnth) as [o' ->]. discriminate.
  - destruct ev as [|p o|p]; cbn [dedupStep pendingRequests sharedRequests handedOut] in Hstep.
    + cbn [JSMap.get] in Hstep. rewrite String.eqb_refl in Hstep.
      injection Hstep as <-. apply TidyBusy; assumption.
    + destruct (nth_error (done ++ [newest]) p) as [x|] eqn:Hnth; [|discriminate].
      destruct x as [|o'|o']; try discriminate.
      destruct (nth_error_busy _ _ _ _ Hdone Hnth ltac:(discriminate)) as [-> _].
      injection Hstep as <-. rewrite replaceNth_snoc.
      apply TidyBusy; [assumption|right; eauto].
    + destruct (nth_error (done ++ [newest]) p) as [x|] eqn:Hnth; [|discriminate].
      destruct x as [|o'|o']; try discriminate.
      destruct (nth_error_busy _ _ _ _ Hdone Hnth ltac:(discriminate)) as [-> _].
      injection Hstep as <-. rewrite replaceNth_snoc.
      cbn [JSMap.delete filter fst]. rewrite String.eqb_refl. cbn [negb].
      apply TidyIdle. apply Forall_app. split; [assumption|].
      constructor; [eauto|constructor].
Qed.

Lemma tidy_run evs : forall s s',
  Tidy key s -> dedupRun key evs s = Some s' -> Tidy key s'.
Proof.
  induction evs as [|ev evs IH]; intros s s' Hs Hrun; cbn in Hrun.
  - injection Hrun as <-. exact Hs.
  - destruct (dedupStep key ev s) as [s1|] eqn:Hstep; [|discriminate].
    exact (IH _ _ (tidy_step _ _ _ Hs Hstep) Hrun).
Qed.

Lemma tidy_in_flight s :
  Tidy key s -> (length (filter inFlight (sharedRequests s)) <= 1)%nat.
Proof.
  assert (Hnone : forall done,
            Forall (fun x => exists o, x = CleanedUp o) done ->
            filter inFlight done = []).
  { induction 1 as [|x done [o ->] _ IH]; [reflexivity|]. cbn. exact IH. }
  intros [done handed Hdone|done newest handed Hdone Hnew]; cbn [sharedRequests].
  - rewrite (Hnone _ Hdone). cbn. lia.
  - rewrite filter_app, (Hnone _ Hdone). cbn.
    destruct (inFlight newest); cbn; lia.
Qed.

(** Further calls once the [Map] holds promise [p]. *)
Lemma calls_join p n : forall s,
  JSMap.get key (pendingRequests s) = Some p ->
  dedupRun key (repeat DedupCall n) s =
  Some {| pendingRequests := pendingRequests s; sharedRequests := sharedRequests s;
          handedOut := (handedOut s ++ repeat p n)%list |}.
Proof.
  induction n as [|n IH]; intros s Hget.
  - cbn. rewrite app_nil_r. destruct s; reflexivity.
  - cbn [repeat dedupRun dedupStep]. rewrite Hget, IH by exact Hget.
    cbn [pendingRequests sharedRequests handedOut].
    rewrite <- app_assoc. reflexivity.
Qed.

(** X18: in every state that the function returned by
    [deduplicateRequest] reaches, at most one of the promises started by
    [requestFn] is in flight; and any number of calls in a row start at
    most one call of [requestFn] and are all handed the same promise. *)
Theorem deduplicateRequest_single_flight evs s n :
  dedupRun key evs (newDedup) = Some s ->
  (length (filter inFlight (sharedRequests s)) <= 1)%nat
  /\ exists s' p,
       dedupRun key (repeat DedupCall (S n)) s = Some s'
       /\ handedOut s' = (handedOut s ++ repeat p (S n))%list
       /\ (length (sharedRequests s') <= S (length (sharedRequests s)))%nat.
Proof.
  intros Hrun.
  assert (Hs : Tidy key s).
  { apply (tidy_run evs newDedup s); [|exact Hrun]. apply TidyIdle. constructor. }
  split; [exact (tidy_in_flight s Hs)|].
  cbn [repeat dedupRun]. unfold dedupStep at 1.
  destruct (JSMap.get key (pendingRequests s)) as [p|] eqn:Hget.
  - eexists. exists p.
    rewrite (calls_join p n) by (cbn [pendingRequests]; exact Hget).
    split; [reflexivity|]. cbn [pendingRequests sharedRequests handedOut].
    rewrite <- app_assoc. split; [reflexivity|lia].
  - eexists. exists (length (sharedRequests s)).
    rewrite (calls_join (length (sharedRequests s)) n)
      by (cbn [pendingRequests]; apply get_set_same).
    split; [reflexivity|]. cbn [pendingRequests sharedRequests handedOut].
    rewrite <- app_assoc, length_app. split; [reflexivity|cbn; lia].
Qed.

End DeduplicateRequest.

Lemma deduplicateRequest_single_flight_witness :
  exists s' p,
    dedupRun "k" [DedupCall; DedupCall; DedupCall]
      {| pendingRequests := []; sharedRequests := [CleanedUp (Resolved (JNum 1))];
         handedOut := [0%nat; 0%nat] |} = Some s'
    /\ handedOut s' = ([0; 0] ++ [p; p; p])%nat%list.
Proof.
  destruct (deduplicateRequest_single_flight "k"
              [DedupCall; DedupCall; DedupSettle 0 (Resolved (JNum 1)); DedupFinally 0]
              {| pendingRequests := []; sharedRequests := [CleanedUp (Resolved (JNum 1))];
                 handedOut := [0%nat; 0%nat] |} 2 eq_refl)
    as (_ & s' & p & Hrun & Hhanded & _).
  exists s', p. split; [exact Hrun|exact Hhanded].
Defined.

End NetworkFacts.

(* ================================================================== *)
(** ** Timers *)

Module TimerFacts.
Import Timers.

Section Facts.
Context {A : Type}.

Lemma length_retire id (ts : Timers.t A) : length (retire id ts) = length ts.
Proof.
  revert id. induction ts as [|tm ts IH]; intros [|id]; simpl; auto.
Qed.



Lemma retire_snoc (ts : Timers.t A) tm :
  retire (length ts) (ts ++ [tm])%list =
  (ts ++ [{| due := due tm; payload := payload tm; live := false |}])%list.
Proof.
  induction ts as [|y ts IH]; cbn; [reflexivity|]. rewrite IH. reflexivity.
Qed.

Lemma Forall_retire (P : Timer A -> Prop) id (ts : Timers.t A) :
  Forall P ts ->
  (forall tm, P tm -> P {| due := due tm; payload := payload tm; live := false |}) ->
  Forall P (retire id ts).
Proof.
  intros Hall Hdead. revert id.
  induction Hall as [|tm ts Htm Hall IH]; intros [|id]; simpl; constructor; auto.
Qed.

Lemma Forall_clearTimeout (P : Timer A -> Prop) id (ts : Timers.t A) :
  Forall P ts ->
  (forall tm, P tm -> P {| due := due tm; payload := payload tm; live := false |}) ->
  Forall P (clearTimeout id ts).
Proof.
  intros Hall Hdead. destruct id as [i|]; [apply Forall_retire; assumption|exact Hall].
Qed.

Lemma length_clearTimeout id (ts : Timers.t A) :
  length (clearTimeout id ts) = length ts.
Proof. destruct id; [apply length_retire|reflexivity]. Qed.

Lemma ready_some id now (ts : Timers.t A) x :
  ready id now ts = Some x ->
  exists tm,
    nth_error ts id = Some tm /\ live tm = true /\ due tm <= now /\ payload tm = x.
Proof.
  unfold ready. destruct (nth_error ts id) as [tm|]; [|discriminate].
  destruct (live tm) eqn:Hlive; [|discriminate]. cbn [andb].
  destruct (due tm <=? now) eqn:Hdue; [|discriminate].
  intros [= <-]. exists tm. apply Z.leb_le in Hdue. auto.
Qed.


End Facts.
End TimerFacts.

(* ================================================================== *)
(** ** [debounceQuery] and [throttleQuery] *)

Module QueryFacts.
Import JS QueryOptimizer TimerFacts CallFacts.
Import ApiClient (replaceNth).

Lemma resolvePromise_other i j v ps :
  i <> j -> nth_error (resolvePromise j v ps) i = nth_error ps i.
Proof.
  intros Hne. unfold resolvePromise.
  destruct (nth_error ps j) as [[w|]|]; try reflexivity.
  apply nth_error_replaceNth_other. congruence.
Qed.

Lemma length_resolvePromise j v ps : length (resolvePromise j v ps) = length ps.
Proof.
  unfold resolvePromise.
  destruct (nth_error ps j) as [[w|]|]; try reflexivity. apply length_replaceNth.
Qed.

Lemma nth_error_pending {B : Type} (ps : list B) i x :
  nth_error ps i = Some x -> (i < length ps)%nat.
Proof. intros H. apply nth_error_Some. congruence. Qed.

Section DebounceQuery.
Variable delay : Z.

Lemma inRange_step ev s s' :
  inRange s -> debouncedStep delay ev s = Some s' -> inRange s'.
Proof.
  intros [Ht Hq] Hstep.
  assert (Hgrow : forall (x : option JSValue),
            Forall (fun tm => (Timers.payload tm < length (dqPromises s ++ [x]))%nat)
                   (Timers.clearTimeout (dqTimeoutId s) (dqTimers s))
            /\ Forall (fun q => forall i, q = Running i ->
                                (i < length (dqPromises s ++ [x]))%nat) (dqQueries s)).
  { intros x. rewrite length_app. cbn [length]. split.
    - apply Forall_clearTimeout; [|intros tm H; exact H].
      eapply Forall_impl; [|exact Ht]. cbn. intros tm H. lia.
    - eapply Forall_impl; [|exact Hq]. cbn. intros q H i Hi.
      specialize (H i Hi). lia. }
  destruct ev as [|id|q v|q|d]; cbn [debouncedStep] in Hstep.
  - destruct (isTruthy (dqCachedResult s)); injection Hstep as <-;
      unfold inRange; cbn [dqTimers dqPromises dqQueries].
    + apply Hgrow.
    + destruct (Hgrow None) as [Ht1 Hq1]. split; [|exact Hq1].
      unfold Timers.setTimeout. apply Forall_app. split; [exact Ht1|].
      constructor; [|constructor]. cbn [Timers.payload].
      rewrite length_app. cbn. lia.
  - destruct (Timers.ready id (dqClock s) (dqTimers s)) as [i|] eqn:Hready; [|discriminate].
    injection Hstep as <-. unfold inRange; cbn [dqTimers dqPromises dqQueries].
    apply ready_some in Hready. destruct Hready as (tm & Hnth & _ & _ & Hpay).
    split.
    + apply Forall_retire; [exact Ht|intros tm0 H; exact H].
    + apply Forall_app. split; [exact Hq|].
      constructor; [|constructor]. intros j [= <-].
      rewrite Forall_forall in Ht. apply nth_error_In in Hnth.
      specialize (Ht _ Hnth). cbn in Ht. rewrite Hpay in Ht. exact Ht.
  - destruct (nth_error (dqQueries s) q) as [[i|]|] eqn:Hnth; try discriminate.
    injection Hstep as <-. unfold inRange; cbn [dqTimers dqPromises dqQueries].
    rewrite length_resolvePromise. split; [exact Ht|].
    apply DedupFacts.Forall_replaceNth; [exact Hq|]. intros j H. discriminate H.
  - destruct (nth_error (dqQueries s) q) as [[i|]|] eqn:Hnth; try discriminate.
    injection Hstep as <-. unfold inRange; cbn [dqTimers dqPromises dqQueries].
    split; [exact Ht|].
    apply DedupFacts.Forall_replaceNth; [exact Hq|]. intros j H. discriminate H.
  - destruct (0 <=? d); [|discriminate]. injection Hstep as <-. split; assumption.
Qed.

Lemma inRange_run evs : forall s s',
  inRange s -> debouncedRun delay evs s = Some s' -> inRange s'.
Proof.
  induction evs as [|ev evs IH]; intros s s' Hs Hrun; cbn in Hrun.
  - injection Hrun as <-. exact Hs.
  - destruct (debouncedStep delay ev s) as [s1|] eqn:Hstep; [|discriminate].
    exact (IH _ _ (inRange_step _ _ _ Hs Hstep) Hrun).
Qed.

Lemma abandoned_step i ev s s' :
  abandoned i s -> debouncedStep delay ev s = Some s' -> abandoned i s'.
Proof.
  intros (Hp & Ht & Hq) Hstep.
  pose proof (nth_error_pending _ _ _ Hp) as Hi.
  assert (Hclear : Forall (fun tm => Timers.live tm = true -> Timers.payload tm <> i)
                          (Timers.clearTimeout (dqTimeoutId s) (dqTimers s))).
  { apply Forall_clearTimeout; [exact Ht|]. cbn. intros tm _ H. discriminate H. }
  destruct ev as [|id|q v|q|d]; cbn [debouncedStep] in Hstep.
  - destruct (isTruthy (dqCachedResult s)); injection Hstep as <-;
      unfold abandoned; cbn [dqTimers dqPromises dqQueries];
      rewrite nth_error_app1 by exact Hi.
    + auto.
    + split; [exact Hp|]. split; [|exact Hq].
      unfold Timers.setTimeout. apply Forall_app. split; [exact Hclear|].
      constructor; [|constructor]. cbn. intros _. lia.
  - destruct (Timers.ready id (dqClock s) (dqTimers s)) as [j|] eqn:Hready; [|discriminate].
    injection Hstep as <-. unfold abandoned; cbn [dqTimers dqPromises dqQueries].
    apply ready_some in Hready. destruct Hready as (tm & Hnth & Hlive & _ & Hpay).
    split; [exact Hp|]. split.
    + apply Forall_retire; [exact Ht|]. cbn. intros tm0 _ H. discriminate H.
    + apply Forall_app. split; [exact Hq|].
      constructor; [|constructor]. intros [= <-].
      rewrite Forall_forall in Ht. apply nth_error_In in Hnth.
      exact (Ht _ Hnth Hlive Hpay).
  - destruct (nth_error (dqQueries s) q) as [[j|]|] eqn:Hnth; try discriminate.
    injection Hstep as <-. unfold abandoned; cbn [dqTimers dqPromises dqQueries].
    assert (Hne : i <> j).
    { intros <-. rewrite Forall_forall in Hq. apply nth_error_In in Hnth.
      exact (Hq _ Hnth eq_refl). }
    rewrite (resolvePromise_other _ _ _ _ Hne).
    split; [exact Hp|]. split; [exact Ht|].
    apply DedupFacts.Forall_replaceNth; [exact Hq|discriminate].
  - destruct (nth_error (dqQueries s) q) as [[j|]|] eqn:Hnth; try discriminate.
    injection Hstep as <-. unfold abandoned; cbn [dqTimers dqPromises dqQueries].
    split; [exact Hp|]. split; [exact Ht|].
    apply DedupFacts.Forall_replaceNth; [exact Hq|discriminate].
  - destruct (0 <=? d); [|discriminate]. injection Hstep as <-.
    unfold abandoned. auto.
Qed.

Lemma abandoned_run i evs : forall s s',
  abandoned i s -> debouncedRun delay evs s = Some s' -> abandoned i s'.
Proof.
  induction evs as [|ev evs IH]; intros s s' Hs Hrun; cbn in Hrun.
  - injection Hrun as <-. exact Hs.
  - destruct (debouncedStep delay ev s) as [s1|] eqn:Hstep; [|discriminate].
    exact (IH _ _ (abandoned_step _ _ _ _ Hs Hstep) Hrun).
Qed.

Lemma debouncedRun_app evs1 evs2 s :
  debouncedRun delay (evs1 ++ evs2) s =
  match debouncedRun delay evs1 s with
  | Some s1 => debouncedRun delay evs2 s1
  | None => None
  end.
Proof.
  revert s. induction evs1 as [|ev evs1 IH]; intros s; cbn; [reflexivity|].
  destruct (debouncedStep delay ev s); [apply IH|reflexivity].
Qed.

(** Time passing changes the clock only. *)
Lemma ticks_run ds : forall s s',
  debouncedRun delay (map DqTick ds) s = Some s' ->
  dqTimeoutId s' = dqTimeoutId s /\ dqCachedResult s' = dqCachedResult s
  /\ dqTimers s' = dqTimers s /\ dqPromises s' = dqPromises s
  /\ dqQueries s' = dqQueries s.
Proof.
  induction ds as [|d ds IH]; intros s s' Hrun; cbn in Hrun.
  - injection Hrun as <-. auto.
  - destruct (0 <=? d); [|discriminate].
    apply IH in Hrun. cbn in Hrun. exact Hrun.
Qed.

(** X19: a call of the debounced query that is followed by another call
    before its timer has fired never settles: the second call cancels the
    timer, and nothing else resolves or rejects the promise of the
    first. *)
Theorem debounceQuery_superseded_never_settles now evs0 s0 ds evs s :
  debouncedRun delay evs0 (newDebounced now) = Some s0 ->
  isTruthy (dqCachedResult s0) = false ->
  debouncedRun delay (DqCall :: map DqTick ds ++ DqCall :: evs) s0 = Some s ->
  nth_error (dqPromises s) (length (dqPromises s0)) = Some None.
Proof.
  intros Hreach Hfalsy Hrun.
  assert (Hrange : inRange s0).
  { apply (inRange_run evs0 (newDebounced now) s0); [|exact Hreach].
    split; cbn; constructor. }
  cbn [debouncedRun debouncedStep] in Hrun. rewrite Hfalsy in Hrun.
  rewrite debouncedRun_app in Hrun.
  match type of Hrun with
  | match debouncedRun _ _ ?st with _ => _ end = _ => set (s1 := st) in *
  end.
  destruct (debouncedRun delay (map DqTick ds) s1) as [s2|] eqn:Hticks; [|discriminate].
  apply ticks_run in Hticks.
  destruct Hticks as (Hid & Hcached & Htimers & Hpromises & Hqueries).
  cbn [debouncedRun debouncedStep] in Hrun.
  rewrite Hcached in Hrun. cbn [s1 dqCachedResult] in Hrun. rewrite Hfalsy in Hrun.
  match type of Hrun with
  | debouncedRun _ _ ?st = _ => set (s3 := st) in *
  end.
  assert (Hab : abandoned (length (dqPromises s0)) s3).
  { destruct Hrange as [Ht Hq].
    unfold abandoned, s3; cbn [dqTimers dqPromises dqQueries].
    rewrite Hid, Htimers, Hpromises, Hqueries.
    cbn [s1 dqTimeoutId dqTimers dqPromises dqQueries].
    split; [|split].
    - rewrite nth_error_app1 by (rewrite length_app; cbn; lia).
      apply nth_error_snoc.
    - unfold Timers.setTimeout, Timers.clearTimeout at 1.
      rewrite length_clearTimeout.
      rewrite <- (length_clearTimeout (dqTimeoutId s0) (dqTimers s0)) at 1.
      apply Forall_app. split.
      + set (ts := Timers.clearTimeout (dqTimeoutId s0) (dqTimers s0)).
        rewrite retire_snoc. apply Forall_app. split.
        * apply Forall_clearTimeout.
          -- eapply Forall_impl; [|exact Ht]. cbn. intros tm H _. lia.
          -- cbn. intros tm _ H. discriminate H.
        * constructor; [|constructor]. cbn. intros H. discriminate H.
      + constructor; [|constructor]. cbn. intros _.
        rewrite length_app. cbn. lia.
    - eapply Forall_impl; [|exact Hq]. cbn. intros q H [= ->].
      specialize (H _ eq_refl). lia. }
  exact (proj1 (abandoned_run _ _ _ _ Hab Hrun)).
Qed.




End DebounceQuery.

Lemma debounceQuery_superseded_never_settles_witness :
  exists s,
    debouncedRun 300
      [DqCall; DqTick 100; DqCall; DqTick 300; DqFire 1; DqQueryDone 0 (JNum 5)]
      (newDebounced 0) = Some s
    /\ nth_error (dqPromises s) 0 = Some None
    /\ nth_error (dqPromises s) 1 = Some (Some (JNum 5)).
Proof.
  eexists. split; [reflexivity|]. split; [|reflexivity].
  exact (debounceQuery_superseded_never_settles 300 0 [] (newDebounced 0) [100]
           [DqTick 300; DqFire 1; DqQueryDone 0 (JNum 5)] _ eq_refl eq_refl eq_refl).
Defined.


(* ------------------------------------------------------------------ *)
(** *** [throttleQuery] *)

Section ThrottleQuery.
Variable limit : Z.

Lemma throttledRun_app evs1 evs2 s :
  throttledRun limit (evs1 ++ evs2) s =
  match throttledRun limit evs1 s with
  | Some s1 => throttledRun limit evs2 s1
  | None => None
  end.
Proof.
  revert s. induction evs1 as [|ev evs1 IH]; intros s; cbn; [reflexivity|].
  destruct (throttledStep limit ev s); [apply IH|reflexivity].
Qed.

Lemma nth_error_replaced {B : Type} (l : list B) n m x y :
  nth_error (replaceNth n x l) m = Some y ->
  (m = n /\ y = x) \/ (m <> n /\ nth_error l m = Some y).
Proof.
  intros H. destruct (Nat.eq_dec m n) as [->|Hne].
  - left. split; [reflexivity|].
    assert (Hlt : (n < length l)%nat).
    { rewrite <- (length_replaceNth n x l). apply nth_error_Some. congruence. }
    rewrite nth_error_replaceNth_same in H by exact Hlt. congruence.
  - right. split; [exact Hne|].
    rewrite nth_error_replaceNth_other in H by congruence. exact H.
Qed.

Lemma oneQueryEach_step ev s s' :
  oneQueryEach s -> throttledStep limit ev s = Some s' -> oneQueryEach s'.
Proof.
  intros Hs Hstep. destruct ev as [|q0 v|q0|d]; cbn [throttledStep] in Hstep.
  - destruct ((tqClock s - tqLastCall s <? limit) && isTruthy (tqCachedResult s));
      injection Hstep as <-; intros q i; cbn [tqQueries tqPromises]; intros Hq.
    + destruct (Hs q i Hq) as [Hp Huniq]. split; [|exact Huniq].
      rewrite nth_error_app1 by (eapply nth_error_pending; exact Hp). exact Hp.
    + destruct (Nat.lt_ge_cases q (length (tqQueries s))) as [Hold|Hnew].
      * rewrite nth_error_app1 in Hq by exact Hold.
        destruct (Hs q i Hq) as [Hp Huniq].
        pose proof (nth_error_pending _ _ _ Hp) as Hi. split.
        -- rewrite nth_error_app1 by exact Hi. exact Hp.
        -- intros q' Hq'.
           destruct (Nat.lt_ge_cases q' (length (tqQueries s))) as [Hold'|Hnew'].
           ++ rewrite nth_error_app1 in Hq' by exact Hold'. exact (Huniq _ Hq').
           ++ rewrite nth_error_app2 in Hq' by exact Hnew'.
              destruct (q' - length (tqQueries s))%nat as [|k]; cbn in Hq'.
              ** injection Hq' as <-. lia.
              ** destruct k; discriminate.
      * rewrite nth_error_app2 in Hq by exact Hnew.
        destruct (q - length (tqQueries s))%nat as [|k] eqn:Hk; cbn in Hq;
          [|destruct k; discriminate].
        injection Hq as <-. split; [apply nth_error_snoc|].
        intros q' Hq'.
        destruct (Nat.lt_ge_cases q' (length (tqQueries s))) as [Hold'|Hnew'].
        -- rewrite nth_error_app1 in Hq' by exact Hold'.
           destruct (Hs _ _ Hq') as [Hp _].
           apply nth_error_pending in Hp. lia.
        -- rewrite nth_error_app2 in Hq' by exact Hnew'.
           destruct (q' - length (tqQueries s))%nat as [|k] eqn:Hk'; cbn in Hq';
             [lia|destruct k; discriminate].
  - destruct (nth_error (tqQueries s) q0) as [[j|]|] eqn:Hnth; try discriminate.
    injection Hstep as <-. intros q i; cbn [tqQueries tqPromises]; intros Hq.
    apply nth_error_replaced in Hq. destruct Hq as [[_ Hq]|[Hne Hq]]; [discriminate|].
    destruct (Hs q i Hq) as [Hp Huniq].
    assert (Hij : i <> j).
    { intros ->. apply Hne. symmetry. exact (Huniq _ Hnth). }
    split.
    + rewrite (resolvePromise_other _ _ _ _ Hij). exact Hp.
    + intros q' Hq'. apply nth_error_replaced in Hq'.
      destruct Hq' as [[_ Hq']|[_ Hq']]; [discriminate|exact (Huniq _ Hq')].
  - destruct (nth_error (tqQueries s) q0) as [[j|]|] eqn:Hnth; try discriminate.
    injection Hstep as <-. intros q i; cbn [tqQueries tqPromises]; intros Hq.
    apply nth_error_replaced in Hq. destruct Hq as [[_ Hq]|[Hne Hq]]; [discriminate|].
    destruct (Hs q i Hq) as [Hp Huniq]. split; [exact Hp|].
    intros q' Hq'. apply nth_error_replaced in Hq'.
    destruct Hq' as [[_ Hq']|[_ Hq']]; [discriminate|exact (Huniq _ Hq')].
  - destruct (0 <=? d); [|discriminate]. injection Hstep as <-. exact Hs.
Qed.

Lemma oneQueryEach_run evs : forall s s',
  oneQueryEach s -> throttledRun limit evs s = Some s' -> oneQueryEach s'.
Proof.
  induction evs as [|ev evs IH]; intros s s' Hs Hrun; cbn in Hrun.
  - injection Hrun as <-. exact Hs.
  - destruct (throttledStep limit ev s) as [s1|] eqn:Hstep; [|discriminate].
    exact (IH _ _ (oneQueryEach_step _ _ _ Hs Hstep) Hrun).
Qed.

Lemma stranded_step i ev s s' :
  stranded i s -> throttledStep limit ev s = Some s' -> stranded i s'.
Proof.
  intros (Hp & Hq) Hstep.
  pose proof (nth_error_pending _ _ _ Hp) as Hi.
  destruct ev as [|q0 v|q0|d]; cbn [throttledStep] in Hstep.
  - destruct ((tqClock s - tqLastCall s <? limit) && isTruthy (tqCachedResult s));
      injection Hstep as <-; unfold stranded; cbn [tqQueries tqPromises];
      rewrite nth_error_app1 by exact Hi.
    + auto.
    + split; [exact Hp|]. apply Forall_app. split; [exact Hq|].
      constructor; [|constructor]. intros [= H]. lia.
  - destruct (nth_error (tqQueries s) q0) as [[j|]|] eqn:Hnth; try discriminate.
    injection Hstep as <-. unfold stranded; cbn [tqQueries tqPromises].
    assert (Hne : i <> j).
    { intros <-. rewrite Forall_forall in Hq. apply nth_error_In in Hnth.
      exact (Hq _ Hnth eq_refl). }
    rewrite (resolvePromise_other _ _ _ _ Hne). split; [exact Hp|].
    apply DedupFacts.Forall_replaceNth; [exact Hq|discriminate].
  - destruct (nth_error (tqQueries s) q0) as [[j|]|] eqn:Hnth; try discriminate.
    injection Hstep as <-. unfold stranded; cbn [tqQueries tqPromises].
    split; [exact Hp|].
    apply DedupFacts.Forall_replaceNth; [exact Hq|discriminate].
  - destruct (0 <=? d); [|discriminate]. injection Hstep as <-.
    unfold stranded. auto.
Qed.

Lemma stranded_run i evs : forall s s',
  stranded i s -> throttledRun limit evs s = Some s' -> stranded i s'.
Proof.
  induction evs as [|ev evs IH]; intros s s' Hs Hrun; cbn in Hrun.
  - injection Hrun as <-. exact Hs.
  - destruct (throttledStep limit ev s) as [s1|] eqn:Hstep; [|discriminate].
    exact (IH _ _ (stranded_step _ _ _ _ Hs Hstep) Hrun).
Qed.

(** X21: when the promise of [queryFn] rejects, the promise that the
    throttled query function gave its caller never settles: it is neither
    rejected nor resolved, whatever happens afterwards. *)
Theorem throttleQuery_failed_query_never_settles now evs1 s1 q i evs2 s2 :
  throttledRun limit evs1 (newThrottled now) = Some s1 ->
  nth_error (tqQueries s1) q = Some (Running i) ->
  throttledRun limit (TqQueryFailed q :: evs2) s1 = Some s2 ->
  nth_error (tqPromises s2) i = Some None.
Proof.
  intros Hreach Hq Hrun.
  assert (Hone : oneQueryEach s1).
  { apply (oneQueryEach_run evs1 (newThrottled now) s1); [|exact Hreach].
    intros q' i' H. destruct q'; discriminate H. }
  destruct (Hone q i Hq) as [Hp Huniq].
  cbn [throttledRun throttledStep] in Hrun. rewrite Hq in Hrun.
  match type of Hrun with
  | throttledRun _ _ ?st = _ => assert (Hst : stranded i st)
  end.
  { unfold stranded; cbn [tqQueries tqPromises]. split; [exact Hp|].
    apply Forall_forall. intros x Hin Hx. subst x.
    apply In_nth_error in Hin. destruct Hin as [q' Hq'].
    apply nth_error_replaced in Hq'.
    destruct Hq' as [[_ Hq']|[Hne Hq']]; [discriminate|].
    apply Hne. exact (Huniq _ Hq'). }
  exact (proj1 (stranded_run _ _ _ _ Hst Hrun)).
Qed.

Lemma falsy_step ev s s' :
  keepsFalsy ev -> isTruthy (tqCachedResult s) = false ->
  throttledStep limit ev s = Some s' ->
  isTruthy (tqCachedResult s') = false
  /\ length (tqQueries s') =
     (length (tqQueries s) + if isTqCall ev then 1 else 0)%nat.
Proof.
  intros Hev Hfalsy Hstep.
  destruct ev as [|q0 v|q0|d]; cbn [throttledStep isTqCall] in *.
  - rewrite Hfalsy, andb_false_r in Hstep. injection Hstep as <-.
    cbn [tqCachedResult tqQueries]. rewrite length_app. auto.
  - destruct (nth_error (tqQueries s) q0) as [[j|]|]; try discriminate.
    injection Hstep as <-. cbn [tqCachedResult tqQueries].
    rewrite length_replaceNth. split; [exact Hev|lia].
  - destruct (nth_error (tqQueries s) q0) as [[j|]|]; try discriminate.
    injection Hstep as <-. cbn [tqCachedResult tqQueries].
    rewrite length_replaceNth. split; [exact Hfalsy|lia].
  - destruct (0 <=? d); [|discriminate]. injection Hstep as <-.
    cbn [tqCachedResult tqQueries]. split; [exact Hfalsy|lia].
Qed.

(** X22: as long as no query has given a truthy result, nothing is
    throttled: every call of the throttled query function calls
    [queryFn], however close to the call before. *)
Theorem throttleQuery_falsy_results_never_throttled now evs s :
  Forall keepsFalsy evs ->
  throttledRun limit evs (newThrottled now) = Some s ->
  length (tqQueries s) = length (filter isTqCall evs).
Proof.
  intros Hall Hrun.
  assert (Hgen : forall s0,
            isTruthy (tqCachedResult s0) = false ->
            throttledRun limit evs s0 = Some s ->
            length (tqQueries s) =
            (length (tqQueries s0) + length (filter isTqCall evs))%nat).
  { clear Hrun. induction Hall as [|ev evs Hev Hall IH]; intros s0 Hfalsy Hrun;
      cbn [throttledRun filter] in *.
    - injection Hrun as <-. cbn [length]. lia.
    - destruct (throttledStep limit ev s0) as [s1|] eqn:Hstep; [|discriminate].
      destruct (falsy_step _ _ _ Hev Hfalsy Hstep) as [Hfalsy1 Hlen].
      rewrite (IH _ Hfalsy1 Hrun), Hlen.
      destruct (isTqCall ev); cbn [length]; lia. }
  exact (Hgen (newThrottled now) eq_refl Hrun).
Qed.

End ThrottleQuery.

Lemma throttleQuery_failed_query_never_settles_witness :
  exists s,
    throttledRun 100 [TqCall; TqQueryFailed 0; TqTick 500; TqCall; TqQueryDone 1 (JNum 5)]
      (newThrottled 1000) = Some s
    /\ nth_error (tqPromises s) 0 = Some None
    /\ nth_error (tqPromises s) 1 = Some (Some (JNum 5)).
Proof.
  eexists. split; [reflexivity|]. split; [|reflexivity].
  exact (throttleQuery_failed_query_never_settles 100 1000 [TqCall] _ 0 0
           [TqTick 500; TqCall; TqQueryDone 1 (JNum 5)] _ eq_refl eq_refl eq_refl).
Defined.

Lemma throttleQuery_falsy_results_never_throttled_witness :
  exists s,
    throttledRun 100 [TqCall; TqQueryDone 0 (JNum 0); TqTick 1; TqCall; TqCall]
      (newThrottled 1000) = Some s
    /\ length (tqQueries s) = 3%nat.
Proof.
  eexists. split; [reflexivity|].
  apply (throttleQuery_falsy_results_never_throttled 100 1000
           [TqCall; TqQueryDone 0 (JNum 0); TqTick 1; TqCall; TqCall]).
  - repeat constructor.
  - reflexivity.
Defined.

End QueryFacts.

(* ================================================================== *)
(** ** [debounce] and [throttle] *)

Module UtilsFacts.
Import JS Utils TimerFacts CallFacts.

Section Wrappers.
Variable Args : Type.



(* ------------------------------------------------------------------ *)
(** *** [throttle] *)

Section Throttle.
Variable limit : Z.




End Throttle.

(* ------------------------------------------------------------------ *)
(** *** [debounce] *)

Section Debounce.
Variable wait : Z.





End Debounce.
End Wrappers.



End UtilsFacts.

(* ================================================================== *)
(** ** Pagination of the payments route *)

Module PaymentsFacts.
Import JS PaymentsRoute.


Lemma ceilDiv_bounds c limit :
  0 < limit ->
  c <= ceilDiv c limit * limit /\ ceilDiv c limit * limit < c + limit.
Proof.
  intros Hlimit. unfold ceilDiv.
  pose proof (Z.div_mod (- c) limit ltac:(lia)) as Hdm.
  pose proof (Z.mod_pos_bound (- c) limit Hlimit) as Hmod.
  nia.
Qed.


(** X26: with a limit that passes the validation, every row of the result
    set is asked for by exactly one page, and that page is one of the
    [totalPages] pages the response announces. *)
Theorem every_row_on_one_page limit c row :
  1 <= limit <= 100 ->
  0 <= row < c ->
  exists page,
    invalidPagination page limit = false
    /\ page <= totalPages (paginationOf page limit (Some c))
    /\ fst (rangeOf page limit) <= row <= snd (rangeOf page limit)
    /\ forall page',
         fst (rangeOf page' limit) <= row <= snd (rangeOf page' limit) ->
         page' = page.
Proof.
  intros Hlimit Hrow. exists (row / limit + 1).
  pose proof (Z.div_mod row limit ltac:(lia)) as Hdm.
  pose proof (Z.mod_pos_bound row limit ltac:(lia)) as Hmod.
  pose proof (Z.div_pos row limit ltac:(lia) ltac:(lia)) as Hq.
  destruct (ceilDiv_bounds c limit ltac:(lia)) as [Hlo Hhi].
  unfold paginationOf, rangeOf, offsetOf, invalidPagination.
  cbn [totalPages fst snd countOrZero].
  set (q := row / limit) in *. set (n := ceilDiv c limit) in *.
  repeat split.
  - apply orb_false_iff. split; [apply orb_false_iff; split|].
    + apply Z.ltb_ge. lia.
    + apply Z.ltb_ge. lia.
    + rewrite Z.gtb_ltb. apply Z.ltb_ge. lia.
  - nia.
  - nia.
  - nia.
  - intros page' [Hlo' Hhi']. nia.
Qed.


Lemma every_row_on_one_page_witness :
  exists page,
    invalidPagination page 10 = false
    /\ page <= totalPages (paginationOf page 10 (Some 25))
    /\ fst (rangeOf page 10) <= 24 <= snd (rangeOf page 10).
Proof.
  destruct (every_row_on_one_page 10 25 24 ltac:(lia) ltac:(lia))
    as (page & Hvalid & Hlast & Hrange & _).
  exists page. auto.
Defined.

End PaymentsFacts.

(* ================================================================== *)
(** ** Identifiers of residents *)

Module ResidentFacts.
Import JS ResidentManagement.

Lemma append_empty (s : string) : s ++ EmptyString = s.
Proof. induction s as [|c s IH]; simpl; [reflexivity|]. rewrite IH. reflexivity. Qed.

Lemma numberToString_same n1 n2 : numberToString n1 = numberToString n2 -> n1 = n2.
Proof.
  intros H.
  apply (JsonFacts.numberToString_inj n1 n2 EmptyString EmptyString eq_refl eq_refl).
  rewrite !append_empty. exact H.
Qed.

Lemma in_numbered n s :
  In s (numbered n) <-> exists i, (1 <= i <= n)%nat /\ s = numberToString (Z.of_nat i).
Proof.
  unfold numbered. rewrite in_map_iff. split.
  - intros (i & <- & Hin). apply in_seq in Hin. exists i. split; [lia|reflexivity].
  - intros (i & Hi & ->). exists i. split; [reflexivity|]. apply in_seq. lia.
Qed.

Lemma NoDup_map_injective {A B : Type} (f : A -> B) (l : list A) :
  (forall x y, f x = f y -> x = y) -> NoDup l -> NoDup (map f l).
Proof.
  intros Hinj Hnd. induction Hnd as [|x l Hnotin Hnd IH]; cbn; constructor; [|exact IH].
  intros Hin. apply in_map_iff in Hin. destruct Hin as (y & Heq & Hy).
  apply Hinj in Heq. subst y. exact (Hnotin Hy).
Qed.

Lemma NoDup_numbered n : NoDup (numbered n).
Proof.
  unfold numbered. apply NoDup_map_injective; [|apply seq_NoDup].
  intros x y H. apply numberToString_same in H. lia.
Qed.

Lemma numbered_S n :
  numbered (S n) = (numbered n ++ [numberToString (Z.of_nat n + 1)])%list.
Proof.
  unfold numbered. rewrite seq_S, map_app. cbn [map]. do 3 f_equal. lia.
Qed.

(** As long as residents are only added, the identifiers stay ['1'],
    ['2'], ... in the order of the list, and no two residents have the
    same. *)
Lemma added_are_numbered form today residents :
  map id residents = numbered (length residents) ->
  map id (addResident form today residents) = numbered (S (length residents))
  /\ NoDup (map id (addResident form today residents)).
Proof.
  intros Hids.
  assert (H : map id (addResident form today residents) = numbered (S (length residents))).
  { unfold addResident. rewrite map_app, Hids, numbered_S. reflexivity. }
  split; [exact H|]. rewrite H. apply NoDup_numbered.
Qed.

Lemma map_deleteResident rid residents :
  map id (deleteResident rid residents) =
  filter (fun s => negb (String.eqb s rid)) (map id residents).
Proof.
  unfold deleteResident. induction residents as [|r residents IH]; [reflexivity|].
  cbn [filter map]. destruct (negb (String.eqb (id r) rid)); cbn [map]; rewrite IH;
    reflexivity.
Qed.

Lemma filter_keeps_all {A : Type} (f : A -> bool) (l : list A) :
  (forall x, In x l -> f x = true) -> filter f l = l.
Proof.
  induction l as [|x l IH]; intros H; [reflexivity|].
  cbn [filter]. rewrite (H x (or_introl eq_refl)). f_equal.
  apply IH. intros y Hy. apply H. right. exact Hy.
Qed.

(** Deleting the identifier of [k] from ['1'], ..., ['n']. *)
Lemma numbered_without n k :
  (1 <= k <= n)%nat ->
  filter (fun s => negb (String.eqb s (numberToString (Z.of_nat k)))) (numbered n) =
  (map (fun i => numberToString (Z.of_nat i)) (seq 1 (k - 1))
   ++ map (fun i => numberToString (Z.of_nat i)) (seq (S k) (n - k)))%list.
Proof.
  intros Hk. unfold numbered.
  replace n with ((k - 1) + (1 + (n - k)))%nat at 1 by lia.
  rewrite seq_app, map_app, filter_app.
  replace (1 + (k - 1))%nat with k by lia.
  cbn [seq Nat.add map filter]. rewrite String.eqb_refl. cbn [negb].
  f_equal; apply filter_keeps_all; intros s Hin; apply in_map_iff in Hin;
    destruct Hin as (i & <- & Hi); apply in_seq in Hi;
    apply negb_true_iff, String.eqb_neq; intros H;
    apply numberToString_same in H; lia.
Qed.

(** X27: on a list with the identifiers ['1'], ..., ['n'], a resident
    added at once gets the new identifier ['n+1']; but after any resident
    other than the last has been deleted, a resident added next gets the
    identifier of the last resident of the list, so that two residents
    carry it, and "Delete" on either of the two then removes both. *)
Theorem add_after_delete_reuses_id form today residents (n k : nat) :
  map id residents = numbered n ->
  (1 <= k < n)%nat ->
  let residents' :=
    addResident form today (deleteResident (numberToString (Z.of_nat k)) residents) in
  NoDup (map id (addResident form today residents))
  /\ length residents' = n
  /\ ~ NoDup (map id residents')
  /\ length (deleteResident (numberToString (Z.of_nat n)) residents') = (n - 2)%nat.
Proof.
  intros Hids Hk residents'.
  split.
  { apply added_are_numbered. rewrite Hids. f_equal.
    rewrite <- (length_map id), Hids. unfold numbered.
    rewrite length_map, length_seq. reflexivity. }
  set (kept := deleteResident (numberToString (Z.of_nat k)) residents) in *.
  assert (Hkept : map id kept =
            (map (fun i => numberToString (Z.of_nat i)) (seq 1 (k - 1))
             ++ map (fun i => numberToString (Z.of_nat i)) (seq (S k) (n - k)))%list).
  { unfold kept. rewrite map_deleteResident, Hids. apply numbered_without. lia. }
  assert (Hlen : length kept = (n - 1)%nat).
  { rewrite <- (length_map id), Hkept, length_app, !length_map, !length_seq. lia. }
  assert (Hnew : map id residents' =
                 (map id kept ++ [numberToString (Z.of_nat n)])%list).
  { unfold residents', addResident. rewrite map_app. cbn [map id]. rewrite Hlen.
    do 3 f_equal. lia. }
  assert (Hold : In (numberToString (Z.of_nat n)) (map id kept)).
  { rewrite Hkept. apply in_or_app. right. apply in_map_iff. exists n.
    split; [reflexivity|]. apply in_seq. lia. }
  split; [|split].
  - rewrite <- (length_map id), Hnew, length_app, length_map, Hlen. cbn. lia.
  - rewrite Hnew. intros Hnd. apply NoDup_remove_2 in Hnd.
    apply Hnd. rewrite app_nil_r. exact Hold.
  - rewrite <- (length_map id), map_deleteResident, Hnew, filter_app.
    cbn [filter]. rewrite String.eqb_refl. cbn [negb]. rewrite app_nil_r.
    rewrite Hkept, filter_app.
    rewrite (filter_keeps_all _ (map _ (seq 1 (k - 1)))).
    + replace (n - k)%nat with ((n - k - 1) + 1)%nat by lia.
      rewrite seq_app, map_app, filter_app.
      rewrite (filter_keeps_all _ (map _ (seq (S k) (n - k - 1)))).
      * cbn [seq map filter].
        replace (S k + (n - k - 1))%nat with n by lia.
        rewrite String.eqb_refl. cbn [negb].
        rewrite !length_app, !length_map, !length_seq. cbn. lia.
      * intros s Hin. apply in_map_iff in Hin. destruct Hin as (i & <- & Hi).
        apply in_seq in Hi. apply negb_true_iff, String.eqb_neq. intros H.
        apply numberToString_same in H. lia.
    + intros s Hin. apply in_map_iff in Hin. destruct Hin as (i & <- & Hi).
      apply in_seq in Hi. apply negb_true_iff, String.eqb_neq. intros H.
      apply numberToString_same in H. lia.
Qed.

Lemma add_after_delete_reuses_id_witness :
  map id (addResident sampleForm "2024-03-05" (deleteResident "1" mockResidents))
  = ["2"; "3"; "3"]
  /\ ~ NoDup (map id (addResident sampleForm "2024-03-05"
                        (deleteResident "1" mockResidents))).
Proof.
  split; [reflexivity|].
  exact (proj1 (proj2 (proj2 (add_after_delete_reuses_id sampleForm "2024-03-05"
                                mockResidents 3 1 eq_refl ltac:(lia))))).
Defined.

End ResidentFacts.

(* ================================================================== *)
(** ** [request]: no attempts allowed, and callers with other options *)

Module QueueFacts.
Import JS PerformanceOptimizer ApiClient MapFacts CacheFacts KeyFacts CallFacts
       RetryFacts RequestFacts.

(** X28: a request for which no attempt is allowed ([retries] of 0 or
    less) calls the transport not once and is rejected with [undefined],
    the value of a [lastError] that was never assigned; its entry leaves
    the queue. *)
Theorem request_without_attempts endpoint config w :
  let cfg := resolveConfig config in
  let url := baseURL w ++ endpoint in
  let key := cacheKey (eMethod cfg) url (eBody cfg) in
  let c := length (callers w) in
  cacheHit cfg key w = false ->
  JSMap.get key (requestQueue w) = None ->
  eRetries cfg <= 0 ->
  exists w',
    run [Call endpoint config; Resume c] w = Some w'
    /\ nth_error (callers w') c = Some (Returned (Rejected ThrownUndefined))
    /\ fetchLog w' = fetchLog w
    /\ sleepLog w' = sleepLog w
    /\ JSMap.get key (requestQueue w') = None.
Proof.
  intros cfg url key c Hmiss Hfree Hnone.
  cbn [run step]. rewrite (call_fresh endpoint config w Hmiss Hfree).
  fold cfg url key.
  assert (Hjob : startJob (length (promises w)) url cfg (clock w) =
                 (Settled (Rejected ThrownUndefined), [])).
  { unfold startJob. replace (1 <=? eRetries cfg) with false; [reflexivity|].
    symmetry. apply Z.leb_gt. lia. }
  rewrite Hjob. cbn [fst snd callers promises]. fold c.
  unfold c at 1. rewrite nth_error_snoc. cbn [awaited].
  rewrite nth_error_snoc.
  eexists. split; [reflexivity|].
  cbn [resume callers fetchLog sleepLog requestQueue].
  unfold c. rewrite replaceNth_snoc, nth_error_snoc, app_nil_r.
  repeat split. apply (get_delete_same key).
Qed.

(** X29: a call that finds a request with its key in flight joins it
    whatever its own options: no second call of the transport is made, and
    the request in flight keeps the retries, the timeout and the caching
    options of the call that started it. *)
Theorem later_call_joins_whatever_its_options endpoint config1 config2 w :
  let cfg1 := resolveConfig config1 in
  let cfg2 := resolveConfig config2 in
  let url := baseURL w ++ endpoint in
  let key := cacheKey (eMethod cfg1) url (eBody cfg1) in
  let p := length (promises w) in
  cacheHit cfg1 key w = false ->
  JSMap.get key (requestQueue w) = None ->
  1 <= eRetries cfg1 ->
  cacheKey (eMethod cfg2) url (eBody cfg2) = key ->
  cacheHit cfg2 key (call endpoint config1 w) = false ->
  let w2 := call endpoint config2 (call endpoint config1 w) in
  callers w2 = (callers w ++ [AwaitingOwn p key; AwaitingQueued p])%list
  /\ promises w2 =
     (promises w ++
      [Pending {| jUrl := url; jConfig := cfg1; jAttempt := 1;
                  jLastError := ThrownUndefined; jPhase := Fetching |}])%list
  /\ fetchLog w2 = (fetchLog w ++ [fetchCall p url cfg1 1 (clock w)])%list
  /\ sleepLog w2 = sleepLog w.
Proof.
  intros cfg1 cfg2 url key p Hmiss Hfree Hretries Hkey Hmiss2 w2.
  pose proof (lone_call endpoint config1 w Hmiss Hfree Hretries) as Hcall.
  fold cfg1 url key p in Hcall.
  set (w1 := call endpoint config1 w) in *.
  assert (Hbase : baseURL w1 = baseURL w) by (rewrite Hcall; reflexivity).
  assert (Hq : JSMap.get (cacheKey (eMethod cfg2) (baseURL w1 ++ endpoint) (eBody cfg2))
                 (requestQueue w1) = Some p).
  { rewrite Hbase. fold url. rewrite Hkey, Hcall. cbn [requestQueue].
    apply get_set_same. }
  assert (Hm : cacheHit cfg2 (cacheKey (eMethod cfg2) (baseURL w1 ++ endpoint) (eBody cfg2))
                 w1 = false).
  { rewrite Hbase. fold url. rewrite Hkey. exact Hmiss2. }
  unfold w2. rewrite (call_queued endpoint config2 w1 p Hm Hq).
  cbn [callers promises fetchLog sleepLog]. rewrite Hcall.
  cbn [callers promises fetchLog sleepLog]. rewrite <- app_assoc.
  repeat split.
Qed.

Lemma request_without_attempts_witness :
  exists w',
    run [Call "/health"
           {| method := None; body := JUndefined; cache := None; cacheTTL := None;
              retries := Some 0; timeout := None |};
         Resume 0] (newWorld "/api" 0) = Some w'
    /\ callers w' = [Returned (Rejected ThrownUndefined)]
    /\ fetchLog w' = [].
Proof.
  destruct (request_without_attempts "/health"
              {| method := None; body := JUndefined; cache := None; cacheTTL := None;
                 retries := Some 0; timeout := None |}
              (newWorld "/api" 0) eq_refl eq_refl ltac:(cbv; discriminate))
    as (w' & Hrun & _ & Hlog & _).
  exists w'. split; [exact Hrun|].
  vm_compute in Hrun. injection Hrun as <-. split; reflexivity.
Defined.

Lemma later_call_joins_whatever_its_options_witness :
  let post := fun t r =>
    {| method := Some POST; body := Scenario.bodyAB; cache := None; cacheTTL := None;
       retries := r; timeout := t |} in
  map fTimeout
      (fetchLog (call "/payments" (post (Some 5) (Some 1))
                   (call "/payments" (post None None) (newWorld "/api" 0))))
  = [10000].
Proof.
  intros post.
  destruct (later_call_joins_whatever_its_options "/payments" (post None None)
              (post (Some 5) (Some 1)) (newWorld "/api" 0)
              eq_refl eq_refl ltac:(cbv; discriminate) eq_refl eq_refl)
    as (_ & _ & Hlog & _).
  rewrite Hlog. reflexivity.
Defined.

End QueueFacts.

(* ================================================================== *)
(** ** The analytics route: what a cache hit answers *)

Module AnalyticsFacts.
Import JS PerformanceOptimizer AnalyticsRoute MapFacts CacheFacts.

Lemma get_absent {V : Type} k (m : JSMap.t V) :
  ~ In k (JSMap.keys m) -> JSMap.get k m = None.
Proof.
  intros Hnot. destruct (JSMap.get k m) as [v|] eqn:E; [|reflexivity].
  exfalso. apply Hnot. apply get_in in E.
  unfold JSMap.keys. apply in_map_iff. exists (k, v). auto.
Qed.

Lemma withPart_keys name part analytics :
  In name partNames ->
  Forall (fun kv : string * JSValue => In (fst kv) partNames) analytics ->
  Forall (fun kv : string * JSValue => In (fst kv) partNames) (withPart name part analytics).
Proof.
  intros Hname Hall. unfold withPart. destruct part as [v|]; [|exact Hall].
  apply Forall_forall. intros [k x] Hin. apply in_set in Hin.
  destruct Hin as [[-> _]|Hin]; [exact Hname|].
  rewrite Forall_forall in Hall. exact (Hall _ Hin).
Qed.

Lemma analyticsOf_keys type src analytics :
  analyticsOf type src = Some analytics ->
  Forall (fun kv : string * JSValue => In (fst kv) partNames) analytics.
Proof.
  unfold analyticsOf.
  destruct ((selects type "financial" || selects type "operations")
            && match startDateText src with Some _ => false | None => true end);
    [discriminate|].
  intros [= <-].
  repeat match goal with
         | |- Forall _ (if ?b then _ else _) => destruct b
         | |- Forall _ (withPart _ _ _) => apply withPart_keys; [cbn; tauto|]
         | |- Forall _ [] => constructor
         end.
Qed.

Lemma not_a_part name analytics :
  ~ In name partNames ->
  Forall (fun kv : string * JSValue => In (fst kv) partNames) analytics ->
  JSMap.get name analytics = None.
Proof.
  intros Hname Hall. apply get_absent. intros Hin.
  unfold JSMap.keys in Hin. apply in_map_iff in Hin. destruct Hin as ([k v] & <- & Hin).
  rewrite Forall_forall in Hall. exact (Hname (Hall _ Hin)).
Qed.

(** Spreading properties with other names over an object keeps a
    property of the object. *)
Lemma spread_keeps name (v : JSValue) (analytics : list (string * JSValue)) : forall base,
  JSMap.get name base = Some v ->
  ~ In name (JSMap.keys analytics) ->
  JSMap.get name
    (fold_left (fun acc kv => JSMap.set (fst kv) (snd kv) acc) analytics base) = Some v.
Proof.
  induction analytics as [|[k x] analytics IH]; intros base Hbase Hnot; [exact Hbase|].
  cbn [fold_left fst snd]. apply IH.
  - rewrite get_set_other; [exact Hbase|]. intros ->. apply Hnot. left. reflexivity.
  - intros Hin. apply Hnot. right. exact Hin.
Qed.

(** X30: when a request has missed the cache and has been answered from
    the database, the same request made within ten minutes of the caching
    is answered with the cached analytics alone: the answer has the status
    200 and, unlike the first, no [period], no [startDate] and no
    [endDate], whatever the database holds by then. *)
Theorem cached_analytics_lack_period q src1 src2 start now later now2 later2 c :
  startDateText src1 = Some start ->
  isTruthy (fst (getCache config (cacheKey q) now c)) = false ->
  now2 - later <= 10 * 60 * 1000 ->
  let r1 := GET q src1 now later c in
  let r2 := GET q src2 now2 later2 (snd r1) in
  exists analytics,
    analyticsOf (typeOf q) src1 = Some analytics
    /\ status (fst r1) = 200
    /\ property "period" (responseBody (fst r1)) = Some (JStr (periodOf q))
    /\ property "startDate" (responseBody (fst r1)) = Some (JStr start)
    /\ fst r2 = {| status := 200; responseBody := JObj analytics |}
    /\ property "period" (responseBody (fst r2)) = None
    /\ property "startDate" (responseBody (fst r2)) = None
    /\ property "endDate" (responseBody (fst r2)) = None.
Proof.
  intros Hstart Hmiss Hfresh r1 r2.
  destruct (analyticsOf (typeOf q) src1) as [analytics|] eqn:Han.
  2:{ unfold analyticsOf in Han. rewrite Hstart, andb_false_r in Han. discriminate. }
  exists analytics. split; [reflexivity|].
  pose proof (analyticsOf_keys _ _ _ Han) as Hkeys.
  assert (Hr1 : r1 =
            ({| status := 200;
                responseBody := freshBody (periodOf q) start (endDateText src1) analytics |},
             setCache config (cacheKey q) (JObj analytics) (Some (10 * 60 * 1000)) later
               (snd (getCache config (cacheKey q) now c)))).
  { unfold r1, GET. rewrite Hmiss, Han, Hstart. reflexivity. }
  assert (Hr2 : fst r2 = {| status := 200; responseBody := JObj analytics |}).
  { unfold r2, GET. rewrite Hr1. cbn [snd].
    rewrite (getCache_live config (cacheKey q) now2 _ _
               (setCache_stores config (cacheKey q) (JObj analytics)
                  (Some (10 * 60 * 1000)) later _)) by exact Hfresh.
    reflexivity. }
  assert (Hno : forall name, ~ In name partNames -> ~ In name (JSMap.keys analytics)).
  { intros name Hname Hin. unfold JSMap.keys in Hin. apply in_map_iff in Hin.
    destruct Hin as ([k v] & <- & Hin). rewrite Forall_forall in Hkeys.
    exact (Hname (Hkeys _ Hin)). }
  assert (Hp : forall name, In name ["period"; "startDate"; "endDate"] ->
                 ~ In name partNames).
  { intros name Hin Hpart. cbn in Hin, Hpart.
    repeat match goal with
           | H : _ \/ _ |- _ => destruct H
           | H : False |- _ => destruct H
           end; subst; discriminate. }
  rewrite Hr2, Hr1. cbn [fst status responseBody property].
  repeat split.
  - unfold freshBody. apply spread_keeps; [reflexivity|].
    apply Hno, Hp. cbn. tauto.
  - unfold freshBody. apply spread_keeps; [reflexivity|].
    apply Hno, Hp. cbn. tauto.
  - apply not_a_part; [apply Hp; cbn; tauto|exact Hkeys].
  - apply not_a_part; [apply Hp; cbn; tauto|exact Hkeys].
  - apply not_a_part; [apply Hp; cbn; tauto|exact Hkeys].
Qed.

Lemma cached_analytics_lack_period_witness :
  let q := {| periodParam := Some "7"; typeParam := Some "inventory" |} in
  let src := {| residentsPart := None; financialPart := None; operationsPart := None;
                maintenancePart := None;
                inventoryPart := Some (JObj [("totalItems", JNum 12)]);
                startDateText := Some "2024-03-01T00:00:00.000Z";
                endDateText := "2024-03-08T00:00:00.000Z" |} in
  fst (GET q src 2000 2100 (snd (GET q src 1000 1100 [])))
  = {| status := 200;
       responseBody := JObj [("inventory", JObj [("totalItems", JNum 12)])] |}.
Proof.
  intros q src.
  destruct (cached_analytics_lack_period q src src "2024-03-01T00:00:00.000Z"
              1000 1100 2000 2100 [] eq_refl eq_refl ltac:(cbv; discriminate))
    as (analytics & Han & _ & _ & _ & Hr2 & _).
  rewrite Hr2. vm_compute in Han. injection Han as <-. reflexivity.
Defined.

End AnalyticsFacts.
